(** * School directory service: distance ranking, validation, the two
    request handlers and the start-up of [app.js], embedded and verified.

    Numbers are IEEE 754 binary64 values (Rocq's primitive [float], the
    format of a JavaScript Number).  The arithmetic operators, [Math.sqrt]
    and the comparisons are the primitive ones; [Math.sin], [Math.cos] and
    [Math.atan2], which ECMA-262 leaves implementation-approximated, are
    fields of the arithmetic interface: section variables constrained only
    by what a theorem states about them, or, where a run is evaluated, the
    values they take at the arguments of that run. *)

From Stdlib Require Import ZArith List String Ascii Bool Lia Floats.
From Stdlib Require Import Sorting.Sorted Sorting.Permutation.
Import ListNotations.

Set Warnings "-inexact-float".

(* ===================================================================== *)
(** * The arithmetic used by [calculateDistance] *)
(* ===================================================================== *)

(** The operations and constants [calculateDistance] uses: the binary64
    operators and the three functions of [Math] that the language leaves to
    the implementation. *)
Class Arith (F : Type) := {
  lit   : Z -> F;            (* an integer literal of the source *)
  Math_PI : F;
  add   : F -> F -> F;
  sub   : F -> F -> F;
  mul   : F -> F -> F;
  div   : F -> F -> F;
  Math_sqrt  : F -> F;
  Math_sin   : F -> F;
  Math_cos   : F -> F;
  Math_atan2 : F -> F -> F
}.

Declare Scope arith_scope.
Delimit Scope arith_scope with ar.
Infix "+" := add : arith_scope.
Infix "-" := sub : arith_scope.
Infix "*" := mul : arith_scope.
Infix "/" := div : arith_scope.

Section Distance.
Context {F : Type} `{Arith F}.
Local Open Scope arith_scope.

(** [function calculateDistance(lat1, lon1, lat2, lon2)], app.js 83-99.
    JavaScript's [*] and [/] associate to the left, as the notations
    here do. *)
Definition calculateDistance (lat1 lon1 lat2 lon2 : F) : F :=
  let R := lit 6371 in
  let dLat := ((lat2 - lat1) * Math_PI) / lit 180 in
  let dLon := ((lon2 - lon1) * Math_PI) / lit 180 in
  let a :=
    Math_sin (dLat / lit 2) * Math_sin (dLat / lit 2) +
    Math_cos ((lat1 * Math_PI) / lit 180) *
      Math_cos ((lat2 * Math_PI) / lit 180) *
      Math_sin (dLon / lit 2) *
      Math_sin (dLon / lit 2) in
  let c := lit 2 * Math_atan2 (Math_sqrt a) (Math_sqrt (lit 1 - a)) in
  let distance := R * c in
  distance.


End Distance.

(* ===================================================================== *)
(** * JavaScript values, strings and number parsing *)
(* ===================================================================== *)

(** What a request field can hold: a missing property is [undefined]; JSON
    bodies carry null, booleans, numbers and strings; an array or object is
    kept by the string [ToString] gives for it, the only thing the handlers
    ever ask of one.  Strings are UTF-8 byte sequences. *)
Inductive JSValue :=
| JUndefined
| JNull
| JBool (b : bool)
| JNum (x : float)
| JStr (s : string)
| JObj (printed : string).

(** A string made by the program: spelled out, or [ToString(x)] for a
    Number [x], which is kept as the Number it prints (the digits that
    ECMA-262 6.1.6.1.20 chooses are never looked at, only read back). *)
Inductive JSString :=
| Spelled (s : string)
| Canonical (x : float).

Module JS.
Local Open Scope string_scope.

(** [isNaN] on a Number. *)
Definition isNaN (x : float) : bool := PrimFloat.is_nan x.

(** [ToBoolean], as used by the [!] operator. *)
Definition ToBoolean (v : JSValue) : bool :=
  match v with
  | JUndefined | JNull => false
  | JBool b => b
  | JNum x => negb (PrimFloat.is_zero x || PrimFloat.is_nan x)
  | JStr s => negb (String.eqb s "")
  | JObj _ => true
  end.

Definition typeof (v : JSValue) : string :=
  match v with
  | JUndefined => "undefined"
  | JNull => "object"
  | JBool _ => "boolean"
  | JNum _ => "number"
  | JStr _ => "string"
  | JObj _ => "object"
  end.

(** ** White space

    ECMA-262 WhiteSpace and LineTerminator code points, recognised in
    their UTF-8 encoding: one byte for TAB, LF, VT, FF, CR and SP; two
    for U+00A0; three for U+1680, U+2000..U+200A, U+2028, U+2029,
    U+202F, U+205F, U+3000 and U+FEFF. *)
Definition byte (c : ascii) : N := N_of_ascii c.

Definition ws1 (c : ascii) : bool :=
  let n := byte c in
  ((9 <=? n) && (n <=? 13) || (n =? 32))%N.

Definition ws2 (c1 c2 : ascii) : bool :=
  ((byte c1 =? 194) && (byte c2 =? 160))%N.

Definition ws3 (c1 c2 c3 : ascii) : bool :=
  let '(a, b, c) := (byte c1, byte c2, byte c3) in
  ((a =? 225) && (b =? 154) && (c =? 128)
   || (a =? 226) && (b =? 128) &&
        ((128 <=? c) && (c <=? 138) || (c =? 168) || (c =? 169) || (c =? 175))
   || (a =? 226) && (b =? 129) && (c =? 159)
   || (a =? 227) && (b =? 128) && (c =? 128)
   || (a =? 239) && (b =? 187) && (c =? 191))%N.

(** [String.prototype.trimStart]. *)
Fixpoint trimStart (s : string) : string :=
  match s with
  | EmptyString => s
  | String c1 r1 =>
      if ws1 c1 then trimStart r1 else
      match r1 with
      | EmptyString => s
      | String c2 r2 =>
          if ws2 c1 c2 then trimStart r2 else
          match r2 with
          | EmptyString => s
          | String c3 r3 => if ws3 c1 c2 c3 then trimStart r3 else s
          end
      end
  end.

(** [String.prototype.trimEnd]: a suffix made of white space only is
    dropped. *)
Fixpoint trimEnd (s : string) : string :=
  match s with
  | EmptyString => EmptyString
  | String c r =>
      if String.eqb (trimStart s) "" then "" else String c (trimEnd r)
  end.

(** [String.prototype.trim]. *)
Definition trim (s : string) : string := trimEnd (trimStart s).

(** ** Decimal literals *)

Definition digit (c : ascii) : option Z :=
  let n := byte c in
  if ((48 <=? n) && (n <=? 57))%N then Some (Z.of_N n - 48)%Z else None.

(** Reads the longest run of decimal digits at the head of [s] into the
    accumulator [acc]; returns the value, the number of digits read and
    the rest of the string. *)
Fixpoint read_digits (s : string) (acc : Z) (cnt : Z) : Z * Z * string :=
  match s with
  | EmptyString => (acc, cnt, s)
  | String c r =>
      match digit c with
      | Some d => read_digits r (10 * acc + d)%Z (cnt + 1)%Z
      | None => (acc, cnt, s)
      end
  end.

(** The Number value of [m * 10^e10] for a non-negative integer [m],
    rounded to nearest, ties to even (ECMA-262 6.1.6.1, "the Number value
    for x"); [neg] is the sign, kept on a zero. *)
Definition dec2float (neg : bool) (m e10 : Z) : float :=
  if (m <=? 0)%Z then (if neg then PrimFloat.neg_zero else PrimFloat.zero)
  else if (0 <=? e10)%Z then
    SF2Prim (binary_round prec emax neg (Z.to_pos (m * 10 ^ e10)) 0)
  else
    let '(q, e, l) :=
      SFdiv_core_binary prec emax m 0 (10 ^ (- e10)) 0 in
    SF2Prim (binary_round_aux prec emax neg q e l).

(** The sign of a StrDecimalLiteral, and what follows it. *)
Definition read_sign (t : string) : bool * string :=
  match t with
  | String c r =>
      if Ascii.eqb c "-" then (true, r)
      else if Ascii.eqb c "+" then (false, r)
      else (false, t)
  | EmptyString => (false, t)
  end.

(** The ExponentPart of a StrDecimalLiteral at the head of [s]: [e] or
    [E], an optional sign, at least one digit.  0 when there is none. *)
Definition read_exponent (s : string) : Z :=
  match s with
  | String c r =>
      if (Ascii.eqb c "e" || Ascii.eqb c "E")%bool then
        let '(neg, r') := read_sign r in
        let '(v, cnt, _) := read_digits r' 0 0 in
        if (cnt =? 0)%Z then 0%Z else if neg then (- v)%Z else v
      else 0%Z
  | EmptyString => 0%Z
  end.

(** The Number of the longest StrUnsignedDecimalLiteral at the head of
    [t]: [Infinity], or digits with an optional fraction and an optional
    exponent; [NaN] when there is none. *)
Definition read_unsigned (neg : bool) (t : string) : float :=
  if String.prefix "Infinity" t then
    (if neg then PrimFloat.neg_infinity else PrimFloat.infinity)
  else
    let '(ival, icnt, t2) := read_digits t 0 0 in
    let '(m, fcnt, t3) :=
      match t2 with
      | String c r =>
          if Ascii.eqb c "." then read_digits r ival 0 else (ival, 0%Z, t2)
      | EmptyString => (ival, 0%Z, t2)
      end in
    if ((icnt =? 0) && (fcnt =? 0))%Z then PrimFloat.nan
    else dec2float neg m (read_exponent t3 - fcnt).

(** [parseFloat] on a string (ECMA-262 19.2.4): leading white space is
    skipped, the longest prefix that is a StrDecimalLiteral is converted,
    whatever follows it is ignored, and [NaN] is returned when there is
    no such prefix. *)
Definition parseFloatStr (s : string) : float :=
  let '(neg, t) := read_sign (trimStart s) in
  read_unsigned neg t.

(** [ToString]. *)
Definition ToString (v : JSValue) : JSString :=
  match v with
  | JUndefined => Spelled "undefined"
  | JNull => Spelled "null"
  | JBool true => Spelled "true"
  | JBool false => Spelled "false"
  | JNum x => Canonical x
  | JStr s => Spelled s
  | JObj printed => Spelled printed
  end.

(** Reading [ToString(x)] back: it is by definition a decimal literal
    whose Number value is [x], so [x] comes back; the two zeros both print
    as ["0"], which reads as [+0]. *)
Definition reread (x : float) : float :=
  if PrimFloat.is_zero x then PrimFloat.zero else x.

(** [parseFloat] on a string of the program. *)
Definition parseFloatString (s : JSString) : float :=
  match s with
  | Spelled s => parseFloatStr s
  | Canonical x => reread x
  end.

(** [parseFloat(v)] is [parseFloat(ToString(v))]. *)
Definition parseFloat (v : JSValue) : float := parseFloatString (ToString v).
End JS.

(** ** [Number.prototype.toFixed] *)

Module Fixed.
Local Open Scope string_scope.
Local Open Scope Z_scope.

Definition digit_char (d : Z) : ascii := ascii_of_N (Z.to_N (48 + d)).

(** The [w] low-order decimal digits of [n], most significant first. *)
Fixpoint fixed_digits (w : nat) (n : Z) : string :=
  match w with
  | O => EmptyString
  | S w' => String (digit_char ((n / 10 ^ Z.of_nat w') mod 10))
                   (fixed_digits w' n)
  end.

Fixpoint width_from (fuel : nat) (n : Z) (w : nat) : nat :=
  match fuel with
  | O => w
  | S fuel' => if n <? 10 ^ Z.of_nat w then w else width_from fuel' n (S w)
  end.

(** The number of digits of the decimal representation of [n >= 0]
    (1 for 0). *)
Definition decimal_width (n : Z) : nat :=
  width_from (Z.to_nat (Z.log2 n)) n 1.

(** "The digits of the decimal representation of n (in order, with no
    leading zeroes)", and ["0"] for 0. *)
Definition decimal_digits (n : Z) : string :=
  fixed_digits (decimal_width n) n.

Fixpoint zeros (k : nat) : string :=
  match k with
  | O => EmptyString
  | S k' => String "0" (zeros k')
  end.

(** Steps 11.b and 11.c: the digits of [n] with a decimal point before
    the last [f] of them, zero-padded on the left to [f + 1] digits. *)
Definition point (n : Z) (f : nat) : string :=
  let m := decimal_digits n in
  let k := String.length m in
  if Nat.eqb f 0 then m
  else
    let m := if Nat.leb k f then zeros (f + 1 - k) ++ m else m in
    let k := if Nat.leb k f then (f + 1)%nat else k in
    substring 0 (k - f) m ++ "." ++ substring (k - f) f m.

(** Step 11.a for the magnitude [m * 2^e]: "let n be an integer for
    which n / 10^f - x is as close to zero as possible; if there are two
    such n, pick the larger n". *)
Definition scaled (m e : Z) (f : nat) : Z :=
  if 0 <=? e then m * 2 ^ e * 10 ^ Z.of_nat f
  else (2 * m * 10 ^ Z.of_nat f + 2 ^ (- e)) / 2 ^ (- e + 1).

(** [10^21 <= m * 2^e]. *)
Definition huge (m e : Z) : bool :=
  if 0 <=? e then 10 ^ 21 <=? m * 2 ^ e
  else 10 ^ 21 * 2 ^ (- e) <=? m.

(** [x.toFixed(f)] for [0 <= f <= 100] (ECMA-262 21.1.3.3).  A magnitude
    of [10^21] or more is printed by [ToString] (step 10). *)
Definition toFixed (x : float) (f : nat) : JSString :=
  match Prim2SF x with
  | S754_nan => Spelled "NaN"
  | S754_infinity s => Spelled (if s then "-Infinity" else "Infinity")
  | S754_zero _ => Spelled (point 0 f)
  | S754_finite s m e =>
      if huge (Zpos m) e then Canonical x
      else Spelled ((if s then "-" else "") ++ point (scaled (Zpos m) e f) f)
  end.

End Fixed.

(* ===================================================================== *)
(** * Records *)
(* ===================================================================== *)

(** The fields of [req.body] and of [schoolData]. *)
Module Data.
Record t := { name : JSValue; address : JSValue;
              latitude : JSValue; longitude : JSValue }.
End Data.

(** The fields of [req.query] read by the listing route. *)
Module Query.
Record t := { latitude : JSValue; longitude : JSValue }.
End Query.

(** A row of the [schools] table as a [SELECT *] returns it. *)
Module School.
Record t := { id : Z; name : string; address : string;
              latitude : float; longitude : float; created_at : Z }.
End School.

(** [{ ...school, distance }]. *)
Record RankedSchool := { school : School.t; distance : float }.

(** What a handler sends: the status and the JSON body. *)
Inductive Body :=
| ValidationFailure (errors : list string)     (* success: false, errors *)
| Failure (message : string)                   (* success: false, message *)
| Created (message : string) (schoolId : Z)    (* success: true, ... *)
| Listing (count : nat) (schools : list RankedSchool).

Record Response := { status : Z; body : Body }.

(* ===================================================================== *)
(** * Validation *)
(* ===================================================================== *)

Section Validation.
Import JS.
Local Open Scope string_scope.
Local Open Scope float_scope.

(** [errors.push(msg)]. *)
Definition push (errors : list string) (msg : string) : list string :=
  errors ++ [msg].

(** [!v || typeof v !== "string" || v.trim() === ""]; [||] evaluates its
    right operand only when the left one is false, so [trim] is called on
    strings only. *)
Definition blank (v : JSValue) : bool :=
  if negb (ToBoolean v) then true
  else if negb (String.eqb (typeof v) "string") then true
  else match v with
       | JStr s => String.eqb (trim s) ""
       | _ => false
       end.

(** [v === undefined || isNaN(parseFloat(v))]. *)
Definition not_a_number (v : JSValue) : bool :=
  match v with
  | JUndefined => true
  | _ => isNaN (parseFloat v)
  end.

(** [function validateSchoolData(data)], app.js 102-136. *)
Definition validateSchoolData (data : Data.t) : list string :=
  let errors := [] in
  let errors :=
    if blank (Data.name data)
    then push errors "Name is required and must be a non-empty string"
    else errors in
  let errors :=
    if blank (Data.address data)
    then push errors "Address is required and must be a non-empty string"
    else errors in
  let errors :=
    if not_a_number (Data.latitude data)
    then push errors "Latitude is required and must be a valid number"
    else
      let lat := parseFloat (Data.latitude data) in
      if (lat <? -90) || (90 <? lat)
      then push errors "Latitude must be between -90 and 90 degrees"
      else errors in
  let errors :=
    if not_a_number (Data.longitude data)
    then push errors "Longitude is required and must be a valid number"
    else
      let lon := parseFloat (Data.longitude data) in
      if (lon <? -180) || (180 <? lon)
      then push errors "Longitude must be between -180 and 180 degrees"
      else errors in
  errors.
End Validation.

(* ===================================================================== *)
(** * [Array.prototype.sort] *)
(* ===================================================================== *)

(** ECMA-262 23.1.3.30 leaves the sequence of comparisons to the
    implementation and requires the result to be sorted and stable whenever
    [comparefn] is a consistent comparator on the elements; the stable
    insertion below gives that one result.  [SortCompare] turns a [NaN]
    from [comparefn] into [+0].  When the comparator is not consistent,
    as [a.distance - b.distance] is once a distance among numbers is
    [NaN], the language fixes only that the result is a permutation of
    the elements: the order is the implementation's, and nothing below
    relies on the order [sort] gives then. *)
Section Sort.
Context {A : Type} (comparefn : A -> A -> float).
Local Open Scope float_scope.

Definition SortCompare (x y : A) : float :=
  let v := comparefn x y in
  if PrimFloat.is_nan v then 0 else v.

(** [x] is to come after [y]. *)
Definition after (x y : A) : bool := 0 <? SortCompare x y.

Fixpoint insert (x : A) (l : list A) : list A :=
  match l with
  | [] => [x]
  | y :: l' => if after x y then y :: insert x l' else x :: l
  end.

Definition sort (l : list A) : list A := fold_right insert [] l.
End Sort.

(* ===================================================================== *)
(** * The request handlers *)
(* ===================================================================== *)

(** What [await pool.query(...)] gives back: the result, or an exception. *)
Inductive QueryResult (A : Type) :=
| Returns (a : A)
| Throws.
Arguments Returns {A} a.
Arguments Throws {A}.

(** A handler run: it sends a response, or issues one of the two queries of
    the program and goes on with the outcome. *)
Inductive Handler :=
| Send (r : Response)
| Insert (name address latitude longitude : JSValue)
         (k : QueryResult Z -> Handler)
| SelectAll (k : QueryResult (list School.t) -> Handler).

(** Binary64, with the three functions the language leaves to the
    implementation. *)
Section Binary64.
Variables (sin cos : float -> float) (atan2 : float -> float -> float).

#[export] Instance float_arith : Arith float := {|
  lit z := SF2Prim (binary_normalize prec emax z 0 false);
  Math_PI := 0x1.921fb54442d18p+1%float;
  add := PrimFloat.add;
  sub := PrimFloat.sub;
  mul := PrimFloat.mul;
  div := PrimFloat.div;
  Math_sqrt := PrimFloat.sqrt;
  Math_sin := sin;
  Math_cos := cos;
  Math_atan2 := atan2
|}.

Import JS.
Local Open Scope string_scope.
Local Open Scope float_scope.

(** [const schoolData = { ... }], app.js 143-148. *)
Definition schoolData (body : Data.t) : Data.t :=
  {| Data.name := Data.name body;
     Data.address := Data.address body;
     Data.latitude := JNum (parseFloat (Data.latitude body));
     Data.longitude := JNum (parseFloat (Data.longitude body)) |}.

(** [app.post("/addSchool", ...)], app.js 141-182. *)
Definition addSchool (body : Data.t) : Handler :=
  let schoolData := schoolData body in
  let validationErrors := validateSchoolData schoolData in
  if (0 <? List.length validationErrors)%nat then
    Send {| status := 400; body := ValidationFailure validationErrors |}
  else
    Insert (Data.name schoolData) (Data.address schoolData)
           (Data.latitude schoolData) (Data.longitude schoolData)
      (fun result =>
         match result with
         | Returns insertId =>
             Send {| status := 201;
                     body := Created "School added successfully" insertId |}
         | Throws =>
             Send {| status := 500;
                     body := Failure
                       "An error occurred while adding the school" |}
         end).

(** The callback of [schools.map]. *)
Definition withDistance (userLatitude userLongitude : float)
    (school : School.t) : RankedSchool :=
  let distance :=
    calculateDistance userLatitude userLongitude
      (School.latitude school) (School.longitude school) in
  {| school := school;
     distance := parseFloatString (Fixed.toFixed distance 2) |}.

(** [(a, b) => a.distance - b.distance]. *)
Definition byDistance (a b : RankedSchool) : float :=
  distance a - distance b.

(** The message of app.js 202-203. *)
Definition invalid_coordinates_message : string :=
  "Invalid coordinates provided. Latitude must be between -90 and 90, longitude between -180 and 180".

(** [app.get("/listSchools", ...)], app.js 185-240. *)
Definition listSchools (query : Query.t) : Handler :=
  let userLatitude := parseFloat (Query.latitude query) in
  let userLongitude := parseFloat (Query.longitude query) in
  if isNaN userLatitude || isNaN userLongitude
     || (userLatitude <? -90) || (90 <? userLatitude)
     || (userLongitude <? -180) || (180 <? userLongitude)
  then
    Send {| status := 400; body := Failure invalid_coordinates_message |}
  else
    SelectAll
      (fun result =>
         match result with
         | Returns schools =>
             let schoolsWithDistance :=
               map (withDistance userLatitude userLongitude) schools in
             let schoolsWithDistance :=
               sort byDistance schoolsWithDistance in
             Send {| status := 200;
                     body := Listing (List.length schoolsWithDistance)
                                     schoolsWithDistance |}
         | Throws =>
             Send {| status := 500;
                     body := Failure
                       "An error occurred while retrieving schools" |}
         end).
End Binary64.

(* ===================================================================== *)
(** * The record store *)
(* ===================================================================== *)

(** The [schools] table behind [pool]: its rows and the next
    [AUTO_INCREMENT] value.  The environment of a run says whether the
    query fails, what [CURRENT_TIMESTAMP] is, and how a [FLOAT] column
    gives back a Number it was handed. *)
Record Db := { rows : list School.t; auto_increment : Z }.

Record Env := { fault : bool; now : Z; FLOAT : float -> float }.

(** The text a column keeps of a value.  A name or address that passed
    validation is a string; the digits of a Number are not spelled
    out. *)
Definition column_text (v : JSValue) : string :=
  match JS.ToString v with
  | Spelled s => s
  | Canonical _ => EmptyString
  end.

Definition column_float (env : Env) (v : JSValue) : float :=
  match v with
  | JNum x => FLOAT env x
  | _ => FLOAT env (JS.parseFloat v)
  end.

(** Runs a handler against the table; a failed query changes nothing. *)
Fixpoint run (env : Env) (h : Handler) (db : Db) : Response * Db :=
  match h with
  | Send r => (r, db)
  | Insert n a la lo k =>
      if fault env then run env (k Throws) db
      else
        let row := {| School.id := auto_increment db;
                      School.name := column_text n;
                      School.address := column_text a;
                      School.latitude := column_float env la;
                      School.longitude := column_float env lo;
                      School.created_at := now env |} in
        run env (k (Returns (auto_increment db)))
            {| rows := rows db ++ [row];
               auto_increment := (auto_increment db + 1)%Z |}
  | SelectAll k =>
      if fault env then run env (k Throws) db
      else run env (k (Returns (rows db))) db
  end.

(* ===================================================================== *)
(** * Sample data *)
(* ===================================================================== *)

(** A small-angle stand-in for the three implementation-defined functions,
    used to run the handlers on concrete requests: [sin x] is [x],
    [cos x] is [1] and [atan2 y x] is [y / x], capped at 4. *)
Module Sample.
Local Open Scope float_scope.
Local Open Scope string_scope.

Definition sin (x : float) : float := x.
Definition cos (x : float) : float := 1.
Definition atan2 (y x : float) : float :=
  let q := y / x in
  if PrimFloat.is_nan q then q
  else if ((0 <=? q) && (q <=? 4))%float then q else 4%float.

Definition env : Env := {| fault := false; now := 0; FLOAT := fun x => x |}.

Definition empty : Db := {| rows := []; auto_increment := 1 |}.

(** The first two rows the program seeds the table with. *)
Definition seattle : School.t :=
  {| School.id := 1; School.name := "Washington High School";
     School.address := "1234 Washington St, Seattle, WA";
     School.latitude := 47.6062; School.longitude := -122.3321;
     School.created_at := 0 |}.

Definition portland : School.t :=
  {| School.id := 2; School.name := "Lincoln Elementary";
     School.address := "5678 Lincoln Ave, Portland, OR";
     School.latitude := 45.5152; School.longitude := -122.6784;
     School.created_at := 0 |}.

Definition seeded : Db :=
  {| rows := [seattle; portland]; auto_increment := 3 |}.

Definition body (lat : JSValue) : Data.t :=
  {| Data.name := JStr "Test School"; Data.address := JStr "1 Test St";
     Data.latitude := lat; Data.longitude := JNum 10 |}.

Definition query (lat lon : string) : Query.t :=
  {| Query.latitude := JStr lat; Query.longitude := JStr lon |}.
End Sample.

(* ===================================================================== *)
(** * The rules of the specification *)
(* ===================================================================== *)

(** Section 4.1 of the specification, rule by rule, and the point
    invariant of section 3. *)
Module Rules.
Import JS.
Local Open Scope string_scope.
Local Open Scope float_scope.

(** "Must be present, a string type, and non-empty after trimming
    whitespace." *)
Definition text_ok (v : JSValue) : bool :=
  match v with
  | JStr s => negb (String.eqb (trim s) "")
  | _ => false
  end.

Definition text_rule (msg : string) (v : JSValue) : list string :=
  if text_ok v then [] else [msg].

(** "Must be convertible to a real number": the number, when there is
    one. *)
Definition convert (v : JSValue) : option float :=
  let x := parseFloat v in
  if isNaN x then None else Some x.

(** "If convertible, must lie in [lo, hi] inclusive; if not convertible,
    report 'required and valid number' rather than a range error." *)
Definition coordinate_rule (lo hi : float) (msg_number msg_range : string)
    (v : JSValue) : list string :=
  match convert v with
  | None => [msg_number]
  | Some x => if (lo <=? x) && (x <=? hi) then [] else [msg_range]
  end.

(** [-90 <= latitude <= 90] and [-180 <= longitude <= 180], on
    numbers. *)
Definition validPoint (lat lon : float) : bool :=
  negb (isNaN lat) && negb (isNaN lon)
  && (-90 <=? lat) && (lat <=? 90) && (-180 <=? lon) && (lon <=? 180).

(** The list of reasons a response carries, when it carries one. *)
Definition reasons (h : Handler) : option (list string) :=
  match h with
  | Send {| body := ValidationFailure errors |} => Some errors
  | _ => None
  end.
End Rules.

(* ===================================================================== *)
(** * Auxiliary definitions of the proofs *)
(* ===================================================================== *)

Module Aux.
Import JS.
Local Open Scope string_scope.
Local Open Scope list_scope.
Local Open Scope float_scope.

(** The two coordinate blocks of the validator, on Numbers. *)
Definition coordinate_errors (lat lon : float) : list string :=
  (if isNaN lat
   then ["Latitude is required and must be a valid number"]
   else if (lat <? -90) || (90 <? lat)
        then ["Latitude must be between -90 and 90 degrees"] else [])
  ++ (if isNaN lon
      then ["Longitude is required and must be a valid number"]
      else if (lon <? -180) || (180 <? lon)
           then ["Longitude must be between -180 and 180 degrees"] else []).

(** [Math.sin(dLat / 2)] as a function of the two latitudes (or
    longitudes): the sine of half their difference in radians. *)
Definition half (sin : float -> float) (a b : float) : float :=
  sin ((b - a) * 0x1.921fb54442d18p+1 / 180 / 2).

(** Not a Number, on the specification floats. *)
Definition SFnan (x : spec_float) : bool :=
  match x with S754_nan => true | _ => false end.

(** Zero or finite, with an exponent of at most [B] when finite. *)
Definition SFsmall (B : Z) (x : spec_float) : Prop :=
  match x with
  | S754_zero _ => True
  | S754_finite _ _ e => (e <= B)%Z
  | _ => False
  end.

Definition small (B : Z) (x : float) : Prop := SFsmall B (Prim2SF x).

(** A zero or a finite number: neither [NaN] nor an infinity. *)
Definition finite (x : float) : bool :=
  match Prim2SF x with
  | S754_zero _ | S754_finite _ _ _ => true
  | _ => false
  end.

(** [+0] or a positive finite number. *)
Definition SFnonneg (x : spec_float) : Prop :=
  match x with
  | S754_zero false | S754_finite false _ _ => True
  | _ => False
  end.

(** An order embedding of the binary64 numbers into the integers: a finite
    number [m * 2^e] goes to [m * 2^(e + 1074)], which is an integer since
    [e >= -1074], and the infinities go beyond every finite number. *)
Definition SFord (x : spec_float) : Z :=
  match x with
  | S754_zero _ => 0
  | S754_infinity s => cond_Zopp s (2 ^ 2100)
  | S754_nan => 0
  | S754_finite s m e => cond_Zopp s (Z.pos m * 2 ^ (e + 1074))
  end.

Definition ord (x : float) : Z := SFord (Prim2SF x).

(** A number of the sign [s]: a zero, a finite number or an infinity. *)
Definition SFsigned (s : bool) (x : spec_float) : Prop :=
  match x with
  | S754_zero s' | S754_infinity s' | S754_finite s' _ _ => s' = s
  | S754_nan => False
  end.

(** The integer [toFixed(2)] prints for [x]: the one nearest to
    [100 * |x|], the larger of two. *)
Definition hundredths (x : float) : Z :=
  match Prim2SF x with
  | S754_finite _ m e => Fixed.scaled (Z.pos m) e 2
  | _ => 0%Z
  end.

(** How far [j / 100] is from [m * 2^e], in units of [2^e / 100] when [e]
    is negative and of [1 / 100] otherwise. *)
Definition gap (m e j : Z) : Z :=
  if (0 <=? e)%Z then Z.abs (j - m * 2 ^ e * 100)
  else Z.abs (j * 2 ^ (- e) - m * 100).
End Aux.

(** Shapes of strings the theorems about [parseFloat] speak of. *)
Module Shape.
Import JS.

(** Decimal digits only. *)
Fixpoint all_digits (s : string) : bool :=
  match s with
  | EmptyString => true
  | String c r =>
      match digit c with Some _ => all_digits r | None => false end
  end.

(** What cannot continue a run of digits into a longer literal: the
    string is empty, or starts with something other than a digit, a
    point or an exponent indicator. *)
Definition junk (s : string) : bool :=
  match s with
  | EmptyString => true
  | String c _ =>
      match digit c with
      | Some _ => false
      | None => negb (Ascii.eqb c "." || Ascii.eqb c "e" || Ascii.eqb c "E")
      end
  end.

(** The value of a run of digits. *)
Definition value (s : string) : Z := fst (fst (read_digits s 0 0)).
End Shape.


(* ===================================================================== *)
(** * Start-up *)
(* ===================================================================== *)

(** [process.env.PORT || 3000], app.js 10: the variable when it is set
    to something truthy, 3000 otherwise. *)
Definition PORT (env_PORT : JSValue) : JSValue :=
  if JS.ToBoolean env_PORT then env_PORT else JNum 3000.

(** The values of one row of an [INSERT ... VALUES] statement: name,
    address, latitude, longitude. *)
Record Values := { v_name : string; v_address : string;
                   v_latitude : float; v_longitude : float }.

(** What the start-up code does, step by step: the operations on the pool
    and on a connection, each of which may throw, the console, and the two
    ways the start-up ends, [process.exit] and [app.listen]. *)
Inductive Startup :=
| GetConnection (k : QueryResult unit -> Startup)
| CreateTable (k : QueryResult unit -> Startup)
| CountRows (k : QueryResult Z -> Startup)
| InsertRows (values : list Values) (k : QueryResult unit -> Startup)
| Release (k : Startup)
| ConsoleLog (line : list JSString) (k : Startup)
| ConsoleError (line : string) (k : Startup)
| Exit (code : Z)
| Listen (port : JSValue) (k : Startup)
| Idle.

Section StartUp.
Local Open Scope string_scope.
Local Open Scope float_scope.

(** [async function testDBConnection()], app.js 31-40, followed by
    [k]. *)
Definition testDBConnection (k : Startup) : Startup :=
  GetConnection
    (fun connection =>
       match connection with
       | Returns _ =>
           ConsoleLog [Spelled "Database connection successful"]
             (Release k)
       | Throws =>
           ConsoleError "Database connection failed:" (Exit 1)
       end).

(** The rows of app.js 67-71. *)
Definition samples : list Values :=
  [ {| v_name := "Washington High School";
       v_address := "1234 Washington St, Seattle, WA";
       v_latitude := 47.6062; v_longitude := -122.3321 |};
    {| v_name := "Lincoln Elementary";
       v_address := "5678 Lincoln Ave, Portland, OR";
       v_latitude := 45.5152; v_longitude := -122.6784 |};
    {| v_name := "Jefferson Middle School";
       v_address := "9012 Jefferson Blvd, San Francisco, CA";
       v_latitude := 37.7749; v_longitude := -122.4194 |};
    {| v_name := "Roosevelt Academy";
       v_address := "3456 Roosevelt Way, Los Angeles, CA";
       v_latitude := 34.0522; v_longitude := -118.2437 |};
    {| v_name := "Kennedy High";
       v_address := "7890 Kennedy Rd, San Diego, CA";
       v_latitude := 32.7157; v_longitude := -117.1611 |} ].

(** [async function initializeDatabase()], app.js 43-81, followed by
    [k].  Whatever throws inside the [try] block is caught by the one
    [catch]. *)
Definition initializeDatabase (k : Startup) : Startup :=
  let failed :=
    ConsoleError "Database initialization failed:" (Exit 1) in
  let initialized :=
    ConsoleLog [Spelled "Database initialized successfully"]
      (Release k) in
  GetConnection
    (fun connection =>
       match connection with
       | Throws => failed
       | Returns _ =>
           CreateTable
             (fun created =>
                match created with
                | Throws => failed
                | Returns _ =>
                    CountRows
                      (fun rows =>
                         match rows with
                         | Throws => failed
                         | Returns count =>
                             if (count =? 0)%Z then
                               InsertRows samples
                                 (fun inserted =>
                                    match inserted with
                                    | Throws => failed
                                    | Returns _ => initialized
                                    end)
                             else initialized
                         end)
                end)
       end).

(** [async function startServer()], app.js 273-280. *)
Definition startServer (env_PORT : JSValue) : Startup :=
  testDBConnection
    (initializeDatabase
       (Listen (PORT env_PORT)
          (ConsoleLog [Spelled "Server running on port ";
                       JS.ToString (PORT env_PORT)] Idle))).
End StartUp.

(** Where the start-up runs: whether the [i]-th operation on the
    database fails, the time, how a [FLOAT] column gives back a Number,
    and the [PORT] variable of the environment. *)
Record Host := { refuses : nat -> bool; clock : Z;
                 column : float -> float; env_PORT : JSValue }.

(** The state the start-up works on: the [schools] table if it exists,
    the number of database operations issued so far, the connections
    taken from the pool and not yet released, the two console streams,
    and the port the server listens on once [app.listen] was called. *)
Record World := { table : option Db; issued : nat; held : nat;
                  stdout : list (list JSString); stderr : list string;
                  listening : option JSValue }.

(** How the process goes on: it exited with a code, or it is up. *)
Inductive Outcome :=
| Exited (code : Z)
| Running.

(** An operation on the database was issued. *)
Definition tick (w : World) : World :=
  {| table := table w; issued := S (issued w); held := held w;
     stdout := stdout w; stderr := stderr w; listening := listening w |}.

Definition with_table (t : option Db) (w : World) : World :=
  {| table := t; issued := issued w; held := held w;
     stdout := stdout w; stderr := stderr w; listening := listening w |}.

Definition with_held (n : nat) (w : World) : World :=
  {| table := table w; issued := issued w; held := n;
     stdout := stdout w; stderr := stderr w; listening := listening w |}.

(** [INSERT INTO schools (name, address, latitude, longitude) VALUES
    ...] with literal values: one row each, numbered from
    [AUTO_INCREMENT] on. *)
Fixpoint insert_rows (host : Host) (values : list Values) (db : Db) : Db :=
  match values with
  | [] => db
  | v :: values' =>
      insert_rows host values'
        {| rows := rows db ++
                   [{| School.id := auto_increment db;
                       School.name := v_name v;
                       School.address := v_address v;
                       School.latitude := column host (v_latitude v);
                       School.longitude := column host (v_longitude v);
                       School.created_at := clock host |}];
           auto_increment := (auto_increment db + 1)%Z |}
  end.

(** [CREATE TABLE IF NOT EXISTS schools (...)]. *)
Definition create_table (t : option Db) : option Db :=
  match t with
  | Some db => Some db
  | None => Some {| rows := []; auto_increment := 1 |}
  end.

(** Runs the start-up.  An operation the host refuses throws and changes
    nothing; a statement on a table that does not exist throws. *)
Fixpoint boot (host : Host) (p : Startup) (w : World) : Outcome * World :=
  match p with
  | GetConnection k =>
      if refuses host (issued w) then boot host (k Throws) (tick w)
      else boot host (k (Returns tt)) (with_held (S (held w)) (tick w))
  | CreateTable k =>
      if refuses host (issued w) then boot host (k Throws) (tick w)
      else boot host (k (Returns tt))
             (with_table (create_table (table w)) (tick w))
  | CountRows k =>
      if refuses host (issued w) then boot host (k Throws) (tick w)
      else match table w with
           | None => boot host (k Throws) (tick w)
           | Some db =>
               boot host (k (Returns (Z.of_nat (List.length (rows db)))))
                    (tick w)
           end
  | InsertRows values k =>
      if refuses host (issued w) then boot host (k Throws) (tick w)
      else match table w with
           | None => boot host (k Throws) (tick w)
           | Some db =>
               boot host (k (Returns tt))
                    (with_table (Some (insert_rows host values db)) (tick w))
           end
  | Release k => boot host k (with_held (pred (held w)) w)
  | ConsoleLog line k =>
      boot host k
        {| table := table w; issued := issued w; held := held w;
           stdout := stdout w ++ [line]; stderr := stderr w;
           listening := listening w |}
  | ConsoleError line k =>
      boot host k
        {| table := table w; issued := issued w; held := held w;
           stdout := stdout w; stderr := stderr w ++ [line];
           listening := listening w |}
  | Exit code => (Exited code, w)
  | Listen port k =>
      boot host k
        {| table := table w; issued := issued w; held := held w;
           stdout := stdout w; stderr := stderr w;
           listening := Some port |}
  | Idle => (Running, w)
  end.

(** The process as it starts: nothing issued, held, printed or
    listening. *)
Definition fresh (t : option Db) : World :=
  {| table := t; issued := 0; held := 0; stdout := []; stderr := [];
     listening := None |}.

(* ===================================================================== *)
(** * Auxiliary definitions of the further proofs *)
(* ===================================================================== *)

Module Store.
(** The row [run] appends for the body of an accepted registration. *)
Definition row_of (env : Env) (db : Db) (body : Data.t) : School.t :=
  {| School.id := auto_increment db;
     School.name := column_text (Data.name body);
     School.address := column_text (Data.address body);
     School.latitude := FLOAT env (JS.parseFloat (Data.latitude body));
     School.longitude := FLOAT env (JS.parseFloat (Data.longitude body));
     School.created_at := now env |}.

(** The table [initializeDatabase] leaves on a store that answers: the
    table it found, created if it was missing and given the sample rows
    if it was empty. *)
Definition initialized (host : Host) (t : option Db) : Db :=
  let db := match t with
            | Some db => db
            | None => {| rows := []; auto_increment := 1 |}
            end in
  match rows db with
  | [] => insert_rows host samples db
  | _ :: _ => db
  end.

(** The invariant of a stored school: a name and an address that are not
    blank, and a valid point. *)
Definition valid_school (s : School.t) : bool :=
  Rules.text_ok (JStr (School.name s))
  && Rules.text_ok (JStr (School.address s))
  && Rules.validPoint (School.latitude s) (School.longitude s).
End Store.

(** Shapes of the strings the further theorems speak of. *)
Module Text.
Import JS.

(** TAB, LF, VT, FF, CR and SP only. *)
Fixpoint spaces (s : string) : bool :=
  match s with
  | EmptyString => true
  | String c r => ws1 c && spaces r
  end.

(** An ASCII character that is not white space. *)
Definition visible (c : ascii) : bool :=
  (byte c <? 128)%N && negb (ws1 c).

Fixpoint has_visible (s : string) : bool :=
  match s with
  | EmptyString => false
  | String c r => visible c || has_visible r
  end.

(** The string starts with a decimal digit. *)
Definition starts_with_digit (s : string) : bool :=
  match s with
  | String c _ => match digit c with Some _ => true | None => false end
  | EmptyString => false
  end.

(** No decimal literal can start here: the string is empty, or starts
    with a visible ASCII character that is not a digit, a sign, a point
    or the [I] of [Infinity]. *)
Definition wordy (s : string) : bool :=
  match s with
  | EmptyString => true
  | String c _ =>
      visible c
      && match digit c with Some _ => false | None => true end
      && negb (Ascii.eqb c "." || Ascii.eqb c "I"
               || Ascii.eqb c "+" || Ascii.eqb c "-")
  end.
End Text.

(** What a shift record says of the quotient [A / B] it stands for: the
    mantissa is the integer part, the round bit says that the fraction is
    a half or more, and the sticky bit that it is neither zero nor a
    half. *)
Module Shifted.
Local Open Scope Z_scope.

Definition tracks (A B : Z) (mrs : shr_record) : Prop :=
  shr_m mrs = A / B
  /\ shr_r mrs = (B <=? 2 * (A mod B))
  /\ shr_s mrs = negb ((2 * (A mod B)) mod B =? 0).

(** The listed distance: [parseFloat(d.toFixed(2))]. *)
Definition rounded (d : float) : float :=
  JS.parseFloatString (Fixed.toFixed d 2).
End Shifted.

(* ===================================================================== *)
(** * The library functions at three calls of the distance *)
(* ===================================================================== *)

(** [Math.sin], [Math.cos] and [Math.atan2] at the arguments of three
    calls of [calculateDistance]: from (8, 38) to (-8, -142), from (8, 38)
    to itself, and from (-89, 108) to (45.5152, -122.6784).  At each
    argument listed the value is the binary64 number nearest to the sine,
    the cosine or the arc tangent, which is what the library of the
    runtime returns there.  The three calls ask for nothing else but
    [sin 0], [atan2 0 1] and [atan2] of a [NaN], where the stand-ins of
    [Sample] give what the runtime gives: [0], [0] and [NaN]. *)
Module Libm.
Local Open Scope string_scope.
Local Open Scope float_scope.

Definition sin (x : float) : float :=
  if x =? -0.13962634015954636 then -0.13917310096006544
  else if x =? -1.5707963267948966 then -1
  else if x =? 1.173866566989338 then 0.9222522588418349
  else if x =? -2.0130487966162436 then -0.9037899530582363
  else Sample.sin x.

Definition cos (x : float) : float :=
  if x =? 0.13962634015954636 then 0.9902680687415704
  else if x =? -0.13962634015954636 then 0.9902680687415704
  else if x =? -1.5533430342749535 then 0.017452406437283376
  else if x =? 0.7943900997037231 then 0.7007200213928092
  else Sample.cos x.

Definition atan2 (y x : float) : float :=
  if (y =? 0.9276521570647316) && (x =? 0.3734454116643428)
  then 1.1880759498589915
  else if (y =? 0.9276521570647316) && (x =? 0.373445411664343)
  then 1.1880759498589912
  else Sample.atan2 y x.

(** A table with a school at (-8, -142), the point opposite (8, 38) on
    the globe, and a school at (8, 38). *)
Definition opposite : School.t :=
  {| School.id := 1; School.name := "Opposite School";
     School.address := "1 Far St";
     School.latitude := -8; School.longitude := -142;
     School.created_at := 0 |}.

Definition here : School.t :=
  {| School.id := 2; School.name := "Here School";
     School.address := "2 Near St";
     School.latitude := 8; School.longitude := 38;
     School.created_at := 0 |}.

Definition table : Db :=
  {| rows := [opposite; here]; auto_increment := 3 |}.
(** The two registrations that fill it. *)
Definition register_opposite : Data.t :=
  {| Data.name := JStr "Opposite School"; Data.address := JStr "1 Far St";
     Data.latitude := JNum (-8); Data.longitude := JNum (-142) |}.

Definition register_here : Data.t :=
  {| Data.name := JStr "Here School"; Data.address := JStr "2 Near St";
     Data.latitude := JNum 8; Data.longitude := JNum 38 |}.
End Libm.

(* ===================================================================== *)
(** * Decimal literals, part by part *)
(* ===================================================================== *)

Module Literal.
Import JS Shape.
Local Open Scope string_scope.

(** A StrDecimalLiteral other than [Infinity]: the white space before
    it, its sign, the digits before the point, the digits after the point
    when there is a point, and the exponent part when there is one
    (whether it is written with a capital [E], its sign and its
    digits). *)
Record t := { blanks : string; sign : string; whole : string;
              fraction : option string;
              exponent : option (bool * string * string) }.


Definition nonempty (s : string) : bool := negb (String.eqb s "").










(** The string does not start with a digit, with a point, with an
    exponent part. *)
Definition no_digit (s : string) : bool :=
  match s with
  | String c _ => match digit c with Some _ => false | None => true end
  | EmptyString => true
  end.




End Literal.
(* ===================================================================== *)
(** * Facts about binary64 *)
(* ===================================================================== *)

Module F64.
Import JS.
Local Open Scope float_scope.

Lemma SFcompare_refl x : Aux.SFnan x = false -> SFcompare x x = Some Eq.
Proof.
  destruct x as [s|s| |s m e]; simpl; try discriminate; intros _;
    try (destruct s; reflexivity).
  rewrite Z.compare_refl, Pos.compare_cont_refl. destruct s; reflexivity.
Qed.

Lemma is_nan_spec x : PrimFloat.is_nan x = Aux.SFnan (Prim2SF x).
Proof.
  unfold PrimFloat.is_nan. rewrite eqb_spec. unfold SFeqb.
  destruct (Aux.SFnan (Prim2SF x)) eqn:E.
  - destruct (Prim2SF x); try discriminate. reflexivity.
  - rewrite SFcompare_refl by exact E. reflexivity.
Qed.

Lemma SFcompare_antisym x y :
  SFcompare y x = option_map CompOpp (SFcompare x y).
Proof.
  destruct x as [s|s| |s m e], y as [s'|s'| |s' m' e']; simpl;
    try reflexivity; try (destruct s; reflexivity);
    try (destruct s'; reflexivity);
    try (destruct s, s'; reflexivity).
  destruct s, s'; simpl; try reflexivity;
    rewrite (Z.compare_antisym e e');
    destruct (e ?= e')%Z eqn:E; simpl; try reflexivity;
    rewrite (Pos.compare_cont_antisym m m' Eq); simpl;
    try rewrite CompOpp_involutive; reflexivity.
Qed.

Lemma SFcompare_none x y :
  SFcompare x y = None -> Aux.SFnan x = true \/ Aux.SFnan y = true.
Proof.
  destruct x as [s|s| |s m e], y as [s'|s'| |s' m' e']; simpl;
    auto; discriminate.
Qed.

(** On numbers, [x < y] is the negation of [y <= x]. *)
Lemma ltb_leb x y :
  PrimFloat.is_nan x = false -> PrimFloat.is_nan y = false ->
  (x <? y) = negb (y <=? x).
Proof.
  rewrite !is_nan_spec, ltb_spec, leb_spec. unfold SFltb, SFleb.
  intros Hx Hy. rewrite (SFcompare_antisym (Prim2SF x) (Prim2SF y)).
  destruct (SFcompare (Prim2SF x) (Prim2SF y)) as [[]|] eqn:E;
    try reflexivity.
  apply SFcompare_none in E. destruct E; congruence.
Qed.

Lemma is_zero_spec x :
  PrimFloat.is_zero x = true -> exists s, Prim2SF x = S754_zero s.
Proof.
  unfold PrimFloat.is_zero. rewrite eqb_spec. unfold SFeqb.
  change (Prim2SF PrimFloat.zero) with (S754_zero false).
  destruct (Prim2SF x) as [s|s| |s m e]; simpl; eauto;
    try discriminate; destruct s; discriminate.
Qed.

Lemma reread_ltb_l x y : (reread x <? y) = (x <? y).
Proof.
  unfold reread. destruct (PrimFloat.is_zero x) eqn:E; [|reflexivity].
  destruct (is_zero_spec _ E) as [s Hs].
  rewrite !ltb_spec, Hs. reflexivity.
Qed.

Lemma reread_ltb_r x y : (y <? reread x) = (y <? x).
Proof.
  unfold reread. destruct (PrimFloat.is_zero x) eqn:E; [|reflexivity].
  destruct (is_zero_spec _ E) as [s Hs].
  rewrite !ltb_spec, Hs. unfold SFltb.
  destruct (Prim2SF y) as [s'|s'| |s' m' e']; reflexivity.
Qed.

Lemma reread_is_nan x : PrimFloat.is_nan (reread x) = PrimFloat.is_nan x.
Proof.
  unfold reread. destruct (PrimFloat.is_zero x) eqn:E; [|reflexivity].
  destruct (is_zero_spec _ E) as [s Hs].
  rewrite !is_nan_spec, Hs. reflexivity.
Qed.
End F64.

(* ===================================================================== *)
(** * The validator *)
(* ===================================================================== *)

Module ValidatorFacts.
Import JS Rules.
Local Open Scope string_scope.
Local Open Scope list_scope.
Local Open Scope float_scope.

Lemma blank_text_ok v : blank v = negb (text_ok v).
Proof.
  destruct v as [| |b|x|s|p]; try reflexivity.
  - simpl. destruct b; reflexivity.
  - unfold blank. simpl ToBoolean.
    destruct (PrimFloat.is_zero x || PrimFloat.is_nan x); reflexivity.
  - unfold blank, text_ok. simpl ToBoolean. simpl typeof.
    destruct s as [|c s]; [reflexivity|].
    simpl negb at 1. cbv iota.
    destruct (String.eqb (trim (String c s)) ""); reflexivity.
Qed.

Lemma not_a_number_convert v :
  not_a_number v = match convert v with None => true | Some _ => false end.
Proof.
  unfold not_a_number, convert.
  destruct v; try (destruct (isNaN _); reflexivity).
  vm_compute. reflexivity.
Qed.

(** One coordinate block of [validateSchoolData] is the coordinate rule
    of the specification. *)
Lemma coordinate_block lo hi m1 m2 v :
  PrimFloat.is_nan lo = false -> PrimFloat.is_nan hi = false ->
  (if not_a_number v then [m1]
   else if (parseFloat v <? lo) || (hi <? parseFloat v) then [m2] else [])
  = coordinate_rule lo hi m1 m2 v.
Proof.
  intros Hlo Hhi. rewrite not_a_number_convert. unfold coordinate_rule, convert.
  destruct (isNaN (parseFloat v)) eqn:E; [reflexivity|].
  unfold isNaN in E.
  rewrite (F64.ltb_leb (parseFloat v) lo E Hlo),
    (F64.ltb_leb hi (parseFloat v) Hhi E).
  destruct (lo <=? parseFloat v), (parseFloat v <=? hi); reflexivity.
Qed.

(** The pushes of [validateSchoolData], block by block. *)
Lemma validate_blocks data :
  validateSchoolData data =
    (if blank (Data.name data)
     then ["Name is required and must be a non-empty string"] else [])
    ++ (if blank (Data.address data)
        then ["Address is required and must be a non-empty string"] else [])
    ++ (if not_a_number (Data.latitude data)
        then ["Latitude is required and must be a valid number"]
        else if (parseFloat (Data.latitude data) <? -90)
                || (90 <? parseFloat (Data.latitude data))
             then ["Latitude must be between -90 and 90 degrees"] else [])
    ++ (if not_a_number (Data.longitude data)
        then ["Longitude is required and must be a valid number"]
        else if (parseFloat (Data.longitude data) <? -180)
                || (180 <? parseFloat (Data.longitude data))
             then ["Longitude must be between -180 and 180 degrees"] else []).
Proof.
  unfold validateSchoolData, push.
  destruct (blank (Data.name data)), (blank (Data.address data)),
    (not_a_number (Data.latitude data)),
    (not_a_number (Data.longitude data));
    try destruct ((parseFloat (Data.latitude data) <? -90)
                  || (90 <? parseFloat (Data.latitude data)));
    try destruct ((parseFloat (Data.longitude data) <? -180)
                  || (180 <? parseFloat (Data.longitude data)));
    reflexivity.
Qed.

Lemma validate_rules data :
  validateSchoolData data =
    text_rule "Name is required and must be a non-empty string"
      (Data.name data)
    ++ text_rule "Address is required and must be a non-empty string"
         (Data.address data)
    ++ coordinate_rule (-90) 90
         "Latitude is required and must be a valid number"
         "Latitude must be between -90 and 90 degrees" (Data.latitude data)
    ++ coordinate_rule (-180) 180
         "Longitude is required and must be a valid number"
         "Longitude must be between -180 and 180 degrees"
         (Data.longitude data).
Proof.
  rewrite validate_blocks.
  rewrite !coordinate_block by reflexivity.
  unfold text_rule. rewrite !blank_text_ok.
  destruct (text_ok (Data.name data)), (text_ok (Data.address data));
    reflexivity.
Qed.
End ValidatorFacts.

Section ValidatorTheorem.
Import JS Rules.
Local Open Scope string_scope.
Local Open Scope list_scope.
Local Open Scope float_scope.

Lemma in_text_rule msg v m : In m (text_rule msg v) -> m = msg.
Proof.
  unfold text_rule. destruct (text_ok v); simpl; intuition congruence.
Qed.

Lemma in_coordinate_rule lo hi m1 m2 v m :
  In m (coordinate_rule lo hi m1 m2 v) -> m = m1 \/ m = m2.
Proof.
  unfold coordinate_rule.
  destruct (convert v) as [x|]; [destruct ((lo <=? x) && (x <=? hi))|];
    simpl; intuition congruence.
Qed.

(** How a coordinate rule answers. *)
Lemma coordinate_rule_passes lo hi m1 m2 v :
  m1 <> m2 ->
  ((~ In m1 (coordinate_rule lo hi m1 m2 v)
    /\ ~ In m2 (coordinate_rule lo hi m1 m2 v))
   <-> exists x, convert v = Some x /\ (lo <=? x) = true /\ (x <=? hi) = true)
  /\ (convert v = None ->
      In m1 (coordinate_rule lo hi m1 m2 v)
      /\ ~ In m2 (coordinate_rule lo hi m1 m2 v)).
Proof.
  intros Hne. unfold coordinate_rule.
  destruct (convert v) as [x|].
  - split; [|discriminate].
    destruct (lo <=? x) eqn:E1, (x <=? hi) eqn:E2; simpl; split;
      try (intros [x' [Hx [H1 H2]]]; injection Hx as <-; congruence);
      try tauto.
    intros _. exists x. auto.
  - split.
    + simpl. split; [tauto|]. intros [x [Hx _]]. discriminate.
    + intros _. simpl. split; [auto|]. intros [H|[]]. congruence.
Qed.

(** Membership in the concatenation of four lists whose messages are
    pairwise distinct is membership in the list the message belongs
    to. *)
Lemma in_own_block (N A La Lo : list string) (n a l1 l2 o1 o2 : string) :
  (forall m, In m N -> m = n) -> (forall m, In m A -> m = a) ->
  (forall m, In m La -> m = l1 \/ m = l2) ->
  (forall m, In m Lo -> m = o1 \/ m = o2) ->
  n <> l1 -> n <> l2 -> n <> o1 -> n <> o2 ->
  a <> l1 -> a <> l2 -> a <> o1 -> a <> o2 ->
  l1 <> o1 -> l1 <> o2 -> l2 <> o1 -> l2 <> o2 ->
  (forall m, m = l1 \/ m = l2 -> (In m (N ++ A ++ La ++ Lo) <-> In m La))
  /\ (forall m, m = o1 \/ m = o2 -> (In m (N ++ A ++ La ++ Lo) <-> In m Lo)).
Proof.
  intros HN HA HLa HLo. intros.
  split; intros m Hm; rewrite !in_app_iff; (split; [|tauto]);
    intros [Hi|[Hi|[Hi|Hi]]]; auto.
  - apply HN in Hi. destruct Hm; congruence.
  - apply HA in Hi. destruct Hm; congruence.
  - apply HLo in Hi. destruct Hm, Hi; congruence.
  - apply HN in Hi. destruct Hm; congruence.
  - apply HA in Hi. destruct Hm; congruence.
  - apply HLa in Hi. destruct Hm, Hi; congruence.
Qed.

(** C5.  [validateSchoolData] evaluates the four rules independently and
    returns every violation, in the order name, address, latitude,
    longitude.  A latitude passes exactly when it converts to a number
    that lies in [-90, 90], bounds included, and one that does not
    convert is reported by the "required and valid number" message and
    not by the range message; likewise a longitude with [-180, 180]. *)
Theorem validator_collects_all_violations (data : Data.t) :
  let errors := validateSchoolData data in
  let lat_number := "Latitude is required and must be a valid number" in
  let lat_range := "Latitude must be between -90 and 90 degrees" in
  let lon_number := "Longitude is required and must be a valid number" in
  let lon_range := "Longitude must be between -180 and 180 degrees" in
  errors =
    text_rule "Name is required and must be a non-empty string"
      (Data.name data)
    ++ text_rule "Address is required and must be a non-empty string"
         (Data.address data)
    ++ coordinate_rule (-90) 90 lat_number lat_range (Data.latitude data)
    ++ coordinate_rule (-180) 180 lon_number lon_range (Data.longitude data)
  /\ ((~ In lat_number errors /\ ~ In lat_range errors) <->
      exists x, convert (Data.latitude data) = Some x
                /\ (-90 <=? x) = true /\ (x <=? 90) = true)
  /\ (convert (Data.latitude data) = None ->
      In lat_number errors /\ ~ In lat_range errors)
  /\ ((~ In lon_number errors /\ ~ In lon_range errors) <->
      exists y, convert (Data.longitude data) = Some y
                /\ (-180 <=? y) = true /\ (y <=? 180) = true)
  /\ (convert (Data.longitude data) = None ->
      In lon_number errors /\ ~ In lon_range errors).
Proof.
  intros errors l1 l2 o1 o2.
  pose proof (ValidatorFacts.validate_rules data) as E.
  fold errors l1 l2 o1 o2 in E.
  split; [exact E|].
  destruct (in_own_block _ _ _ _ _ _ _ _ _ _
              (in_text_rule "Name is required and must be a non-empty string"
                 (Data.name data))
              (in_text_rule
                 "Address is required and must be a non-empty string"
                 (Data.address data))
              (in_coordinate_rule (-90) 90 l1 l2 (Data.latitude data))
              (in_coordinate_rule (-180) 180 o1 o2 (Data.longitude data)))
    as [Ha Ho]; try discriminate.
  destruct (coordinate_rule_passes (-90) 90 l1 l2 (Data.latitude data))
    as [Pa1 Pa2]; [discriminate|].
  destruct (coordinate_rule_passes (-180) 180 o1 o2 (Data.longitude data))
    as [Po1 Po2]; [discriminate|].
  rewrite E.
  rewrite !(Ha _ (or_introl eq_refl)), !(Ha _ (or_intror eq_refl)),
    !(Ho _ (or_introl eq_refl)), !(Ho _ (or_intror eq_refl)).
  auto.
Qed.
End ValidatorTheorem.

(* ===================================================================== *)
(** * The handlers *)
(* ===================================================================== *)

Module HandlerFacts.
Import JS Rules Aux.
Local Open Scope string_scope.
Local Open Scope list_scope.
Local Open Scope float_scope.

Lemma not_a_number_JNum x : not_a_number (JNum x) = isNaN x.
Proof.
  unfold not_a_number, isNaN, parseFloat. cbn [ToString parseFloatString].
  apply F64.reread_is_nan.
Qed.

(** The out-of-range test on a re-read Number is the test on the
    Number. *)
Lemma out_of_range_JNum lo hi x :
  (parseFloat (JNum x) <? lo) || (hi <? parseFloat (JNum x))
  = (x <? lo) || (hi <? x).
Proof.
  unfold parseFloat. cbn [ToString parseFloatString].
  now rewrite F64.reread_ltb_l, F64.reread_ltb_r.
Qed.

Lemma validate_schoolData body :
  validateSchoolData (schoolData body) =
    (if blank (Data.name body)
     then ["Name is required and must be a non-empty string"] else [])
    ++ (if blank (Data.address body)
        then ["Address is required and must be a non-empty string"] else [])
    ++ coordinate_errors (parseFloat (Data.latitude body))
                         (parseFloat (Data.longitude body)).
Proof.
  rewrite ValidatorFacts.validate_blocks. unfold schoolData, coordinate_errors.
  cbn [Data.name Data.address Data.latitude Data.longitude].
  now rewrite !not_a_number_JNum, !out_of_range_JNum.
Qed.

(** The test of the listing route, against the point invariant. *)
Lemma invalid_coordinates lat lon :
  isNaN lat || isNaN lon || (lat <? -90) || (90 <? lat)
    || (lon <? -180) || (180 <? lon)
  = negb (validPoint lat lon).
Proof.
  unfold validPoint, isNaN.
  destruct (PrimFloat.is_nan lat) eqn:Ea; [reflexivity|].
  destruct (PrimFloat.is_nan lon) eqn:Eo; [reflexivity|].
  rewrite (F64.ltb_leb lat (-90) Ea eq_refl), (F64.ltb_leb 90 lat eq_refl Ea),
    (F64.ltb_leb lon (-180) Eo eq_refl), (F64.ltb_leb 180 lon eq_refl Eo).
  destruct (-90 <=? lat), (lat <=? 90), (-180 <=? lon), (lon <=? 180);
    reflexivity.
Qed.

Lemma coordinate_errors_nil lat lon :
  coordinate_errors lat lon = [] <-> validPoint lat lon = true.
Proof.
  rewrite <- (negb_involutive (validPoint lat lon)), <- invalid_coordinates.
  unfold coordinate_errors.
  destruct (isNaN lat), (isNaN lon), ((lat <? -90) || (90 <? lat)) eqn:E1,
    ((lon <? -180) || (180 <? lon)) eqn:E2; simpl;
    rewrite ?E1; simpl; rewrite ?E2; simpl; split; congruence.
Qed.

Lemma addSchool_rejects body :
  validateSchoolData (schoolData body) <> [] ->
  addSchool body =
    Send {| status := 400;
            body := ValidationFailure (validateSchoolData (schoolData body)) |}.
Proof.
  unfold addSchool.
  destruct (validateSchoolData (schoolData body)); [congruence|].
  reflexivity.
Qed.

Lemma listSchools_rejects sin cos atan2 query :
  validPoint (parseFloat (Query.latitude query))
             (parseFloat (Query.longitude query)) = false ->
  listSchools sin cos atan2 query =
    Send {| status := 400;
            body := Failure invalid_coordinates_message |}.
Proof.
  intros H. unfold listSchools. rewrite invalid_coordinates, H. reflexivity.
Qed.

Lemma listSchools_accepts sin cos atan2 query :
  validPoint (parseFloat (Query.latitude query))
             (parseFloat (Query.longitude query)) = true ->
  exists k, listSchools sin cos atan2 query = SelectAll k
    /\ forall schools,
         k (Returns schools) =
           let ranked :=
             sort byDistance
               (map (withDistance sin cos atan2
                       (parseFloat (Query.latitude query))
                       (parseFloat (Query.longitude query))) schools) in
           Send {| status := 200;
                   body := Listing (List.length ranked) ranked |}.
Proof.
  intros H. unfold listSchools. rewrite invalid_coordinates, H.
  eexists. split; reflexivity.
Qed.
End HandlerFacts.

Section HandlerTheorems.
Import JS Rules Aux.
Local Open Scope string_scope.
Local Open Scope list_scope.
Local Open Scope float_scope.

(** C6.  A registration whose input fails validation is answered with
    status 400 and the list of violations, no query is issued, and the
    table is left as it was; when the latitude is a number outside
    [-90, 90] (91, say) the list has the latitude range message. *)
Theorem registration_rejects_invalid_input (body : Data.t) (env : Env)
    (db : Db) :
  validateSchoolData (schoolData body) <> [] ->
  let rejection :=
    {| status := 400;
       body := ValidationFailure (validateSchoolData (schoolData body)) |} in
  addSchool body = Send rejection
  /\ run env (addSchool body) db = (rejection, db)
  /\ List.length (rows (snd (run env (addSchool body) db)))
     = List.length (rows db)
  /\ (isNaN (parseFloat (Data.latitude body)) = false ->
      (parseFloat (Data.latitude body) <? -90)
        || (90 <? parseFloat (Data.latitude body)) = true ->
      In "Latitude must be between -90 and 90 degrees"
         (validateSchoolData (schoolData body))).
Proof.
  intros H rejection. pose proof (HandlerFacts.addSchool_rejects body H) as E.
  fold rejection in E. rewrite E. simpl.
  repeat split.
  intros Hn Hr. rewrite HandlerFacts.validate_schoolData.
  unfold coordinate_errors. rewrite Hn, Hr.
  rewrite !in_app_iff. right. right. left. left. reflexivity.
Qed.

Lemma registration_rejects_invalid_input_witness :
  validateSchoolData (schoolData (Sample.body (JNum 91))) <> []
  /\ run Sample.env (addSchool (Sample.body (JNum 91))) Sample.seeded
     = ({| status := 400;
           body := ValidationFailure
                     ["Latitude must be between -90 and 90 degrees"] |},
        Sample.seeded).
Proof.
  assert (H : validateSchoolData (schoolData (Sample.body (JNum 91))) <> [])
    by (vm_compute; discriminate).
  split; [exact H|].
  exact (proj1 (proj2 (registration_rejects_invalid_input
                         (Sample.body (JNum 91)) Sample.env Sample.seeded H))).
Defined.

(** C7.  For a valid query point, listing an empty table succeeds: the
    response has status 200, count 0 and no schools. *)
Theorem listing_empty_store (sin cos : float -> float)
    (atan2 : float -> float -> float) (query : Query.t) (env : Env)
    (db : Db) :
  validPoint (parseFloat (Query.latitude query))
             (parseFloat (Query.longitude query)) = true ->
  fault env = false ->
  rows db = [] ->
  run env (listSchools sin cos atan2 query) db
  = ({| status := 200; body := Listing 0 [] |}, db).
Proof.
  intros Hv Hf Hr.
  destruct (HandlerFacts.listSchools_accepts sin cos atan2 query Hv)
    as [k [-> Hk]].
  simpl. rewrite Hf, Hr, Hk. reflexivity.
Qed.

Lemma listing_empty_store_witness :
  run Sample.env
      (listSchools Sample.sin Sample.cos Sample.atan2
         (Sample.query "47.6" "-122.3")) Sample.empty
  = ({| status := 200; body := Listing 0 [] |}, Sample.empty).
Proof.
  apply (listing_empty_store Sample.sin Sample.cos Sample.atan2
           (Sample.query "47.6" "-122.3") Sample.env Sample.empty);
    vm_compute; reflexivity.
Defined.
End HandlerTheorems.

(* ===================================================================== *)
(** * [parseFloat] on strings *)
(* ===================================================================== *)

Module ParseFacts.
Import JS Shape.
Local Open Scope string_scope.

Lemma digit_byte c d : digit c = Some d -> (48 <= byte c <= 57)%N.
Proof.
  unfold digit. destruct (48 <=? byte c)%N eqn:E1; [|discriminate].
  destruct (byte c <=? 57)%N eqn:E2; [|discriminate].
  intros _. apply N.leb_le in E1, E2. lia.
Qed.

Lemma digit_range c d : digit c = Some d -> (0 <= d <= 9)%Z.
Proof.
  intros H. pose proof (digit_byte c d H) as B. unfold digit in H.
  destruct ((48 <=? byte c)%N && (byte c <=? 57)%N); [|discriminate].
  injection H as <-. lia.
Qed.

Lemma eqb_byte c k : Ascii.eqb c k = true -> byte c = byte k.
Proof. intros H. apply Ascii.eqb_eq in H. now subst. Qed.

Lemma digit_not c d k :
  digit c = Some d -> (byte k < 48 \/ 57 < byte k)%N -> Ascii.eqb c k = false.
Proof.
  intros H Hk. destruct (Ascii.eqb c k) eqn:E; [|reflexivity].
  apply eqb_byte in E. apply digit_byte in H. lia.
Qed.

(** A string that starts with a digit has no white space to skip. *)
Lemma trimStart_digit c d r :
  digit c = Some d -> trimStart (String c r) = String c r.
Proof.
  intros H. apply digit_byte in H.
  assert (W1 : ws1 c = false).
  { unfold ws1. cbv zeta.
    destruct (9 <=? byte c)%N eqn:A, (byte c <=? 13)%N eqn:B,
      (byte c =? 32)%N eqn:C; try reflexivity;
      try apply N.leb_le in A; try apply N.leb_le in B;
      try apply N.eqb_eq in C; lia. }
  assert (W2 : forall c2, ws2 c c2 = false).
  { intros c2. unfold ws2. destruct (byte c =? 194)%N eqn:A; [|reflexivity].
    apply N.eqb_eq in A. lia. }
  assert (W3 : forall c2 c3, ws3 c c2 c3 = false).
  { intros c2 c3. unfold ws3.
    destruct (byte c =? 225)%N eqn:A1; [apply N.eqb_eq in A1; lia|].
    destruct (byte c =? 226)%N eqn:A2; [apply N.eqb_eq in A2; lia|].
    destruct (byte c =? 227)%N eqn:A3; [apply N.eqb_eq in A3; lia|].
    destruct (byte c =? 239)%N eqn:A4; [apply N.eqb_eq in A4; lia|].
    reflexivity. }
  simpl. rewrite W1. destruct r as [|c2 r]; [reflexivity|].
  rewrite W2. destruct r as [|c3 r]; [reflexivity|].
  now rewrite W3.
Qed.

Lemma read_digits_junk t acc cnt :
  junk t = true -> read_digits t acc cnt = (acc, cnt, t).
Proof.
  destruct t as [|c r]; [reflexivity|]. simpl.
  destruct (digit c); [discriminate|reflexivity].
Qed.

(** Reading a run of digits followed by something else stops at the
    something else; the value and the count do not depend on it. *)
Lemma read_digits_app d t :
  all_digits d = true -> junk t = true ->
  forall acc cnt,
    read_digits (d ++ t) acc cnt
    = (fst (fst (read_digits d acc cnt)), snd (fst (read_digits d acc cnt)), t).
Proof.
  intros Hd Ht. induction d as [|c d IH]; intros acc cnt.
  - simpl. now rewrite read_digits_junk.
  - simpl in *. destruct (digit c) as [v|]; [|discriminate].
    apply IH, Hd.
Qed.

Lemma read_digits_count d :
  all_digits d = true ->
  forall acc cnt,
    snd (fst (read_digits d acc cnt)) = (cnt + Z.of_nat (String.length d))%Z.
Proof.
  induction d as [|c d IH]; intros Hd acc cnt.
  - simpl. lia.
  - simpl in *. destruct (digit c); [|discriminate].
    rewrite IH by exact Hd. lia.
Qed.

(** [parseFloat] on an integer literal followed by anything that does
    not extend it. *)
Lemma parseFloatStr_digits d t :
  all_digits d = true -> d <> "" -> junk t = true ->
  parseFloatStr (d ++ t) = dec2float false (value d) 0.
Proof.
  intros Hd Hne Ht. destruct d as [|c d]; [congruence|].
  assert (Hc : exists v, digit c = Some v).
  { simpl in Hd. destruct (digit c) as [v|]; [eauto|discriminate]. }
  destruct Hc as [v Hv].
  unfold parseFloatStr.
  change (String c d ++ t) with (String c (d ++ t)).
  rewrite (trimStart_digit c v (d ++ t) Hv).
  unfold read_sign, read_unsigned.
  rewrite (digit_not c v "-" Hv), (digit_not c v "+" Hv)
    by (vm_compute; left; reflexivity).
  assert (Hp : String.prefix "Infinity" (String c (d ++ t)) = false).
  { change (String.prefix "Infinity" (String c (d ++ t)))
      with (if ascii_dec "I" c then String.prefix "nfinity" (d ++ t)
            else false).
    destruct (ascii_dec "I" c) as [<-|]; [|reflexivity].
    vm_compute in Hv. discriminate. }
  rewrite Hp.
  change (String c (d ++ t)) with (String c d ++ t).
  rewrite (read_digits_app (String c d) t Hd Ht 0%Z 0%Z).
  rewrite (read_digits_count (String c d) Hd 0%Z 0%Z).
  assert (Hrest :
    match t with
    | String c0 r =>
        if Ascii.eqb c0 "."
        then read_digits r (fst (fst (read_digits (String c d) 0 0))) 0
        else (fst (fst (read_digits (String c d) 0 0)), 0%Z, t)
    | EmptyString => (fst (fst (read_digits (String c d) 0 0)), 0%Z, t)
    end = (fst (fst (read_digits (String c d) 0 0)), 0%Z, t)).
  { destruct t as [|c0 r]; [reflexivity|]. simpl in Ht.
    destruct (digit c0); [discriminate|].
    destruct (Ascii.eqb c0 "."); [discriminate|reflexivity]. }
  rewrite Hrest.
  assert (He : read_exponent t = 0%Z).
  { destruct t as [|c0 r]; [reflexivity|]. simpl in Ht. simpl.
    destruct (digit c0); [discriminate|].
    destruct (Ascii.eqb c0 "."); [discriminate|]. simpl in Ht.
    destruct (Ascii.eqb c0 "e"); [discriminate|].
    destruct (Ascii.eqb c0 "E"); [discriminate|]. reflexivity. }
  rewrite He.
  replace ((0 + Z.of_nat (String.length (String c d)) =? 0)%Z) with false
    by (symmetry; apply Z.eqb_neq; simpl String.length; lia).
  reflexivity.
Qed.
End ParseFacts.

Section CoercionTheorems.
Import JS Rules Aux Shape.
Local Open Scope string_scope.
Local Open Scope list_scope.
Local Open Scope float_scope.

(** C9, as stated, fails: the query ["abc"], ["200"] breaks two rules
    (registration reports both), and the listing route answers with one
    fixed message and no list of reasons. *)
Lemma listing_failure_carries_no_reason_list :
  let query := Sample.query "abc" "200" in
  let answer := listSchools Sample.sin Sample.cos Sample.atan2 query in
  validPoint (parseFloat (Query.latitude query))
             (parseFloat (Query.longitude query)) = false
  /\ coordinate_errors (parseFloat (Query.latitude query))
                       (parseFloat (Query.longitude query))
     = ["Latitude is required and must be a valid number";
        "Longitude must be between -180 and 180 degrees"]
  /\ reasons answer = None
  /\ ~ (exists errors,
          answer = Send {| status := 400;
                           body := ValidationFailure errors |}).
Proof.
  cbv zeta. repeat split; try (vm_compute; reflexivity).
  intros [errors H]. vm_compute in H. discriminate.
Qed.

(** C9, amended.  The listing route rejects a query exactly when a
    registration with a valid name and address and the same raw
    latitude and longitude fails validation, and it then answers with
    status 400 and one fixed message. *)
Theorem listing_checks_like_registration (sin cos : float -> float)
    (atan2 : float -> float -> float) (query : Query.t)
    (name address : JSValue) :
  blank name = false -> blank address = false ->
  let body := {| Data.name := name; Data.address := address;
                 Data.latitude := Query.latitude query;
                 Data.longitude := Query.longitude query |} in
  let rejection :=
    Send {| status := 400;
            body := Failure invalid_coordinates_message |} in
  (validateSchoolData (schoolData body) <> [] <->
   listSchools sin cos atan2 query = rejection)
  /\ validateSchoolData (schoolData body)
     = coordinate_errors (parseFloat (Query.latitude query))
                         (parseFloat (Query.longitude query)).
Proof.
  intros Hn Ha body rejection.
  assert (E : validateSchoolData (schoolData body)
              = coordinate_errors (parseFloat (Query.latitude query))
                                  (parseFloat (Query.longitude query))).
  { rewrite HandlerFacts.validate_schoolData. subst body. simpl.
    now rewrite Hn, Ha. }
  split; [|exact E]. rewrite E.
  destruct (validPoint (parseFloat (Query.latitude query))
                       (parseFloat (Query.longitude query))) eqn:V.
  - split.
    + intros H. exfalso. apply H. now apply HandlerFacts.coordinate_errors_nil.
    + intros H.
      destruct (HandlerFacts.listSchools_accepts sin cos atan2 query V)
        as [k [Hk _]].
      rewrite Hk in H. discriminate.
  - split.
    + intros _. now apply HandlerFacts.listSchools_rejects.
    + intros _ H. apply HandlerFacts.coordinate_errors_nil in H. congruence.
Qed.

Lemma listing_checks_like_registration_witness :
  let query := Sample.query "91" "10" in
  let body := {| Data.name := JStr "Test School";
                 Data.address := JStr "1 Test St";
                 Data.latitude := Query.latitude query;
                 Data.longitude := Query.longitude query |} in
  validateSchoolData (schoolData body) <> [] <->
  listSchools Sample.sin Sample.cos Sample.atan2 query
  = Send {| status := 400;
            body := Failure invalid_coordinates_message |}.
Proof.
  exact (proj1 (listing_checks_like_registration
                  Sample.sin Sample.cos Sample.atan2
                  (Sample.query "91" "10")
                  (JStr "Test School") (JStr "1 Test St")
                  eq_refl eq_refl)).
Defined.


End CoercionTheorems.

(* ===================================================================== *)
(** * Signs in binary64 arithmetic *)
(* ===================================================================== *)

Module Sign.
Local Open Scope float_scope.

Lemma xorb_negb_right b c : xorb b (negb c) = negb (xorb b c).
Proof. destruct b, c; reflexivity. Qed.

Lemma xorb_negb_left b c : xorb (negb b) c = negb (xorb b c).
Proof. destruct b, c; reflexivity. Qed.

(** Rounding does not look at the sign. *)
Lemma round_aux_opp s m e l :
  binary_round_aux prec emax (negb s) m e l
  = SFopp (binary_round_aux prec emax s m e l).
Proof.
  unfold binary_round_aux.
  destruct (shr_fexp prec emax m e l) as [mrs' e'].
  destruct (shr_fexp prec emax _ e' loc_Exact) as [mrs'' e''].
  destruct (shr_m mrs''); try reflexivity.
  destruct (e'' <=? emax - prec)%Z; reflexivity.
Qed.

Lemma round_opp s m e :
  binary_round prec emax (negb s) m e
  = SFopp (binary_round prec emax s m e).
Proof.
  unfold binary_round.
  destruct (shl_align m e _) as [mz ez]. apply round_aux_opp.
Qed.

Lemma normalize_opp m e :
  m <> 0%Z ->
  binary_normalize prec emax (- m) e false
  = SFopp (binary_normalize prec emax m e false).
Proof.
  destruct m as [|p|p]; [congruence| |]; intros _; simpl;
    [apply (round_opp false)|apply (round_opp true)].
Qed.

Lemma SFopp_involutive x : SFopp (SFopp x) = x.
Proof. destruct x as [s|s| |s m e]; simpl; now rewrite ?negb_involutive. Qed.

Lemma SFmul_comm x y : SF64mul x y = SF64mul y x.
Proof.
  destruct x as [s|s| |s m e], y as [s'|s'| |s' m' e']; simpl;
    try reflexivity; try (now rewrite xorb_comm).
  unfold SF64mul. simpl.
  now rewrite xorb_comm, Pos.mul_comm, Z.add_comm.
Qed.

Lemma SFmul_opp_r x y : SF64mul x (SFopp y) = SFopp (SF64mul x y).
Proof.
  destruct x as [s|s| |s m e], y as [s'|s'| |s' m' e']; simpl;
    try reflexivity; try (now rewrite xorb_negb_right).
  unfold SF64mul. simpl.
  rewrite xorb_negb_right. apply round_aux_opp.
Qed.

Lemma SFmul_opp_l x y : SF64mul (SFopp x) y = SFopp (SF64mul x y).
Proof. now rewrite SFmul_comm, SFmul_opp_r, SFmul_comm. Qed.

Lemma SFdiv_opp_l x y : SF64div (SFopp x) y = SFopp (SF64div x y).
Proof.
  destruct x as [s|s| |s m e], y as [s'|s'| |s' m' e']; simpl;
    try reflexivity; try (now rewrite xorb_negb_left).
  unfold SF64div. simpl.
  destruct (SFdiv_core_binary prec emax (Z.pos m) e (Z.pos m') e')
    as [[mz ez] lz].
  rewrite xorb_negb_left. apply round_aux_opp.
Qed.

(** Swapping the operands of a subtraction negates the difference, except
    that a zero difference of equal operands is [+0] both ways. *)
Lemma SFsub_swap x y :
  SF64sub y x = SFopp (SF64sub x y)
  \/ (SF64sub x y = S754_zero false /\ SF64sub y x = S754_zero false).
Proof.
  destruct x as [s|s| |s m e], y as [s'|s'| |s' m' e']; simpl;
    try (left; reflexivity);
    try (destruct s, s'; simpl; auto; fail);
    try (left; now rewrite ?negb_involutive).
  unfold SF64sub. simpl. rewrite (Z.min_comm e' e).
  set (a := cond_Zopp s (Z.pos (fst (shl_align m e (Z.min e e'))))).
  set (b := cond_Zopp s' (Z.pos (fst (shl_align m' e' (Z.min e e'))))).
  destruct (Z.eq_dec (a - b) 0) as [E|E].
  - right. replace (b - a)%Z with 0%Z by lia. rewrite E. auto.
  - left. replace (b - a)%Z with (- (a - b))%Z by lia.
    now apply normalize_opp.
Qed.

(** ** The same on primitive floats *)

Lemma opp_involutive x : - - x = x.
Proof. apply Prim2SF_inj. now rewrite !opp_spec, SFopp_involutive. Qed.

Lemma mul_comm x y : x * y = y * x.
Proof. apply Prim2SF_inj. rewrite !mul_spec. apply SFmul_comm. Qed.

Lemma mul_opp_r x y : x * - y = - (x * y).
Proof.
  apply Prim2SF_inj. rewrite opp_spec, !mul_spec, opp_spec.
  apply SFmul_opp_r.
Qed.

Lemma mul_opp_l x y : - x * y = - (x * y).
Proof.
  apply Prim2SF_inj. rewrite opp_spec, !mul_spec, opp_spec.
  apply SFmul_opp_l.
Qed.

Lemma mul_opp_opp x y : - x * - y = x * y.
Proof. now rewrite mul_opp_l, mul_opp_r, opp_involutive. Qed.

Lemma div_opp_l x y : - x / y = - (x / y).
Proof.
  apply Prim2SF_inj. rewrite opp_spec, !div_spec, opp_spec.
  apply SFdiv_opp_l.
Qed.

Lemma sub_swap x y :
  y - x = - (x - y) \/ (x - y = 0 /\ y - x = 0).
Proof.
  destruct (SFsub_swap (Prim2SF x) (Prim2SF y)) as [H|[H1 H2]].
  - left. apply Prim2SF_inj. now rewrite opp_spec, !sub_spec.
  - right. split; apply Prim2SF_inj; now rewrite sub_spec.
Qed.
End Sign.

(* ===================================================================== *)
(** * Symmetry of the distance *)
(* ===================================================================== *)

Section Symmetry.
Local Open Scope float_scope.
Variables (sin cos : float -> float) (atan2 : float -> float -> float).
Hypothesis sin_odd : forall x, sin (- x) = - sin x.


Lemma half_swap a b :
  Aux.half sin b a = Aux.half sin a b
  \/ Aux.half sin b a = - Aux.half sin a b.
Proof.
  unfold Aux.half. destruct (Sign.sub_swap a b) as [H|[H1 H2]].
  - right. rewrite H, Sign.mul_opp_l, !Sign.div_opp_l, sin_odd.
    now rewrite Sign.opp_involutive.
  - left. now rewrite H1, H2.
Qed.

Lemma square_swap a b :
  Aux.half sin b a * Aux.half sin b a = Aux.half sin a b * Aux.half sin a b.
Proof.
  destruct (half_swap a b) as [-> | ->]; [reflexivity|].
  apply Sign.mul_opp_opp.
Qed.

Lemma scaled_square_swap c a b :
  c * Aux.half sin b a * Aux.half sin b a
  = c * Aux.half sin a b * Aux.half sin a b.
Proof.
  destruct (half_swap a b) as [-> | ->]; [reflexivity|].
  now rewrite (Sign.mul_opp_r c), Sign.mul_opp_opp.
Qed.

(** C4.  The distance is symmetric: [calculateDistance] gives the same
    Number for (p1, p2) and for (p2, p1), for all coordinates, whenever
    the implementation's [Math.sin] is odd. *)
Theorem distance_symmetric (lat1 lon1 lat2 lon2 : float) :
  @calculateDistance _ (float_arith sin cos atan2) lat1 lon1 lat2 lon2
  = @calculateDistance _ (float_arith sin cos atan2) lat2 lon2 lat1 lon1.
Proof.
  unfold calculateDistance. cbv zeta.
  cbn [lit Math_PI add sub mul div Math_sqrt Math_sin Math_cos Math_atan2
       float_arith].
  change (SF2Prim (binary_normalize prec emax 180 0 false)) with 180.
  change (SF2Prim (binary_normalize prec emax 2 0 false)) with 2.
  fold (Aux.half sin lat1 lat2) (Aux.half sin lon1 lon2)
    (Aux.half sin lat2 lat1) (Aux.half sin lon2 lon1).
  rewrite (square_swap lat1 lat2).
  rewrite (scaled_square_swap _ lon1 lon2).
  now rewrite (Sign.mul_comm (cos (lat2 * _ / 180))).
Qed.
End Symmetry.

Lemma distance_symmetric_witness :
  @calculateDistance _ (float_arith Sample.sin Sample.cos Sample.atan2)
    47.6062%float (-122.3321)%float 32.7157%float (-117.1611)%float
  = @calculateDistance _ (float_arith Sample.sin Sample.cos Sample.atan2)
    32.7157%float (-117.1611)%float 47.6062%float (-122.3321)%float.
Proof.
  apply (distance_symmetric Sample.sin Sample.cos Sample.atan2).
  intros x. reflexivity.
Defined.

(* ===================================================================== *)
(** * Magnitudes in binary64 arithmetic *)
(* ===================================================================== *)

Module Magnitude.
Local Open Scope Z_scope.

Lemma digits2_size p : digits2_pos p = Pos.size p.
Proof. induction p; simpl; congruence. Qed.

(** A positive mantissa is below two to the power of its number of
    digits, and at least half of that. *)
Lemma digits_gt p : Z.pos p < 2 ^ Z.pos (digits2_pos p).
Proof.
  rewrite digits2_size. pose proof (Pos.size_gt p) as H.
  apply Pos2Z.pos_lt_pos in H. now rewrite Pos2Z.inj_pow in H.
Qed.

Lemma digits_le p : 2 ^ Z.pos (digits2_pos p) <= 2 * Z.pos p.
Proof.
  rewrite digits2_size. pose proof (Pos.size_le p) as H.
  apply Pos2Z.pos_le_pos in H. now rewrite Pos2Z.inj_pow in H.
Qed.

(** A number below [2^k] has at most [k] digits. *)
Lemma Zdigits2_bound m k : 0 <= k -> 0 <= m < 2 ^ k -> 0 <= Zdigits2 m <= k.
Proof.
  intros Hk [H0 H]. destruct m as [|p|p]; simpl; [lia| |lia].
  split; [lia|]. pose proof (digits_le p) as L.
  destruct (Z_le_gt_dec (Z.pos (digits2_pos p)) k) as [|G]; [assumption|].
  exfalso.
  assert (2 ^ (k + 1) <= 2 ^ Z.pos (digits2_pos p))
    by (apply Z.pow_le_mono_r; lia).
  rewrite Z.pow_add_r in H1 by lia. lia.
Qed.

Lemma Zdigits2_gt m : 0 <= m -> m < 2 ^ Zdigits2 m.
Proof.
  destruct m as [|p|p]; simpl; [lia| |lia]. intros _. apply digits_gt.
Qed.

(** ** Shifting right *)

Lemma shr_1_m mrs : 0 <= shr_m mrs -> shr_m (shr_1 mrs) = shr_m mrs / 2.
Proof.
  destruct mrs as [m r s]. simpl. intros H.
  destruct m as [|[p|p|]|p]; simpl; try reflexivity; try lia.
  - rewrite Pos2Z.inj_xI. apply Z.div_unique with 1; lia.
  - rewrite Pos2Z.inj_xO. apply Z.div_unique with 0; lia.
Qed.

Lemma iter_shr_1_m p : forall mrs,
  0 <= shr_m mrs ->
  shr_m (iter_pos shr_1 p mrs) = shr_m mrs / 2 ^ Z.pos p.
Proof.
  induction p as [p IH|p IH|]; intros mrs H; simpl iter_pos.
  - assert (H1 : 0 <= shr_m (shr_1 mrs))
      by (rewrite shr_1_m by assumption; apply Z.div_pos; lia).
    assert (H2 : 0 <= shr_m (iter_pos shr_1 p (shr_1 mrs)))
      by (rewrite IH by assumption; apply Z.div_pos; lia).
    rewrite IH, IH, shr_1_m by assumption.
    rewrite !Z.div_div by lia. f_equal.
    rewrite Pos2Z.inj_xI, <- Z.pow_add_r, <- Z.pow_succ_r by lia.
    f_equal. lia.
  - assert (H2 : 0 <= shr_m (iter_pos shr_1 p mrs))
      by (rewrite IH by assumption; apply Z.div_pos; lia).
    rewrite IH, IH by assumption.
    rewrite !Z.div_div by lia. f_equal.
    rewrite Pos2Z.inj_xO, <- Z.pow_add_r by lia. f_equal. lia.
  - now rewrite shr_1_m.
Qed.

(** [shr] divides the mantissa by [2^n] and adds [n] to the exponent, for
    the non-negative part [Z.max 0 n] of the shift. *)
Lemma shr_spec mrs e n :
  0 <= shr_m mrs ->
  shr_m (fst (shr mrs e n)) = shr_m mrs / 2 ^ Z.max 0 n
  /\ snd (shr mrs e n) = e + Z.max 0 n.
Proof.
  intros H. destruct n as [|p|p]; simpl.
  - rewrite Z.div_1_r. lia.
  - rewrite iter_shr_1_m by assumption. split; [reflexivity|lia].
  - rewrite Z.div_1_r. lia.
Qed.

Lemma shr_record_m m l : shr_m (shr_record_of_loc m l) = m.
Proof. destruct l as [|[]]; reflexivity. Qed.

Lemma round_nearest_even_range m l :
  m <= round_nearest_even m l <= m + 1.
Proof.
  destruct l as [|[]]; simpl; try lia. destruct (Z.even m); lia.
Qed.

Lemma div_pow2_lt m d n :
  0 <= m < 2 ^ d -> 0 <= d -> 0 <= n -> m / 2 ^ n < 2 ^ Z.max 0 (d - n).
Proof.
  intros [H0 H] Hd Hn. destruct (Z_le_gt_dec n d) as [L|G].
  - rewrite Z.max_r by lia. apply Z.div_lt_upper_bound; [lia|].
    rewrite <- Z.pow_add_r by lia. now replace (n + (d - n)) with d by lia.
  - rewrite Z.max_l by lia. rewrite Z.div_small; [simpl; lia|].
    split; [lia|]. apply Z.lt_le_trans with (2 ^ d); [lia|].
    apply Z.pow_le_mono_r; lia.
Qed.

(** What [shr_fexp] returns for a non-negative mantissa below [2^k]: the
    mantissa divided by a power of two, still non-negative and shorter by
    the shift, and the exponent raised to [fexp]. *)
Lemma shr_fexp_spec m e l k :
  0 <= k -> 0 <= m < 2 ^ k ->
  let d := Zdigits2 m in
  let n := Z.max 0 (fexp prec emax (d + e) - e) in
  let r := shr_fexp prec emax m e l in
  0 <= shr_m (fst r) < 2 ^ Z.max 0 (d - n)
  /\ snd r = e + n /\ 0 <= d <= k.
Proof.
  intros Hk Hm d n r. subst r n d.
  pose proof (Zdigits2_bound m k Hk Hm) as Hd.
  assert (Hd' : m < 2 ^ Zdigits2 m) by (apply Zdigits2_gt; lia).
  unfold shr_fexp.
  destruct (shr_spec (shr_record_of_loc m l) e
              (fexp prec emax (Zdigits2 m + e) - e)) as [E1 E2].
  { rewrite shr_record_m. lia. }
  rewrite shr_record_m in E1.
  rewrite E1, E2. repeat split; try lia.
  - apply Z.div_pos; [lia|]. apply Z.pow_pos_nonneg; lia.
  - apply div_pow2_lt; lia.
Qed.

(** Rounding a non-negative mantissa below [2^k] with exponent [e] gives a
    zero or a finite number, with the sign asked for and an exponent of at
    most [B], as soon as [e <= B] and [k + e - 52 <= B]: no overflow. *)
Lemma round_aux_small s m e l k B :
  0 <= k -> 0 <= m < 2 ^ k ->
  e <= B -> k + e - 52 <= B -> -1074 <= B -> B <= 971 ->
  binary_round_aux prec emax s m e l = S754_zero s
  \/ exists m' e', binary_round_aux prec emax s m e l = S754_finite s m' e'
                  /\ e' <= B.
Proof.
  intros Hk Hm He Hke HB1 HB2. unfold binary_round_aux.
  destruct (shr_fexp_spec m e l k Hk Hm) as [[M1 M1'] [E1 D]].
  destruct (shr_fexp prec emax m e l) as [mrs1 e1].
  cbn [fst snd] in M1, M1', E1.
  set (d := Zdigits2 m) in *.
  set (n1 := Z.max 0 (fexp prec emax (d + e) - e)) in *.
  set (m1 := round_nearest_even (shr_m mrs1) (loc_of_shr_record mrs1)).
  pose proof (round_nearest_even_range (shr_m mrs1) (loc_of_shr_record mrs1))
    as R. fold m1 in R.
  set (k1 := Z.max 0 (d - n1)) in *.
  assert (Hm1 : 0 <= m1 < 2 ^ (k1 + 1)).
  { split; [lia|]. rewrite Z.pow_add_r by lia. lia. }
  destruct (shr_fexp_spec m1 e1 loc_Exact (k1 + 1) ltac:(lia) Hm1)
    as [[M2 _] [E2 D1]].
  destruct (shr_fexp prec emax m1 e1 loc_Exact) as [mrs2 e2].
  cbn [fst snd] in M2, E2.
  assert (Hfexp : forall x, fexp prec emax x = Z.max (x - 53) (-1074))
    by reflexivity.
  rewrite Hfexp in E2. unfold n1 in E1. rewrite Hfexp in E1.
  assert (He2 : e2 <= B) by (unfold k1, n1 in D1; rewrite Hfexp in D1; lia).
  destruct (shr_m mrs2) as [|p|p]; [now left| |lia].
  right. exists p, e2.
  replace (e2 <=? emax - prec) with true; [auto|].
  symmetry. apply Z.leb_le. change (emax - prec) with 971. lia.
Qed.
End Magnitude.

Module Bounds.
Import Aux.
Local Open Scope Z_scope.

(** The mantissa of a valid binary64 number has at most 53 bits. *)
Lemma valid_mantissa s m e :
  valid_binary (S754_finite s m e) = true -> Z.pos m < 2 ^ 53.
Proof.
  unfold valid_binary, bounded, canonical_mantissa. intros H.
  apply andb_prop in H. destruct H as [H _]. apply Z.eqb_eq in H.
  change (fexp prec emax (Z.pos (digits2_pos m) + e))
    with (Z.max (Z.pos (digits2_pos m) + e - 53) (-1074)) in H.
  apply Z.lt_le_trans with (2 ^ Z.pos (digits2_pos m));
    [apply Magnitude.digits_gt|].
  apply Z.pow_le_mono_r; lia.
Qed.

Lemma SFsmall_weaken B B' x : B <= B' -> SFsmall B x -> SFsmall B' x.
Proof. destruct x; simpl; auto; lia. Qed.

(** No overflow in a product of small numbers. *)
Lemma SFmul_small B1 B2 B x y :
  valid_binary x = true -> valid_binary y = true ->
  SFsmall B1 x -> SFsmall B2 y ->
  B1 + B2 + 54 <= B -> -1074 <= B -> B <= 971 ->
  SFsmall B (SF64mul x y).
Proof.
  intros Vx Vy Hx Hy HB HB1 HB2.
  destruct x as [s|s| |s m e], y as [s'|s'| |s' m' e']; simpl in *;
    try tauto.
  pose proof (valid_mantissa s m e Vx) as Mx.
  pose proof (valid_mantissa s' m' e' Vy) as My.
  destruct (Magnitude.round_aux_small (xorb s s') (Z.pos (m * m')) (e + e')
              loc_Exact 106 B) as [E|[m2 [e2 [E He2]]]]; try lia.
  - rewrite Pos2Z.inj_mul. split; [lia|].
    change (2 ^ 106) with (2 ^ 53 * 2 ^ 53). nia.
  - unfold SF64mul. simpl. now rewrite E.
  - unfold SF64mul. simpl. now rewrite E.
Qed.

(** A square is [+0] or positive. *)
Lemma SFmul_self_nonneg B x :
  SFsmall B (SF64mul x x) -> SFnonneg (SF64mul x x).
Proof.
  destruct x as [s|s| |s m e]; simpl; try tauto.
  - intros _. now destruct s.
  - unfold SF64mul. simpl. rewrite xorb_nilpotent.
    unfold binary_round_aux.
    destruct (shr_fexp prec emax _ _ _) as [mrs1 e1].
    destruct (shr_fexp prec emax _ _ _) as [mrs2 e2].
    destruct (shr_m mrs2); simpl; try tauto.
    destruct (e2 <=? _); simpl; tauto.
Qed.

(** No overflow in dividing a small number by a finite one. *)
Lemma SFdiv_small B1 B x sy my ey :
  valid_binary x = true ->
  SFsmall B1 x ->
  B1 - ey + 1 <= B -> -1074 <= B -> B <= 971 ->
  SFsmall B (SF64div x (S754_finite sy my ey)).
Proof.
  intros Vx Hx HB HB1 HB2.
  destruct x as [s|s| |s m e]; simpl in *; try tauto.
  pose proof (valid_mantissa s m e Vx) as Mx.
  unfold SF64div. simpl. unfold SFdiv_core_binary.
  set (e' := Z.min (fexp prec emax
                      (Zdigits2 (Z.pos m) + e - (Zdigits2 (Z.pos my) + ey)))
                   (e - ey)).
  set (sh := e - ey - e').
  assert (Hsh : 0 <= sh) by (unfold sh, e'; lia).
  set (m' := match sh with
             | Z.pos _ => Z.shiftl (Z.pos m) sh
             | 0 => Z.pos m
             | Z.neg _ => 0
             end).
  assert (Hm' : m' = Z.pos m * 2 ^ sh).
  { unfold m'. destruct sh as [|p|p]; [simpl; lia| |lia].
    now rewrite Z.shiftl_mul_pow2 by lia. }
  pose proof (Z_div_mod m' (Z.pos my) ltac:(lia)) as DM.
  destruct (Z.div_eucl m' (Z.pos my)) as [q r]. destruct DM as [DM R].
  assert (P : 0 < 2 ^ sh) by (apply Z.pow_pos_nonneg; lia).
  assert (Hq : 0 <= q < 2 ^ (53 + sh)).
  { rewrite Z.pow_add_r by lia.
    assert (Q0 : 0 <= q)
      by (destruct (Z_lt_le_dec q 0); [exfalso; nia|assumption]).
    assert (Q1 : q <= m') by nia.
    assert (Q2 : m' < 2 ^ 53 * 2 ^ sh)
      by (rewrite Hm'; apply Z.mul_lt_mono_pos_r; assumption).
    lia. }
  destruct (Magnitude.round_aux_small (xorb s sy) q e'
              (new_location (Z.pos my) r) (53 + sh) B)
    as [E|[m2 [e2 [E He2]]]]; try lia.
  - now rewrite E.
  - now rewrite E.
Qed.

(** A number between a negative and a positive finite bound is zero or
    finite, with an exponent no larger than theirs. *)
Lemma SFleb_small B x ml el mh eh :
  el <= B -> eh <= B ->
  SFleb (S754_finite true ml el) x = true ->
  SFleb x (S754_finite false mh eh) = true ->
  SFsmall B x.
Proof.
  intros Hl Hh. unfold SFleb. destruct x as [s|s| |s m e]; simpl.
  - tauto.
  - destruct s; discriminate.
  - discriminate.
  - destruct s.
    + intros H _. destruct (el ?= e) eqn:E; try discriminate; clear H.
      * apply Z.compare_eq in E. lia.
      * apply Z.compare_gt_iff in E. lia.
    + intros _ H. destruct (e ?= eh) eqn:E; try discriminate; clear H.
      * apply Z.compare_eq in E. lia.
      * change (e < eh) in E. lia.
Qed.

Lemma SFsub_diag x : SFsmall 971 x -> SF64sub x x = S754_zero false.
Proof.
  destruct x as [s|s| |s m e]; simpl; try tauto; intros _.
  - now destruct s.
  - unfold SF64sub. simpl. now rewrite Z.sub_diag.
Qed.

Lemma SFmul_nonneg_zero x :
  SFnonneg x -> SF64mul x (S754_zero false) = S754_zero false.
Proof. destruct x as [[]|[]| |[] m e]; simpl; tauto. Qed.

(** ** On primitive floats *)

Local Open Scope float_scope.

Lemma finite_small x : finite x = true <-> small 971 x.
Proof.
  unfold finite, small. pose proof (Prim2SF_valid x) as V.
  destruct (Prim2SF x) as [s|s| |s m e]; simpl; try tauto;
    try (split; [discriminate|tauto]).
  split; [|reflexivity]. intros _. simpl in V. unfold bounded in V.
  apply andb_prop in V. destruct V as [_ V]. apply Z.leb_le in V. exact V.
Qed.

Lemma small_finite B x : (B <= 971)%Z -> small B x -> finite x = true.
Proof.
  intros HB H. apply finite_small. unfold small in *.
  now apply SFsmall_weaken with B.
Qed.

Lemma mul_small B1 B2 B x y :
  small B1 x -> small B2 y ->
  (B1 + B2 + 54 <= B)%Z -> (-1074 <= B)%Z -> (B <= 971)%Z ->
  small B (x * y).
Proof.
  intros. unfold small. rewrite mul_spec.
  apply SFmul_small with B1 B2; auto using Prim2SF_valid.
Qed.

Lemma div_small B1 B x y sy my ey :
  Prim2SF y = S754_finite sy my ey ->
  small B1 x ->
  (B1 - ey + 1 <= B)%Z -> (-1074 <= B)%Z -> (B <= 971)%Z ->
  small B (x / y).
Proof.
  intros Hy. intros. unfold small. rewrite div_spec, Hy.
  apply SFdiv_small with B1; auto using Prim2SF_valid.
Qed.

Lemma leb_small B lo hi x ml el mh eh :
  Prim2SF lo = S754_finite true ml el ->
  Prim2SF hi = S754_finite false mh eh ->
  (el <= B)%Z -> (eh <= B)%Z ->
  (lo <=? x) = true -> (x <=? hi) = true ->
  small B x.
Proof.
  intros Hlo Hhi Hl Hh. rewrite !leb_spec, Hlo, Hhi.
  now apply SFleb_small.
Qed.

Lemma sub_diag x : finite x = true -> x - x = 0.
Proof.
  intros H. apply finite_small in H. apply Prim2SF_inj.
  rewrite sub_spec. now apply SFsub_diag.
Qed.

(** The square of a number of magnitude at most one, times [+0], is
    [+0]. *)
Lemma square_times_zero c :
  (-1 <=? c) = true -> (c <=? 1) = true -> c * c * 0 = 0.
Proof.
  intros H1 H2.
  assert (S : small (-52) c)
    by (apply (leb_small (-52) (-1) 1 c _ (-52)%Z _ (-52)%Z eq_refl eq_refl);
        [lia|lia|assumption|assumption]).
  assert (S2 : small (-50) (c * c))
    by (apply (mul_small (-52) (-52) (-50) c c S S); lia).
  apply Prim2SF_inj. rewrite mul_spec. unfold small in S2.
  rewrite mul_spec in *.
  apply SFmul_nonneg_zero. now apply SFmul_self_nonneg with (-50)%Z.
Qed.
End Bounds.

(* ===================================================================== *)
(** * The distance from a point to itself *)
(* ===================================================================== *)

Section Identity.
Import Aux Rules.
Local Open Scope float_scope.
Variables (sin cos : float -> float) (atan2 : float -> float -> float).

(** What ECMA-262 fixes of the three functions at these arguments:
    [Math.sin(+0)] is [+0], [Math.atan2(+0, x)] is [+0] for [x > 0], and a
    cosine of a finite number is a number between -1 and 1. *)
Hypothesis sin_zero : sin 0 = 0.
Hypothesis atan2_zero : atan2 0 1 = 0.
Hypothesis cos_range :
  forall x, finite x = true -> (-1 <=? cos x) = true /\ (cos x <=? 1) = true.

(** A valid latitude in radians is finite. *)
Lemma radians_finite lat :
  (-90 <=? lat) = true -> (lat <=? 90) = true ->
  finite (lat * 0x1.921fb54442d18p+1 / 180) = true.
Proof.
  intros H1 H2.
  assert (S : small (-46) lat)
    by (apply (Bounds.leb_small (-46) (-90) 90 lat _ (-46)%Z _ (-46)%Z
                 eq_refl eq_refl); [lia|lia|assumption|assumption]).
  assert (S1 : small (-43) (lat * 0x1.921fb54442d18p+1)).
  { apply (Bounds.mul_small (-46) (-51) (-43)); try lia; [exact S|].
    change (SFsmall (-51) (S754_finite false 7074237752028440 (-51))).
    simpl. lia. }
  apply (Bounds.small_finite 3); [lia|].
  apply (Bounds.div_small (-43) 3 _ 180 false 6333186975989760%positive
           (-45)%Z eq_refl S1); lia.
Qed.

Lemma valid_point_finite lat lon :
  validPoint lat lon = true ->
  ((-90 <=? lat) = true /\ (lat <=? 90) = true)
  /\ finite lat = true /\ finite lon = true.
Proof.
  unfold validPoint. intros H.
  repeat (apply andb_prop in H; destruct H as [H ?]).
  repeat split; try assumption.
  - apply (Bounds.small_finite (-46)); [lia|].
    apply (Bounds.leb_small (-46) (-90) 90 lat _ (-46)%Z _ (-46)%Z
             eq_refl eq_refl); [lia|lia|assumption|assumption].
  - apply (Bounds.small_finite (-45)); [lia|].
    apply (Bounds.leb_small (-45) (-180) 180 lon _ (-45)%Z _ (-45)%Z
             eq_refl eq_refl); [lia|lia|assumption|assumption].
Qed.

Lemma calculateDistance_same lat lon :
  validPoint lat lon = true ->
  @calculateDistance _ (float_arith sin cos atan2) lat lon lat lon = 0.
Proof.
  intros V. destruct (valid_point_finite lat lon V) as [[L1 L2] [Fa Fo]].
  unfold calculateDistance. cbv zeta.
  cbn [lit Math_PI add sub mul div Math_sqrt Math_sin Math_cos Math_atan2
       float_arith].
  change (SF2Prim (binary_normalize prec emax 6371 0 false)) with 6371.
  change (SF2Prim (binary_normalize prec emax 180 0 false)) with 180.
  change (SF2Prim (binary_normalize prec emax 2 0 false)) with 2.
  change (SF2Prim (binary_normalize prec emax 1 0 false)) with 1.
  rewrite (Bounds.sub_diag lat Fa), (Bounds.sub_diag lon Fo).
  change (0 * 0x1.921fb54442d18p+1 / 180 / 2) with 0.
  rewrite sin_zero.
  destruct (cos_range _ (radians_finite lat L1 L2)) as [C1 C2].
  rewrite (Bounds.square_times_zero _ C1 C2).
  change (PrimFloat.sqrt (0 * 0 + 0 * 0)) with 0.
  change (PrimFloat.sqrt (1 - (0 * 0 + 0 * 0))) with 1.
  rewrite atan2_zero. reflexivity.
Qed.

(** C3.  For every valid point, the distance from the point to itself is
    0.00: [calculateDistance] returns [+0], [toFixed(2)] prints it as
    ["0.00"], and the [distance] of a school at the query point is 0. *)
Theorem distance_to_itself (lat lon : float) :
  validPoint lat lon = true ->
  let d := @calculateDistance _ (float_arith sin cos atan2) lat lon lat lon in
  d = 0
  /\ Fixed.toFixed d 2 = Spelled "0.00"
  /\ forall school,
       School.latitude school = lat -> School.longitude school = lon ->
       distance (withDistance sin cos atan2 lat lon school) = 0.
Proof.
  intros V d. assert (E : d = 0) by (apply calculateDistance_same, V).
  split; [exact E|]. split; [rewrite E; reflexivity|].
  intros school <- <-. unfold withDistance. cbn [distance].
  fold d. rewrite E. reflexivity.
Qed.
End Identity.

Lemma distance_to_itself_witness :
  let d := @calculateDistance _
             (float_arith Sample.sin Sample.cos Sample.atan2)
             47.6062%float (-122.3321)%float 47.6062%float (-122.3321)%float in
  d = 0%float /\ Fixed.toFixed d 2 = Spelled "0.00".
Proof.
  pose proof (distance_to_itself Sample.sin Sample.cos Sample.atan2
                eq_refl eq_refl
                (fun x _ => conj eq_refl eq_refl)
                47.6062%float (-122.3321)%float eq_refl) as H.
  cbv zeta in *. tauto.
Defined.

(* ===================================================================== *)
(** * No underflow to zero from an exponent in range *)
(* ===================================================================== *)

Module Nonzero.
Local Open Scope Z_scope.

(** A positive mantissa with an exponent of at least [emin] stays positive
    through [shr_fexp]: the shift never exceeds the number of digits. *)
Lemma shr_fexp_pos m e l :
  0 < m -> -1074 <= e ->
  0 < shr_m (fst (shr_fexp prec emax m e l))
  /\ -1074 <= snd (shr_fexp prec emax m e l).
Proof.
  intros Hm He. unfold shr_fexp.
  destruct (Magnitude.shr_spec (shr_record_of_loc m l) e
              (fexp prec emax (Zdigits2 m + e) - e)) as [E1 E2].
  { rewrite Magnitude.shr_record_m. lia. }
  rewrite Magnitude.shr_record_m in E1. rewrite E1, E2.
  destruct m as [|p|p]; try lia. cbn [Zdigits2].
  pose proof (Magnitude.digits_le p) as L.
  change (fexp prec emax (Z.pos (digits2_pos p) + e))
    with (Z.max (Z.pos (digits2_pos p) + e - 53) (-1074)).
  set (d := Z.pos (digits2_pos p)) in *.
  set (n := Z.max 0 (Z.max (d + e - 53) (-1074) - e)).
  assert (Hn : 0 <= n <= d - 1) by (unfold n, d; lia).
  split; [|lia].
  apply Z.div_str_pos. split; [apply Z.pow_pos_nonneg; lia|].
  assert (2 ^ n <= 2 ^ (d - 1)) by (apply Z.pow_le_mono_r; lia).
  replace d with (d - 1 + 1) in L by lia.
  rewrite Z.pow_add_r in L by lia. lia.
Qed.

(** Rounding a positive mantissa with an exponent in range gives a finite
    number or an infinity of the sign asked for, never a zero. *)
Lemma round_aux_nonzero s m e l :
  0 < m -> -1074 <= e ->
  (exists m' e', binary_round_aux prec emax s m e l = S754_finite s m' e')
  \/ binary_round_aux prec emax s m e l = S754_infinity s.
Proof.
  intros Hm He. unfold binary_round_aux.
  destruct (shr_fexp_pos m e l Hm He) as [M1 E1].
  destruct (shr_fexp prec emax m e l) as [mrs1 e1]. cbn [fst snd] in M1, E1.
  pose proof (Magnitude.round_nearest_even_range (shr_m mrs1)
                (loc_of_shr_record mrs1)) as R.
  set (m1 := round_nearest_even (shr_m mrs1) (loc_of_shr_record mrs1)) in *.
  destruct (shr_fexp_pos m1 e1 loc_Exact ltac:(lia) E1) as [M2 _].
  destruct (shr_fexp prec emax m1 e1 loc_Exact) as [mrs2 e2].
  cbn [fst snd] in M2.
  destruct (shr_m mrs2) as [|p|p]; try lia.
  destruct (e2 <=? emax - prec); eauto.
Qed.

Lemma shl_align_value m e e' :
  e' <= e -> Z.pos (fst (shl_align m e e')) = Z.pos m * 2 ^ (e - e').
Proof.
  intros H. unfold shl_align.
  destruct (e' - e) as [|p|p] eqn:E; try lia.
  - replace (e - e') with 0 by lia. simpl. lia.
  - replace (e - e') with (Z.pos p) by lia. cbn [fst].
    clear. induction p using Pos.peano_ind.
    + simpl. lia.
    + rewrite Pos.iter_succ, Pos2Z.inj_succ, Z.pow_succ_r by lia.
      rewrite Pos2Z.inj_xO, IHp. lia.
Qed.

Lemma shl_align_exponent m e e' :
  -1074 <= e -> -1074 <= e' -> -1074 <= snd (shl_align m e e').
Proof.
  intros. unfold shl_align. destruct (e' - e); simpl; lia.
Qed.

Lemma round_nonzero s m e :
  -1074 <= e ->
  (exists m' e', binary_round prec emax s m e = S754_finite s m' e')
  \/ binary_round prec emax s m e = S754_infinity s.
Proof.
  intros He. unfold binary_round.
  pose proof (shl_align_exponent m e
                (fexp prec emax (Z.pos (digits2_pos m) + e)) He) as X.
  destruct (shl_align m e _) as [mz ez]. cbn [snd] in X.
  apply round_aux_nonzero; [lia|]. apply X.
  change (fexp prec emax (Z.pos (digits2_pos m) + e))
    with (Z.max (Z.pos (digits2_pos m) + e - 53) (-1074)). lia.
Qed.
End Nonzero.

(* ===================================================================== *)
(** * The order of binary64 numbers *)
(* ===================================================================== *)

Module Order.
Import Aux.
Local Open Scope Z_scope.

(** What validity says of a finite number. *)
Lemma valid_finite s m e :
  valid_binary (S754_finite s m e) = true ->
  -1074 <= e <= 971 /\ Z.pos m < 2 ^ 53 /\ (-1074 < e -> 2 ^ 52 <= Z.pos m).
Proof.
  intros V. pose proof (Bounds.valid_mantissa s m e V) as M.
  unfold valid_binary, bounded, canonical_mantissa in V.
  apply andb_prop in V. destruct V as [C E].
  apply Z.eqb_eq in C. apply Z.leb_le in E.
  change (emax - prec) with 971 in E.
  change (fexp prec emax (Z.pos (digits2_pos m) + e))
    with (Z.max (Z.pos (digits2_pos m) + e - 53) (-1074)) in C.
  repeat split; try lia.
  intros H. assert (D : Z.pos (digits2_pos m) = 53) by lia.
  pose proof (Magnitude.digits_le m) as L. rewrite D in L.
  change (2 ^ 53) with (2 * 2 ^ 52) in L. lia.
Qed.

(** A number with the larger exponent is the larger number. *)
Lemma scaled_lt mx my ex ey :
  0 < mx < 2 ^ 53 -> 2 ^ 52 <= my -> -1074 <= ex < ey ->
  mx * 2 ^ (ex + 1074) < my * 2 ^ (ey + 1074).
Proof.
  intros Hx Hy He.
  replace (ey + 1074) with ((ey - ex) + (ex + 1074)) by lia.
  rewrite (Z.pow_add_r 2 (ey - ex) (ex + 1074)) by lia.
  assert (P : 0 < 2 ^ (ex + 1074)) by (apply Z.pow_pos_nonneg; lia).
  assert (Q : 2 ^ 1 <= 2 ^ (ey - ex)) by (apply Z.pow_le_mono_r; lia).
  change (2 ^ 1) with 2 in Q. change (2 ^ 53) with (2 * 2 ^ 52) in Hx.
  rewrite Z.mul_assoc. apply Z.mul_lt_mono_pos_r; [exact P|]. nia.
Qed.

Lemma finite_below_infinity m e :
  Z.pos m < 2 ^ 53 -> -1074 <= e <= 971 ->
  Z.pos m * 2 ^ (e + 1074) < 2 ^ 2100.
Proof.
  intros Hm He.
  assert (P : 0 < 2 ^ (e + 1074)) by (apply Z.pow_pos_nonneg; lia).
  apply Z.lt_le_trans with (2 ^ 53 * 2 ^ (e + 1074)).
  - apply Z.mul_lt_mono_pos_r; assumption.
  - rewrite <- Z.pow_add_r by lia. apply Z.pow_le_mono_r; lia.
Qed.

(** Positive finite numbers compare as their images do. *)
Lemma compare_magnitudes mx ex my ey :
  valid_binary (S754_finite false mx ex) = true ->
  valid_binary (S754_finite false my ey) = true ->
  match ex ?= ey with
  | Lt => Lt
  | Gt => Gt
  | Eq => Pos.compare_cont Eq mx my
  end = (Z.pos mx * 2 ^ (ex + 1074) ?= Z.pos my * 2 ^ (ey + 1074)).
Proof.
  intros Vx Vy.
  destruct (valid_finite _ _ _ Vx) as [Ex [Mx Nx]].
  destruct (valid_finite _ _ _ Vy) as [Ey [My Ny]].
  destruct (Z.compare_spec ex ey) as [E|E|E].
  - subst ey. rewrite <- Zmult_compare_compat_r
      by (apply Z.lt_gt, Z.pow_pos_nonneg; lia). reflexivity.
  - symmetry. apply Z.compare_lt_iff. apply scaled_lt; lia.
  - symmetry. apply Z.compare_gt_iff. apply scaled_lt; lia.
Qed.

(** [SFcompare] on numbers is the comparison of their images. *)
Lemma SFcompare_ord x y :
  valid_binary x = true -> valid_binary y = true ->
  Aux.SFnan x = false -> Aux.SFnan y = false ->
  SFcompare x y = Some (SFord x ?= SFord y).
Proof.
  assert (P : 0 < 2 ^ 2100) by (apply Z.pow_pos_nonneg; lia).
  intros Vx Vy Nx Ny.
  destruct x as [s|s| |s m e], y as [s'|s'| |s' m' e'];
    try discriminate; cbn [SFcompare SFord].
  - reflexivity.
  - f_equal. symmetry. destruct s'; unfold cond_Zopp;
      [apply Z.compare_gt_iff|apply Z.compare_lt_iff]; lia.
  - destruct (valid_finite _ _ _ Vy) as [Ey [My _]].
    assert (0 < Z.pos m' * 2 ^ (e' + 1074))
      by (apply Z.mul_pos_pos; [lia|apply Z.pow_pos_nonneg; lia]).
    f_equal. symmetry. destruct s'; unfold cond_Zopp;
      [apply Z.compare_gt_iff|apply Z.compare_lt_iff]; lia.
  - f_equal. symmetry. destruct s; unfold cond_Zopp;
      [apply Z.compare_lt_iff|apply Z.compare_gt_iff]; lia.
  - f_equal. symmetry. destruct s, s'; unfold cond_Zopp;
      try apply Z.compare_refl;
      [apply Z.compare_lt_iff|apply Z.compare_gt_iff]; lia.
  - destruct (valid_finite _ _ _ Vy) as [Ey [My _]].
    pose proof (finite_below_infinity m' e' My Ey).
    assert (0 < Z.pos m' * 2 ^ (e' + 1074))
      by (apply Z.mul_pos_pos; [lia|apply Z.pow_pos_nonneg; lia]).
    f_equal. symmetry. destruct s, s'; unfold cond_Zopp;
      try (apply Z.compare_lt_iff; lia); apply Z.compare_gt_iff; lia.
  - destruct (valid_finite _ _ _ Vx) as [Ex [Mx _]].
    assert (0 < Z.pos m * 2 ^ (e + 1074))
      by (apply Z.mul_pos_pos; [lia|apply Z.pow_pos_nonneg; lia]).
    f_equal. symmetry. destruct s; unfold cond_Zopp;
      [apply Z.compare_lt_iff|apply Z.compare_gt_iff]; lia.
  - destruct (valid_finite _ _ _ Vx) as [Ex [Mx _]].
    pose proof (finite_below_infinity m e Mx Ex).
    assert (0 < Z.pos m * 2 ^ (e + 1074))
      by (apply Z.mul_pos_pos; [lia|apply Z.pow_pos_nonneg; lia]).
    f_equal. symmetry. destruct s, s'; unfold cond_Zopp;
      try (apply Z.compare_lt_iff; lia); apply Z.compare_gt_iff; lia.
  - destruct (valid_finite _ _ _ Vx) as [Ex [Mx _]].
    destruct (valid_finite _ _ _ Vy) as [Ey [My _]].
    assert (0 < Z.pos m * 2 ^ (e + 1074))
      by (apply Z.mul_pos_pos; [lia|apply Z.pow_pos_nonneg; lia]).
    assert (0 < Z.pos m' * 2 ^ (e' + 1074))
      by (apply Z.mul_pos_pos; [lia|apply Z.pow_pos_nonneg; lia]).
    f_equal. destruct s, s'; unfold cond_Zopp.
    + rewrite Z.compare_opp.
      rewrite <- (compare_magnitudes m' e' m e Vy Vx).
      rewrite (Z.compare_antisym e' e).
      destruct (e' ?= e); simpl; try reflexivity.
      apply (Pos.compare_cont_antisym m m' Eq).
    + symmetry. apply Z.compare_lt_iff. lia.
    + symmetry. apply Z.compare_gt_iff. lia.
    + apply compare_magnitudes; assumption.
Qed.

(** The image of a finite number, through the aligned mantissa that the
    subtraction works on. *)
Lemma SFord_aligned s m e ez :
  -1074 <= ez <= e ->
  SFord (S754_finite s m e)
  = cond_Zopp s (Z.pos (fst (shl_align m e ez))) * 2 ^ (ez + 1074).
Proof.
  intros H. cbn [SFord]. rewrite Nonzero.shl_align_value by lia.
  replace (e + 1074) with ((e - ez) + (ez + 1074)) by lia.
  rewrite (Z.pow_add_r 2 (e - ez) (ez + 1074)) by lia.
  destruct s; unfold cond_Zopp; lia.
Qed.

Lemma SFltb_zero_nonzero s x :
  (exists m e, x = S754_finite s m e) \/ x = S754_infinity s ->
  SFltb (S754_zero false) x = negb s.
Proof. intros [[m [e ->]]| ->]; destruct s; reflexivity. Qed.

(** The sign of a difference is the order of the operands: [0 < x - y]
    exactly when [y < x].  A difference that is not a number (of two equal
    infinities) is not positive either. *)
Lemma SFsub_sign x y :
  valid_binary x = true -> valid_binary y = true ->
  Aux.SFnan x = false -> Aux.SFnan y = false ->
  SFltb (S754_zero false) (SF64sub x y) = (SFord y <? SFord x).
Proof.
  assert (P : 0 < 2 ^ 2100) by (apply Z.pow_pos_nonneg; lia).
  intros Vx Vy Nx Ny.
  destruct x as [s|s| |s m e], y as [s'|s'| |s' m' e']; try discriminate.
  - destruct s, s'; reflexivity.
  - cbn [SFord]. destruct s'; unfold cond_Zopp; simpl SF64sub;
      symmetry; [apply Z.ltb_lt|apply Z.ltb_ge]; lia.
  - destruct (valid_finite _ _ _ Vy) as [Ey [My _]].
    assert (0 < Z.pos m' * 2 ^ (e' + 1074))
      by (apply Z.mul_pos_pos; [lia|apply Z.pow_pos_nonneg; lia]).
    cbn [SFord]. destruct s'; unfold cond_Zopp; simpl SF64sub;
      symmetry; [apply Z.ltb_lt|apply Z.ltb_ge]; lia.
  - cbn [SFord]. destruct s; unfold cond_Zopp; simpl SF64sub;
      symmetry; [apply Z.ltb_ge|apply Z.ltb_lt]; lia.
  - cbn [SFord]. destruct s, s'; unfold cond_Zopp; simpl SF64sub;
      symmetry; try (apply Z.ltb_ge; lia); apply Z.ltb_lt; lia.
  - destruct (valid_finite _ _ _ Vy) as [Ey [My _]].
    pose proof (finite_below_infinity m' e' My Ey).
    assert (0 < Z.pos m' * 2 ^ (e' + 1074))
      by (apply Z.mul_pos_pos; [lia|apply Z.pow_pos_nonneg; lia]).
    cbn [SFord]. destruct s, s'; unfold cond_Zopp; simpl SF64sub;
      symmetry; try (apply Z.ltb_ge; lia); apply Z.ltb_lt; lia.
  - destruct (valid_finite _ _ _ Vx) as [Ex [Mx _]].
    assert (0 < Z.pos m * 2 ^ (e + 1074))
      by (apply Z.mul_pos_pos; [lia|apply Z.pow_pos_nonneg; lia]).
    cbn [SFord]. destruct s; unfold cond_Zopp; simpl SF64sub;
      symmetry; [apply Z.ltb_ge|apply Z.ltb_lt]; lia.
  - destruct (valid_finite _ _ _ Vx) as [Ex [Mx _]].
    pose proof (finite_below_infinity m e Mx Ex).
    assert (0 < Z.pos m * 2 ^ (e + 1074))
      by (apply Z.mul_pos_pos; [lia|apply Z.pow_pos_nonneg; lia]).
    cbn [SFord]. destruct s, s'; unfold cond_Zopp; simpl SF64sub;
      symmetry; try (apply Z.ltb_ge; lia); apply Z.ltb_lt; lia.
  - destruct (valid_finite _ _ _ Vx) as [Ex _].
    destruct (valid_finite _ _ _ Vy) as [Ey _].
    rewrite (SFord_aligned s m e (Z.min e e')) by lia.
    rewrite (SFord_aligned s' m' e' (Z.min e e')) by lia.
    unfold SF64sub. cbn [SFsub].
    set (a := cond_Zopp s (Z.pos (fst (shl_align m e (Z.min e e'))))).
    set (b := cond_Zopp s' (Z.pos (fst (shl_align m' e' (Z.min e e'))))).
    assert (Q : 0 < 2 ^ (Z.min e e' + 1074))
      by (apply Z.pow_pos_nonneg; lia).
    destruct (a - b) as [|p|p] eqn:D; cbn [binary_normalize].
    + symmetry. apply Z.ltb_ge. assert (a = b) by lia. subst. lia.
    + rewrite (SFltb_zero_nonzero false)
        by (apply Nonzero.round_nonzero; lia).
      symmetry. apply Z.ltb_lt. apply Z.mul_lt_mono_pos_r; [exact Q|lia].
    + rewrite (SFltb_zero_nonzero true)
        by (apply Nonzero.round_nonzero; lia).
      symmetry. apply Z.ltb_ge. apply Z.mul_le_mono_nonneg_r; lia.
Qed.

(** ** On primitive floats *)

Local Open Scope float_scope.

Lemma compare_ord x y :
  PrimFloat.is_nan x = false -> PrimFloat.is_nan y = false ->
  SFcompare (Prim2SF x) (Prim2SF y) = Some (ord x ?= ord y)%Z.
Proof.
  rewrite !F64.is_nan_spec. intros. apply SFcompare_ord;
    auto using Prim2SF_valid.
Qed.

Lemma ltb_ord x y :
  PrimFloat.is_nan x = false -> PrimFloat.is_nan y = false ->
  (x <? y) = (ord x <? ord y)%Z.
Proof.
  intros Hx Hy. rewrite ltb_spec. unfold SFltb, Z.ltb.
  now rewrite (compare_ord x y Hx Hy).
Qed.

Lemma leb_ord x y :
  PrimFloat.is_nan x = false -> PrimFloat.is_nan y = false ->
  (x <=? y) = (ord x <=? ord y)%Z.
Proof.
  intros Hx Hy. rewrite leb_spec. unfold SFleb, Z.leb.
  now rewrite (compare_ord x y Hx Hy).
Qed.

Lemma eqb_ord x y :
  PrimFloat.is_nan x = false -> PrimFloat.is_nan y = false ->
  (x =? y) = (ord x =? ord y)%Z.
Proof.
  intros Hx Hy. rewrite eqb_spec, Z.eqb_compare. unfold SFeqb.
  now rewrite (compare_ord x y Hx Hy).
Qed.

Lemma eqb_nan_r x y : PrimFloat.is_nan y = true -> (x =? y) = false.
Proof.
  rewrite F64.is_nan_spec, eqb_spec. unfold SFeqb.
  destruct (Prim2SF y); try discriminate.
  intros _. destruct (Prim2SF x) as [[]|[]| |[] ? ?]; reflexivity.
Qed.

(** The comparator [a - b], read by [SortCompare], is positive exactly
    when [b < a]. *)
Lemma sub_positive x y :
  PrimFloat.is_nan x = false -> PrimFloat.is_nan y = false ->
  (0 <? (if PrimFloat.is_nan (x - y) then 0 else x - y))
  = (ord y <? ord x)%Z.
Proof.
  intros Hx Hy.
  assert (E : (0 <? x - y) = (ord y <? ord x)%Z).
  { rewrite ltb_spec, sub_spec. rewrite F64.is_nan_spec in Hx, Hy.
    apply SFsub_sign; auto using Prim2SF_valid. }
  destruct (PrimFloat.is_nan (x - y)) eqn:N; [|exact E].
  rewrite <- E. rewrite F64.is_nan_spec in N. rewrite !ltb_spec.
  destruct (Prim2SF (x - y)); try discriminate. reflexivity.
Qed.
End Order.

(* ===================================================================== *)
(** * Sorting *)
(* ===================================================================== *)

(** The stable insertion under a comparator that agrees with a relation
    [R] on the elements it is given ([ok]): the result is a permutation,
    sorted for [R], and keeps the order of the elements a predicate [p]
    selects, provided [p] never selects two elements of which the
    comparator puts one strictly after the other. *)
Section SortFacts.
Context {A : Type} (comparefn : A -> A -> float).
Variables (ok : A -> Prop) (R : A -> A -> Prop) (p : A -> bool).
Local Open Scope float_scope.

Hypothesis before_R :
  forall x y, ok x -> ok y -> after comparefn x y = false -> R x y.
Hypothesis after_R :
  forall x y, ok x -> ok y -> after comparefn x y = true -> R y x.
Hypothesis after_p :
  forall x y, ok x -> ok y -> after comparefn x y = true ->
              p x = true -> p y = true -> False.

Lemma sort_cons x l :
  sort comparefn (x :: l) = insert comparefn x (sort comparefn l).
Proof. reflexivity. Qed.

Lemma insert_perm x l : Permutation (insert comparefn x l) (x :: l).
Proof.
  induction l as [|y l IH]; rewrite ?sort_cons; cbn [insert]; [auto|].
  destruct (after comparefn x y); [|auto].
  apply perm_trans with (y :: x :: l); [auto|apply perm_swap].
Qed.

Lemma sort_perm l : Permutation (sort comparefn l) l.
Proof.
  induction l as [|x l IH]; rewrite ?sort_cons; cbn [insert]; [auto|].
  apply perm_trans with (x :: sort comparefn l);
    [apply insert_perm|auto].
Qed.

Lemma sort_ok l : Forall ok l -> Forall ok (sort comparefn l).
Proof.
  intros H. rewrite Forall_forall in *. intros x Hx. apply H.
  apply Permutation_in with (sort comparefn l); [apply sort_perm|exact Hx].
Qed.

Lemma insert_hd x y l z :
  ok x -> ok y -> Forall ok l ->
  R z x -> HdRel R z (y :: l) -> HdRel R z (insert comparefn x (y :: l)).
Proof.
  intros Hx Hy Hl Hzx Hz. cbn [insert].
  destruct (after comparefn x y); constructor; [now inversion Hz|assumption].
Qed.

Lemma insert_sorted x l :
  ok x -> Forall ok l -> Sorted R l -> Sorted R (insert comparefn x l).
Proof.
  intros Hx Hl Hs. induction l as [|y l IH]; cbn [insert].
  - repeat constructor.
  - destruct (after comparefn x y) eqn:E.
    + inversion Hl as [|? ? Hy Hl']; subst.
      inversion Hs as [|? ? Hs' Hh]; subst.
      constructor; [apply IH; assumption|].
      destruct l as [|z l].
      * cbn [insert]. constructor. now apply after_R.
      * inversion Hl' as [|? ? Hz Hl'']; subst.
        apply insert_hd; try assumption. now apply after_R.
    + inversion Hl; subst. constructor; [assumption|].
      constructor. now apply before_R.
Qed.

Lemma sort_sorted l : Forall ok l -> Sorted R (sort comparefn l).
Proof.
  induction l as [|x l IH]; intros H; rewrite ?sort_cons; [constructor|].
  inversion H; subst. apply insert_sorted; auto using sort_ok.
Qed.

Lemma insert_filter x l :
  ok x -> Forall ok l ->
  filter p (insert comparefn x l) = filter p (x :: l).
Proof.
  intros Hx Hl. induction l as [|y l IH]; [reflexivity|].
  inversion Hl as [|? ? Hy Hl']; subst.
  cbn [insert]. destruct (after comparefn x y) eqn:E; [|reflexivity].
  simpl filter. simpl filter in IH. rewrite (IH Hl').
  destruct (p x) eqn:Px, (p y) eqn:Py; try reflexivity.
  exfalso. exact (after_p x y Hx Hy E Px Py).
Qed.

Lemma sort_filter l :
  Forall ok l -> filter p (sort comparefn l) = filter p l.
Proof.
  induction l as [|x l IH]; intros H; [reflexivity|].
  inversion H; subst. rewrite ?sort_cons.
  rewrite insert_filter by auto using sort_ok.
  simpl. now rewrite IH.
Qed.
End SortFacts.

Section SortedListing.
Import JS Rules Aux.
Local Open Scope float_scope.

(** On numbers, [byDistance] orders as [<=] does. *)
Lemma byDistance_after a b :
  isNaN (distance a) = false -> isNaN (distance b) = false ->
  after byDistance a b = (ord (distance b) <? ord (distance a))%Z.
Proof. intros Ha Hb. unfold after. now apply Order.sub_positive. Qed.

Lemma ranked_sorted (l : list RankedSchool) :
  Forall (fun r => isNaN (distance r) = false) l ->
  Sorted (fun a b => (distance a <=? distance b) = true) (sort byDistance l).
Proof.
  apply sort_sorted; intros x y Hx Hy; rewrite (byDistance_after x y Hx Hy);
    intros H.
  - rewrite (Order.leb_ord _ _ Hx Hy). apply Z.leb_le. apply Z.ltb_ge in H.
    exact H.
  - rewrite (Order.leb_ord _ _ Hy Hx). apply Z.leb_le. apply Z.ltb_lt in H.
    lia.
Qed.

Lemma ranked_stable (l : list RankedSchool) d :
  Forall (fun r => isNaN (distance r) = false) l ->
  filter (fun r => distance r =? d) (sort byDistance l)
  = filter (fun r => distance r =? d) l.
Proof.
  apply sort_filter. intros x y Hx Hy.
  rewrite (byDistance_after x y Hx Hy). intros H Px Py.
  destruct (PrimFloat.is_nan d) eqn:Nd.
  - rewrite Order.eqb_nan_r in Px by exact Nd. discriminate.
  - rewrite (Order.eqb_ord _ _ Hx Nd) in Px.
    rewrite (Order.eqb_ord _ _ Hy Nd) in Py.
    apply Z.eqb_eq in Px, Py. apply Z.ltb_lt in H. lia.
Qed.

(** X22.  For a valid query point and a table whose distances are all
    numbers, the schools of the listing response are sorted non-decreasing
    by [distance], and the schools at any one distance appear in the order
    the table has them: the sort is stable. *)
Theorem listing_sorted_and_stable (sin cos : float -> float)
    (atan2 : float -> float -> float) (query : Query.t) (env : Env)
    (db : Db) :
  let lat := parseFloat (Query.latitude query) in
  let lon := parseFloat (Query.longitude query) in
  let computed := map (withDistance sin cos atan2 lat lon) (rows db) in
  validPoint lat lon = true ->
  fault env = false ->
  Forall (fun r => isNaN (distance r) = false) computed ->
  exists ranked,
    run env (listSchools sin cos atan2 query) db
    = ({| status := 200; body := Listing (List.length ranked) ranked |}, db)
    /\ Sorted (fun a b => (distance a <=? distance b) = true) ranked
    /\ (forall d, filter (fun r => distance r =? d) ranked
                  = filter (fun r => distance r =? d) computed)
    /\ Permutation ranked computed.
Proof.
  intros lat lon computed V F N.
  exists (sort byDistance computed).
  destruct (HandlerFacts.listSchools_accepts sin cos atan2 query V)
    as [k [-> Hk]].
  simpl run. rewrite F, Hk. cbv zeta. fold lat lon computed.
  repeat split.
  - now apply ranked_sorted.
  - intros d. now apply ranked_stable.
  - apply sort_perm.
Qed.
End SortedListing.

Lemma listing_sorted_and_stable_witness :
  exists ranked,
    run Sample.env
        (listSchools Sample.sin Sample.cos Sample.atan2
           (Sample.query "45" "-122")) Sample.seeded
    = ({| status := 200; body := Listing (List.length ranked) ranked |},
       Sample.seeded)
    /\ map (fun r => School.id (school r)) ranked = [2%Z; 1%Z].
Proof.
  destruct (listing_sorted_and_stable Sample.sin Sample.cos Sample.atan2
              (Sample.query "45" "-122") Sample.env Sample.seeded
              eq_refl eq_refl)
    as [ranked [E [S [_ P]]]].
  - repeat constructor.
  - exists ranked. split; [exact E|].
    vm_compute in E. injection E as E1 E2. subst ranked. reflexivity.
Defined.

(* ===================================================================== *)
(** * Printing with [toFixed] and reading back *)
(* ===================================================================== *)

Module FixedFacts.
Import JS Fixed.
Local Open Scope string_scope.
Local Open Scope Z_scope.

Lemma digit_digit_char d : 0 <= d <= 9 -> digit (digit_char d) = Some d.
Proof.
  intros H.
  assert (C : d = 0 \/ d = 1 \/ d = 2 \/ d = 3 \/ d = 4 \/ d = 5 \/ d = 6
              \/ d = 7 \/ d = 8 \/ d = 9) by lia.
  repeat (destruct C as [->|C]; [reflexivity|]). now subst.
Qed.

Lemma length_fixed_digits w n : String.length (fixed_digits w n) = w.
Proof. induction w; simpl; congruence. Qed.

(** Reading the [w] digits [fixed_digits w n] prints appends them to the
    accumulator. *)
Lemma read_fixed_digits w : forall n t acc cnt,
  read_digits (fixed_digits w n ++ t) acc cnt
  = read_digits t (acc * 10 ^ Z.of_nat w + n mod 10 ^ Z.of_nat w)
                (cnt + Z.of_nat w).
Proof.
  induction w as [|w IH]; intros n t acc cnt.
  - simpl fixed_digits. simpl append. f_equal; [|simpl; lia].
    change (10 ^ Z.of_nat 0) with 1. rewrite Z.mod_1_r. lia.
  - cbn [fixed_digits append read_digits].
    rewrite digit_digit_char
      by (pose proof (Z.mod_pos_bound (n / 10 ^ Z.of_nat w) 10); lia).
    rewrite IH. f_equal; [|lia].
    rewrite Nat2Z.inj_succ, Z.pow_succ_r by lia.
    set (P := 10 ^ Z.of_nat w).
    assert (HP : 0 < P) by (apply Z.pow_pos_nonneg; lia).
    rewrite (Z.mul_comm 10 P), (Z.rem_mul_r n P 10) by lia. ring.
Qed.

Lemma fixed_digits_app a b n :
  fixed_digits (a + b) n
  = fixed_digits a (n / 10 ^ Z.of_nat b) ++ fixed_digits b n.
Proof.
  induction a as [|a IH]; [reflexivity|].
  cbn [Nat.add fixed_digits append]. rewrite IH. f_equal.
  rewrite Z.div_div by (try apply Z.pow_pos_nonneg; lia).
  rewrite <- Z.pow_add_r by lia.
  now replace (Z.of_nat b + Z.of_nat a) with (Z.of_nat (a + b)) by lia.
Qed.

Lemma zeros_fixed_digits k : zeros k = fixed_digits k 0.
Proof.
  induction k as [|k IH]; [reflexivity|]. simpl. rewrite IH.
  now rewrite Z.div_0_l by (apply Z.pow_nonzero; lia).
Qed.

Lemma fixed_digits_small w n :
  0 <= n < 10 ^ Z.of_nat w -> forall k,
  fixed_digits (k + w) n = zeros k ++ fixed_digits w n.
Proof.
  intros H k. rewrite fixed_digits_app, zeros_fixed_digits.
  now rewrite Z.div_small.
Qed.

Lemma substring_prefix a b : substring 0 (String.length a) (a ++ b) = a.
Proof.
  induction a as [|c a IH]; simpl.
  - now destruct b.
  - now rewrite IH.
Qed.

Lemma substring_suffix a b :
  substring (String.length a) (String.length b) (a ++ b) = b.
Proof.
  induction a as [|c a IH]; simpl; [|exact IH].
  clear. induction b as [|c b IH]; simpl; [reflexivity|now rewrite IH].
Qed.

(** The search for the width ends on a width that fits. *)
Lemma width_from_fits fuel : forall n w,
  0 <= n < 10 ^ Z.of_nat (w + fuel) ->
  n < 10 ^ Z.of_nat (width_from fuel n w).
Proof.
  induction fuel as [|fuel IH]; intros n w H; simpl.
  - now rewrite Nat.add_0_r in H.
  - destruct (n <? 10 ^ Z.of_nat w) eqn:E; [now apply Z.ltb_lt|].
    apply IH. now replace (S w + fuel)%nat with (w + S fuel)%nat by lia.
Qed.

Lemma width_from_ge fuel : forall n w, (w <= width_from fuel n w)%nat.
Proof.
  induction fuel as [|fuel IH]; intros n w; simpl; [lia|].
  destruct (n <? 10 ^ Z.of_nat w); [lia|].
  specialize (IH n (S w)). lia.
Qed.

Lemma decimal_width_fits n :
  0 <= n -> n < 10 ^ Z.of_nat (decimal_width n) /\ (1 <= decimal_width n)%nat.
Proof.
  intros H. unfold decimal_width. split; [|apply width_from_ge].
  apply width_from_fits. split; [lia|].
  destruct (Z.eq_dec n 0) as [->|N]; [now apply Z.pow_pos_nonneg; lia|].
  pose proof (Z.log2_spec n ltac:(lia)) as [_ L].
  apply Z.lt_le_trans with (2 ^ Z.succ (Z.log2 n)); [exact L|].
  rewrite Nat2Z.inj_add, Z2Nat.id by apply Z.log2_nonneg.
  replace (Z.of_nat 1 + Z.log2 n) with (Z.succ (Z.log2 n)) by lia.
  apply Z.pow_le_mono_l. lia.
Qed.

(** With two fraction digits, [point] prints the hundreds and above, a
    point, and the last two digits. *)
Lemma point_two n :
  0 <= n ->
  exists w, (1 <= w)%nat /\ n / 100 < 10 ^ Z.of_nat w
    /\ point n 2 = fixed_digits w (n / 100) ++ "." ++ fixed_digits 2 n.
Proof.
  intros Hn. destruct (decimal_width_fits n Hn) as [F W].
  unfold point, decimal_digits. rewrite length_fixed_digits.
  set (k := decimal_width n) in *. cbn [Nat.eqb].
  set (m := if (k <=? 2)%nat then zeros (2 + 1 - k) ++ fixed_digits k n
            else fixed_digits k n).
  set (k' := if (k <=? 2)%nat then (2 + 1)%nat else k).
  assert (Hk' : (3 <= k')%nat /\ m = fixed_digits k' n /\ (k <= k')%nat).
  { unfold k', m. destruct (k <=? 2)%nat eqn:E.
    - apply Nat.leb_le in E. repeat split; try lia.
      rewrite <- (fixed_digits_small k n) by lia. f_equal. lia.
    - apply Nat.leb_gt in E. repeat split; lia. }
  destruct Hk' as [K3 [-> Kk]].
  exists (k' - 2)%nat. split; [lia|]. split.
  - apply Z.div_lt_upper_bound; [lia|].
    change 100 with (10 ^ Z.of_nat 2). rewrite <- Z.pow_add_r by lia.
    apply Z.lt_le_trans with (10 ^ Z.of_nat k); [lia|].
    apply Z.pow_le_mono_r; lia.
  - replace k' with ((k' - 2) + 2)%nat at 2 4 by lia.
    rewrite fixed_digits_app. change (10 ^ Z.of_nat 2) with 100.
    set (a := fixed_digits (k' - 2) (n / 100)).
    set (b := fixed_digits 2 n).
    assert (La : String.length a = (k' - 2)%nat)
      by apply length_fixed_digits.
    assert (Lb : String.length b = 2%nat) by apply length_fixed_digits.
    rewrite <- La at 1 2. rewrite <- Lb at 1.
    now rewrite substring_prefix, substring_suffix.
Qed.

Lemma append_empty s : s ++ "" = s.
Proof. induction s as [|c s IH]; simpl; congruence. Qed.

(** Reading back what [point] printed with two fraction digits gives the
    Number nearest to [n / 100]. *)
Lemma read_unsigned_point neg n :
  0 <= n -> read_unsigned neg (point n 2) = dec2float neg n (-2).
Proof.
  intros Hn. destruct (point_two n Hn) as [w [W [Q ->]]].
  destruct w as [|w]; [lia|].
  unfold read_unsigned.
  assert (Hp : String.prefix "Infinity"
                 (fixed_digits (S w) (n / 100) ++ "." ++ fixed_digits 2 n)
               = false).
  { cbn [fixed_digits append].
    set (c := digit_char _).
    assert (Hc : exists v, digit c = Some v).
    { eexists. apply digit_digit_char.
      pose proof (Z.mod_pos_bound (n / 100 / 10 ^ Z.of_nat w) 10). lia. }
    destruct Hc as [v Hv].
    change (String.prefix "Infinity" (String c ?r))
      with (if ascii_dec "I" c then String.prefix "nfinity" r else false).
    destruct (ascii_dec "I" c) as [E|]; [|reflexivity].
    rewrite <- E in Hv. vm_compute in Hv. discriminate. }
  rewrite Hp. rewrite read_fixed_digits.
  cbn [append read_digits]. change (digit ".") with (@None Z). cbv iota.
  change (Ascii.eqb "." ".") with true. cbv iota.
  rewrite <- (append_empty (fixed_digits 2 n)) at 1.
  rewrite read_fixed_digits. cbn [read_digits].
  change (read_exponent "") with 0.
  replace ((0 + Z.of_nat (S w) =? 0) && (0 + Z.of_nat 2 =? 0)) with false
    by (symmetry; apply andb_false_intro1, Z.eqb_neq; lia).
  f_equal; try reflexivity.
  rewrite (Z.mod_small (n / 100)) by (split; [apply Z.div_pos; lia|lia]).
  change (10 ^ Z.of_nat 2) with 100.
  pose proof (Z.div_mod n 100 ltac:(lia)). lia.
Qed.

Lemma point_head n :
  0 <= n -> exists c v r, point n 2 = String c r /\ digit c = Some v.
Proof.
  intros Hn. destruct (point_two n Hn) as [w [W [Q ->]]].
  destruct w as [|w]; [lia|]. cbn [fixed_digits append].
  do 3 eexists. split; [reflexivity|]. apply digit_digit_char.
  pose proof (Z.mod_pos_bound (n / 100 / 10 ^ Z.of_nat w) 10). lia.
Qed.

(** [parseFloat] of an unsigned and of a negated [toFixed(2)] output. *)
Lemma parseFloatStr_point n :
  0 <= n -> parseFloatStr (point n 2) = dec2float false n (-2).
Proof.
  intros Hn. destruct (point_head n Hn) as [c [v [r [E Hv]]]].
  unfold parseFloatStr. rewrite E, (ParseFacts.trimStart_digit c v r Hv).
  unfold read_sign.
  rewrite (ParseFacts.digit_not c v "-" Hv), (ParseFacts.digit_not c v "+" Hv)
    by (vm_compute; left; reflexivity).
  rewrite <- E. now apply read_unsigned_point.
Qed.

Lemma parseFloatStr_minus_point n :
  0 <= n -> parseFloatStr ("-" ++ point n 2) = dec2float true n (-2).
Proof.
  intros Hn. unfold parseFloatStr.
  assert (T : forall r, trimStart (String "-" r) = String "-" r)
    by (intros [|c2 [|c3 r]]; reflexivity).
  cbn [append]. rewrite T. cbn [read_sign].
  change (Ascii.eqb "-" "-") with true. cbv iota.
  now apply read_unsigned_point.
Qed.
End FixedFacts.

(* ===================================================================== *)
(** * Rounding to hundredths *)
(* ===================================================================== *)

Module Rounding.
Import JS Fixed Aux.
Local Open Scope Z_scope.

(** Rounding keeps a non-negative mantissa's sign and never gives
    [NaN]. *)
Lemma round_aux_signed s m e l :
  0 <= m -> SFsigned s (binary_round_aux prec emax s m e l).
Proof.
  intros Hm. unfold binary_round_aux, shr_fexp.
  destruct (Magnitude.shr_spec (shr_record_of_loc m l) e
              (fexp prec emax (Zdigits2 m + e) - e)) as [E1 _].
  { rewrite Magnitude.shr_record_m. exact Hm. }
  rewrite Magnitude.shr_record_m in E1.
  destruct (shr (shr_record_of_loc m l) e _) as [mrs1 e1]. cbn [fst] in E1.
  pose proof (Magnitude.round_nearest_even_range (shr_m mrs1)
                (loc_of_shr_record mrs1)) as R.
  set (m1 := round_nearest_even (shr_m mrs1) (loc_of_shr_record mrs1)) in *.
  assert (H1 : 0 <= m1).
  { rewrite E1 in R. apply Z.le_trans with (m / 2 ^ Z.max 0
      (fexp prec emax (Zdigits2 m + e) - e)); [|lia].
    apply Z.div_pos; [lia|apply Z.pow_pos_nonneg; lia]. }
  destruct (Magnitude.shr_spec (shr_record_of_loc m1 loc_Exact) e1
              (fexp prec emax (Zdigits2 m1 + e1) - e1)) as [E2 _].
  { simpl. exact H1. }
  simpl shr_m in E2 at 2.
  destruct (shr (shr_record_of_loc m1 loc_Exact) e1 _) as [mrs2 e2].
  cbn [fst] in E2.
  assert (H2 : 0 <= shr_m mrs2).
  { rewrite E2. apply Z.div_pos; [lia|apply Z.pow_pos_nonneg; lia]. }
  destruct (shr_m mrs2) as [|p|p]; simpl; try reflexivity; [|lia].
  destruct (e2 <=? _); reflexivity.
Qed.

Lemma round_signed s m e : SFsigned s (binary_round prec emax s m e).
Proof.
  unfold binary_round. destruct (shl_align m e _) as [mz ez].
  apply round_aux_signed. lia.
Qed.

Lemma SFopp_signed s x : SFsigned s x -> SFsigned (negb s) (SFopp x).
Proof. destruct x; simpl; congruence. Qed.

(** [SF2Prim] gives a number of the sign it is asked for. *)
Lemma SF2Prim_signed s r :
  SFsigned s r -> SFsigned s (Prim2SF (SF2Prim r)).
Proof.
  destruct r as [s'|s'| |s' m e]; simpl; try tauto; intros <-.
  - now destruct s'.
  - now destruct s'.
  - assert (F : SFsigned false
                  (Prim2SF (Z.ldexp (of_uint63 (Uint63Axioms.of_Z (Z.pos m)))
                                    e))).
    { rewrite Z_ldexp_spec, of_uint63_spec.
      pose proof (Uint63.to_Z_bounded (Uint63Axioms.of_Z (Z.pos m))) as B.
      destruct (Uint63Axioms.to_Z _) as [|p|p]; simpl; try lia; try reflexivity.
      pose proof (round_signed false p 0) as S.
      destruct (binary_round prec emax false p 0) as [s1|s1| |s1 m1 e1];
        simpl in *; try assumption.
      subst s1. apply round_signed. }
    destruct s'; [|exact F].
    rewrite opp_spec. now apply (SFopp_signed false).
Qed.

Lemma signed_nonneg x :
  SFsigned false (Prim2SF x) -> (0 <=? x)%float = true.
Proof.
  rewrite leb_spec. change (Prim2SF 0) with (S754_zero false).
  destruct (Prim2SF x) as [s|s| |s m e]; simpl; try tauto; now intros ->.
Qed.

Lemma signed_not_nan s x :
  SFsigned s (Prim2SF x) -> PrimFloat.is_nan x = false.
Proof.
  rewrite F64.is_nan_spec. destruct (Prim2SF x); simpl; tauto.
Qed.

(** The Number of a non-negative decimal is a non-negative number. *)
Lemma dec2float_signed neg m e10 :
  SFsigned neg (Prim2SF (dec2float neg m e10)).
Proof.
  unfold dec2float. destruct (m <=? 0) eqn:M; [now destruct neg|].
  apply Z.leb_gt in M.
  destruct (0 <=? e10) eqn:E10.
  - apply SF2Prim_signed, round_signed.
  - apply Z.leb_gt in E10. unfold SFdiv_core_binary.
    set (s := 0 - 0 - _).
    set (m' := match s with
               | Z.pos _ => Z.shiftl m s
               | 0 => m
               | Z.neg _ => 0
               end).
    assert (Hm' : 0 <= m').
    { unfold m'. destruct s; try lia. apply Z.shiftl_nonneg. lia. }
    assert (P : 0 < 10 ^ (- e10)) by (apply Z.pow_pos_nonneg; lia).
    pose proof (Z_div_mod m' (10 ^ (- e10)) ltac:(lia)) as DM.
    destruct (Z.div_eucl m' (10 ^ (- e10))) as [q r].
    destruct DM as [DM R].
    apply SF2Prim_signed, round_aux_signed.
    destruct (Z_lt_le_dec q 0); [exfalso; nia|assumption].
Qed.

(** ** The nearest hundredth *)

(** [scaled m e 2] is an integer [n] for which [n / 100] is as close to
    [m * 2^e] as possible, and the larger one when there are two. *)
Lemma scaled_nearest m e j :
  0 < m ->
  gap m e (scaled m e 2) <= gap m e j
  /\ (gap m e (scaled m e 2) = gap m e j -> j <= scaled m e 2).
Proof.
  intros Hm. unfold gap, scaled. change (10 ^ Z.of_nat 2) with 100.
  destruct (0 <=? e) eqn:E.
  - split; lia.
  - apply Z.leb_gt in E.
    set (P := 2 ^ (- e)).
    assert (HP : 0 < P) by (apply Z.pow_pos_nonneg; lia).
    replace (2 ^ (- e + 1)) with (2 * P)
      by (unfold P; rewrite Z.pow_add_r by lia; lia).
    set (A := m * 100). replace (2 * m * 100) with (2 * A) by (unfold A; lia).
    set (n := (2 * A + P) / (2 * P)).
    pose proof (Z.mul_div_le (2 * A + P) (2 * P) ltac:(lia)) as L.
    pose proof (Z.mul_succ_div_gt (2 * A + P) (2 * P) ltac:(lia)) as U.
    fold n in L, U.
    destruct (Z_lt_le_dec j n) as [J|J].
    + assert (j * P <= n * P - P) by nia. split; lia.
    + destruct (Z.eq_dec j n) as [->|N]; [split; lia|].
      assert (n * P + P <= j * P) by nia. split; lia.
Qed.

(** ** Non-negative numbers below [10^21] *)

Local Open Scope float_scope.

Lemma ord_1e21 : ord 1e21 = (10 ^ 21 * 2 ^ 1074)%Z.
Proof. vm_compute. reflexivity. Qed.

(** A number in [0, 10^21) is a zero or a positive finite number that
    [toFixed] spells out. *)
Lemma below_huge x :
  (0 <=? x) = true -> (x <? 1e21) = true ->
  (exists s, Prim2SF x = S754_zero s)
  \/ exists m e, Prim2SF x = S754_finite false m e
                 /\ huge (Z.pos m) e = false.
Proof.
  intros H0 H1.
  assert (N : PrimFloat.is_nan x = false).
  { rewrite F64.is_nan_spec. rewrite leb_spec in H0.
    destruct (Prim2SF x); try reflexivity. discriminate. }
  rewrite (Order.ltb_ord x 1e21 N eq_refl), ord_1e21 in H1.
  apply Z.ltb_lt in H1. unfold ord in H1.
  rewrite leb_spec in H0. pose proof (Prim2SF_valid x) as V.
  destruct (Prim2SF x) as [s|s| |s m e]; try discriminate.
  - left. eauto.
  - exfalso. destruct s; [discriminate|].
    cbn [SFord cond_Zopp] in H1.
    assert (2 ^ 1144 <= 2 ^ 2100) by (apply Z.pow_le_mono_r; lia).
    assert (10 ^ 21 * 2 ^ 1074 < 2 ^ 1144) by (vm_compute; reflexivity).
    lia.
  - right. destruct s; [discriminate|]. exists m, e. split; [reflexivity|].
    destruct (Order.valid_finite _ _ _ V) as [Ee _].
    cbn [SFord cond_Zopp] in H1. unfold huge.
    destruct (0 <=? e)%Z eqn:E.
    + apply Z.leb_le in E. apply Z.leb_gt.
      rewrite Z.pow_add_r in H1 by lia.
      rewrite Z.mul_assoc in H1.
      apply Z.mul_lt_mono_pos_r in H1; [exact H1|].
      apply Z.pow_pos_nonneg; lia.
    + apply Z.leb_gt in E. apply Z.leb_gt.
      replace 1074%Z with (- e + (e + 1074))%Z in H1 at 2 by lia.
      rewrite (Z.pow_add_r 2 (- e) (e + 1074)) in H1 by lia.
      rewrite Z.mul_assoc in H1.
      apply Z.mul_lt_mono_pos_r in H1; [exact H1|].
      apply Z.pow_pos_nonneg; lia.
Qed.
End Rounding.

(* ===================================================================== *)
(** * The raw distance is not negative *)
(* ===================================================================== *)

Module Nonneg.
Import JS Aux.
Local Open Scope float_scope.

(** Non-negative in the sense of [0 <= x]: a zero of either sign, a
    positive finite number or [+infinity]. *)
Lemma nonneg_spec x :
  (0 <=? x) = true <->
  match Prim2SF x with
  | S754_zero _ | S754_finite false _ _ | S754_infinity false => True
  | _ => False
  end.
Proof.
  rewrite leb_spec. change (Prim2SF 0) with (S754_zero false).
  destruct (Prim2SF x) as [s|[]| |[] m e]; simpl; intuition discriminate.
Qed.

Lemma signed_nonneg_spec x :
  SFsigned false x ->
  match x with
  | S754_zero _ | S754_finite false _ _ | S754_infinity false => True
  | _ => False
  end.
Proof. destruct x as [s|s| |s m e]; simpl; try tauto; now intros ->. Qed.

(** [Math.sqrt] returns [NaN] or a non-negative number. *)
Lemma sqrt_nonneg x :
  PrimFloat.is_nan (PrimFloat.sqrt x) = true
  \/ (0 <=? PrimFloat.sqrt x) = true.
Proof.
  rewrite F64.is_nan_spec, nonneg_spec, sqrt_spec.
  destruct (Prim2SF x) as [s|[]| |[] m e]; simpl; auto.
  right. unfold SF64sqrt. cbn [SFsqrt]. unfold SFsqrt_core_binary.
  set (m' := match (_ - _)%Z with
             | Z.pos p => _
             | 0%Z => Z.pos m
             | Z.neg _ => 0%Z
             end).
  assert (Hm' : (0 <= m')%Z).
  { unfold m'. destruct (_ - _)%Z; try lia. apply Z.shiftl_nonneg. lia. }
  pose proof (Z.sqrtrem_spec m' Hm') as S.
  destruct (Z.sqrtrem m') as [q r].
  apply signed_nonneg_spec, Rounding.round_aux_signed. lia.
Qed.

(** A product of non-negative numbers is [NaN] or non-negative. *)
Lemma mul_nonneg x y :
  (0 <=? x) = true -> (0 <=? y) = true ->
  PrimFloat.is_nan (x * y) = true \/ (0 <=? x * y) = true.
Proof.
  rewrite F64.is_nan_spec, !nonneg_spec, mul_spec.
  destruct (Prim2SF x) as [s|[]| |[] m e]; try tauto;
    destruct (Prim2SF y) as [s'|[]| |[] m' e']; try tauto; simpl; auto.
  intros _ _. right. unfold SF64mul. cbn [SFmul xorb].
  apply signed_nonneg_spec, Rounding.round_aux_signed. lia.
Qed.

Lemma mul_nan_r x y :
  PrimFloat.is_nan y = true -> PrimFloat.is_nan (x * y) = true.
Proof.
  rewrite !F64.is_nan_spec, mul_spec.
  destruct (Prim2SF y); try discriminate. intros _.
  now destruct (Prim2SF x).
Qed.

(** A number between [0] and a positive finite bound is zero or finite,
    with an exponent no larger than the bound's. *)
Lemma nonneg_leb_small B hi x mh eh :
  Prim2SF hi = S754_finite false mh eh -> (eh <= B)%Z ->
  (0 <=? x) = true -> (x <=? hi) = true -> small B x.
Proof.
  intros Hhi HB H0. apply nonneg_spec in H0. unfold small.
  rewrite leb_spec, Hhi. unfold SFleb.
  destruct (Prim2SF x) as [s|[]| |[] m e]; try tauto; simpl;
    try discriminate.
  intros H. destruct (e ?= eh)%Z eqn:E; try discriminate; clear H.
  - apply Z.compare_eq in E. lia.
  - change (e < eh)%Z in E. lia.
Qed.

(** A non-negative number with a small exponent is below [10^21]. *)
Lemma small_below_1e21 x :
  small (-33) x -> (0 <=? x) = true -> (x <? 1e21) = true.
Proof.
  intros S H0.
  assert (N : PrimFloat.is_nan x = false).
  { rewrite F64.is_nan_spec. apply nonneg_spec in H0.
    destruct (Prim2SF x); tauto. }
  rewrite (Order.ltb_ord x 1e21 N eq_refl), Rounding.ord_1e21.
  apply Z.ltb_lt. unfold ord. unfold small in S.
  pose proof (Prim2SF_valid x) as V. apply nonneg_spec in H0.
  assert (P : (0 < 10 ^ 21 * 2 ^ 1074)%Z) by (vm_compute; reflexivity).
  destruct (Prim2SF x) as [s|[]| |[] m e]; cbn [SFsmall SFnonneg] in S, H0;
    try tauto; cbn [SFord cond_Zopp].
  destruct (Order.valid_finite _ _ _ V) as [Ee [M _]].
  apply Z.lt_le_trans with (2 ^ 53 * 2 ^ (e + 1074))%Z.
  - apply Z.mul_lt_mono_pos_r; [apply Z.pow_pos_nonneg; lia|exact M].
  - rewrite <- Z.pow_add_r by lia.
    apply Z.le_trans with (2 ^ 1094)%Z;
      [apply Z.pow_le_mono_r; lia|vm_compute; discriminate].
Qed.
End Nonneg.

(* ===================================================================== *)
(** * The distances of a listing *)
(* ===================================================================== *)

Section ListedDistances.
Import JS Rules Aux.
Local Open Scope string_scope.
Local Open Scope float_scope.
Variables (sin cos : float -> float) (atan2 : float -> float -> float).

(** What ECMA-262 says of [Math.atan2] here: it is [NaN] on a [NaN], and
    on two non-negative numbers it approximates an angle of the first
    quadrant, a number between 0 and 4. *)
Hypothesis atan2_nan :
  forall y x, PrimFloat.is_nan y = true \/ PrimFloat.is_nan x = true ->
              PrimFloat.is_nan (atan2 y x) = true.
Hypothesis atan2_range :
  forall y x, (0 <=? y) = true -> (0 <=? x) = true ->
              PrimFloat.is_nan (atan2 y x) = true
              \/ ((0 <=? atan2 y x) = true /\ (atan2 y x <=? 4) = true).

(** A raw distance that is a number is a non-negative number below
    [10^21]. *)
Lemma raw_distance_range lat1 lon1 lat2 lon2 :
  let d := @calculateDistance _ (float_arith sin cos atan2)
             lat1 lon1 lat2 lon2 in
  isNaN d = false -> (0 <=? d) = true /\ (d <? 1e21) = true.
Proof.
  unfold calculateDistance. cbv zeta.
  cbn [lit Math_PI add sub mul div Math_sqrt Math_sin Math_cos Math_atan2
       float_arith].
  change (SF2Prim (binary_normalize prec emax 6371 0 false)) with 6371.
  change (SF2Prim (binary_normalize prec emax 2 0 false)) with 2.
  match goal with
  | |- context [atan2 (PrimFloat.sqrt ?a) (PrimFloat.sqrt ?b)] =>
      pose proof (Nonneg.sqrt_nonneg a) as Sy;
      pose proof (Nonneg.sqrt_nonneg b) as Sx;
      set (y := PrimFloat.sqrt a) in *; set (x := PrimFloat.sqrt b) in *
  end.
  unfold isNaN. intros N.
  assert (Nt : PrimFloat.is_nan (atan2 y x) = false).
  { destruct (PrimFloat.is_nan (atan2 y x)) eqn:E; [|reflexivity].
    rewrite (Nonneg.mul_nan_r 6371 _ (Nonneg.mul_nan_r 2 _ E)) in N.
    discriminate. }
  assert (Hy : (0 <=? y) = true).
  { destruct Sy as [Sy|Sy]; [|exact Sy].
    rewrite (atan2_nan y x (or_introl Sy)) in Nt. discriminate. }
  assert (Hx : (0 <=? x) = true).
  { destruct Sx as [Sx|Sx]; [|exact Sx].
    rewrite (atan2_nan y x (or_intror Sx)) in Nt. discriminate. }
  destruct (atan2_range y x Hy Hx) as [E|[T0 T4]]; [congruence|].
  set (t := atan2 y x) in *.
  assert (St : small (-50) t)
    by (apply (Nonneg.nonneg_leb_small (-50) 4 t _ (-50)%Z eq_refl);
        [lia|assumption|assumption]).
  assert (S2 : small (-47) (2 * t)).
  { apply (Bounds.mul_small (-51) (-50) (-47)); try lia; [|exact St].
    change (SFsmall (-51) (S754_finite false 4503599627370496 (-51))).
    simpl. lia. }
  assert (H2 : (0 <=? 2 * t) = true).
  { destruct (Nonneg.mul_nonneg 2 t eq_refl T0) as [E|E]; [|exact E].
    rewrite F64.is_nan_spec in E. unfold small in S2.
    destruct (Prim2SF (2 * t)); simpl in *; try discriminate; tauto. }
  assert (S3 : small (-33) (6371 * (2 * t))).
  { apply (Bounds.mul_small (-40) (-47) (-33)); try lia; [|exact S2].
    change (SFsmall (-40) (S754_finite false 7004988580560896 (-40))).
    simpl. lia. }
  assert (H3 : (0 <=? 6371 * (2 * t)) = true).
  { destruct (Nonneg.mul_nonneg 6371 (2 * t) eq_refl H2) as [E|E];
      [congruence|exact E]. }
  split; [exact H3|]. now apply Nonneg.small_below_1e21.
Qed.

(** What [toFixed(2)] and [parseFloat] make of a non-negative number
    below [10^21]: the digits of the nearest hundredth with a point before
    the last two, and the Number nearest to that decimal. *)
Lemma rounded_distance d :
  (0 <=? d) = true -> (d <? 1e21) = true ->
  let n := hundredths d in
  (0 <= n)%Z
  /\ Fixed.toFixed d 2 = Spelled (Fixed.point n 2)
  /\ JS.parseFloatString (Fixed.toFixed d 2) = dec2float false n (-2).
Proof.
  intros H0 H1. unfold hundredths, Fixed.toFixed.
  destruct (Rounding.below_huge d H0 H1) as [[s ->]|[m [e [-> ->]]]];
    cbv zeta.
  - split; [lia|]. split; reflexivity.
  - assert (Hn : (0 <= Fixed.scaled (Z.pos m) e 2)%Z).
    { unfold Fixed.scaled. destruct (0 <=? e)%Z eqn:E.
      - apply Z.leb_le in E.
        repeat apply Z.mul_nonneg_nonneg; try lia;
          apply Z.pow_nonneg; lia.
      - apply Z.leb_gt in E. apply Z.div_pos.
        + assert (0 < 2 ^ (- e))%Z by (apply Z.pow_pos_nonneg; lia).
          change (10 ^ Z.of_nat 2)%Z with 100%Z. lia.
        + apply Z.pow_pos_nonneg; lia. }
    repeat split; [exact Hn|]. cbn [JS.parseFloatString append].
    now apply FixedFacts.parseFloatStr_point.
Qed.

(** The schools of a listing response are the rows of the table with
    their distances, sorted. *)
Lemma listing_response query env db count ranked db' :
  run env (listSchools sin cos atan2 query) db
  = ({| status := 200; body := Listing count ranked |}, db') ->
  ranked = sort byDistance
             (map (withDistance sin cos atan2
                     (parseFloat (Query.latitude query))
                     (parseFloat (Query.longitude query))) (rows db)).
Proof.
  unfold listSchools. rewrite HandlerFacts.invalid_coordinates.
  destruct (validPoint _ _); simpl; [|discriminate].
  destruct (fault env); simpl; [discriminate|].
  intros H. injection H as _ H _. symmetry. exact H.
Qed.

Lemma rounded_nan d :
  isNaN (JS.parseFloatString (Fixed.toFixed d 2)) = false -> isNaN d = false.
Proof.
  unfold isNaN. destruct (PrimFloat.is_nan d) eqn:E; [|reflexivity].
  rewrite F64.is_nan_spec in E. unfold Fixed.toFixed.
  destruct (Prim2SF d); discriminate.
Qed.

End ListedDistances.

(* ===================================================================== *)
(** * The routes and the table *)
(* ===================================================================== *)

Module StoreFacts.
Import JS Rules Aux Store.
Local Open Scope string_scope.
Local Open Scope list_scope.
Local Open Scope float_scope.

(** A body that passes validation has a string for a name and for an
    address, and a valid point. *)
Lemma validated_texts body :
  validateSchoolData (schoolData body) = [] ->
  exists n a, Data.name body = JStr n /\ Data.address body = JStr a
              /\ validPoint (parseFloat (Data.latitude body))
                            (parseFloat (Data.longitude body)) = true.
Proof.
  rewrite HandlerFacts.validate_schoolData, !ValidatorFacts.blank_text_ok.
  intros H.
  destruct (text_ok (Data.name body)) eqn:N; [|discriminate].
  destruct (text_ok (Data.address body)) eqn:A; [|discriminate].
  simpl in H. apply HandlerFacts.coordinate_errors_nil in H.
  destruct (Data.name body); try discriminate.
  destruct (Data.address body); try discriminate.
  eauto.
Qed.

Lemma addSchool_accepts body :
  validateSchoolData (schoolData body) = [] ->
  addSchool body =
    Insert (Data.name body) (Data.address body)
           (JNum (parseFloat (Data.latitude body)))
           (JNum (parseFloat (Data.longitude body)))
      (fun result =>
         match result with
         | Returns insertId =>
             Send {| status := 201;
                     body := Created "School added successfully" insertId |}
         | Throws =>
             Send {| status := 500;
                     body := Failure
                       "An error occurred while adding the school" |}
         end).
Proof. intros H. unfold addSchool. rewrite H. reflexivity. Qed.

Lemma run_addSchool body env db :
  run env (addSchool body) db =
    if (0 <? List.length (validateSchoolData (schoolData body)))%nat then
      ({| status := 400;
          body := ValidationFailure (validateSchoolData (schoolData body)) |},
       db)
    else if fault env then
      ({| status := 500;
          body := Failure "An error occurred while adding the school" |}, db)
    else
      ({| status := 201;
          body := Created "School added successfully" (auto_increment db) |},
       {| rows := rows db ++ [row_of env db body];
          auto_increment := (auto_increment db + 1)%Z |}).
Proof.
  unfold addSchool.
  destruct (0 <? List.length (validateSchoolData (schoolData body)))%nat;
    [reflexivity|].
  cbn [run]. destruct (fault env); reflexivity.
Qed.

Lemma run_listSchools sin cos atan2 query env db :
  let lat := parseFloat (Query.latitude query) in
  let lon := parseFloat (Query.longitude query) in
  run env (listSchools sin cos atan2 query) db =
    if negb (validPoint lat lon) then
      ({| status := 400; body := Failure invalid_coordinates_message |}, db)
    else if fault env then
      ({| status := 500;
          body := Failure "An error occurred while retrieving schools" |},
       db)
    else
      let ranked :=
        sort byDistance (map (withDistance sin cos atan2 lat lon) (rows db)) in
      ({| status := 200; body := Listing (List.length ranked) ranked |}, db).
Proof.
  intros lat lon. unfold listSchools.
  rewrite HandlerFacts.invalid_coordinates. fold lat lon.
  destruct (validPoint lat lon); [|reflexivity].
  cbn [negb run]. destruct (fault env); reflexivity.
Qed.

Lemma school_withDistance sin cos atan2 lat lon l :
  map school (map (withDistance sin cos atan2 lat lon) l) = l.
Proof.
  induction l as [|x l IH]; [reflexivity|]. simpl. now rewrite IH.
Qed.
End StoreFacts.

Section StoreTheorems.
Import JS Rules Aux Store.
Local Open Scope string_scope.
Local Open Scope list_scope.
Local Open Scope float_scope.
Variables (sin cos : float -> float) (atan2 : float -> float -> float).

(** X1.  A registration that passes validation, on a store that answers,
    appends exactly one row and answers 201 with the row's id: the id is
    the table's next [AUTO_INCREMENT] value, the name and the address are
    the strings of the request as they came (not trimmed), and the
    coordinates are what [parseFloat] read, as the [FLOAT] columns keep
    them. *)
Theorem registration_stores_the_school (body : Data.t) (env : Env)
    (db : Db) :
  validateSchoolData (schoolData body) = [] ->
  fault env = false ->
  exists name address,
    Data.name body = JStr name /\ Data.address body = JStr address
    /\ run env (addSchool body) db
       = ({| status := 201;
             body := Created "School added successfully"
                             (auto_increment db) |},
          {| rows := rows db ++
                     [{| School.id := auto_increment db;
                         School.name := name;
                         School.address := address;
                         School.latitude :=
                           FLOAT env (parseFloat (Data.latitude body));
                         School.longitude :=
                           FLOAT env (parseFloat (Data.longitude body));
                         School.created_at := now env |}];
             auto_increment := (auto_increment db + 1)%Z |}).
Proof.
  intros Hv Hf.
  destruct (StoreFacts.validated_texts body Hv) as [n [a [En [Ea _]]]].
  exists n, a. repeat split; try assumption.
  rewrite StoreFacts.run_addSchool, Hv, Hf. unfold row_of.
  rewrite En, Ea. reflexivity.
Qed.

(** X2.  When the store fails, a request that passed its checks is
    answered with status 500 and the route's fixed message, and the table
    is left as it was: on both routes. *)
Theorem store_failure_answers_500 (body : Data.t) (query : Query.t)
    (env : Env) (db : Db) :
  fault env = true ->
  (validateSchoolData (schoolData body) = [] ->
   run env (addSchool body) db
   = ({| status := 500;
         body := Failure "An error occurred while adding the school" |},
      db))
  /\ (validPoint (parseFloat (Query.latitude query))
                 (parseFloat (Query.longitude query)) = true ->
      run env (listSchools sin cos atan2 query) db
      = ({| status := 500;
            body := Failure "An error occurred while retrieving schools" |},
         db)).
Proof.
  intros Hf. split.
  - intros Hv. now rewrite StoreFacts.run_addSchool, Hv, Hf.
  - intros Hv. rewrite StoreFacts.run_listSchools. cbv zeta.
    now rewrite Hv, Hf.
Qed.

(** X3.  Whatever the request and the store, a registration never
    changes or removes a row of the table: it answers 400 or 500 and
    leaves the table as it was, or it answers 201 and the table is the old
    one with one row added at the end, whose id is the one sent back. *)
Theorem registration_only_appends (body : Data.t) (env : Env) (db : Db) :
  let response := fst (run env (addSchool body) db) in
  let db' := snd (run env (addSchool body) db) in
  ((status response = 400%Z \/ status response = 500%Z) /\ db' = db)
  \/ (exists row,
        response = {| status := 201;
                      body := Created "School added successfully"
                                      (School.id row) |}
        /\ rows db' = rows db ++ [row]
        /\ School.id row = auto_increment db
        /\ auto_increment db' = (auto_increment db + 1)%Z).
Proof.
  cbv zeta. rewrite StoreFacts.run_addSchool.
  destruct (0 <? List.length (validateSchoolData (schoolData body)))%nat;
    [left; split; [left|]; reflexivity|].
  destruct (fault env); [left; split; [right|]; reflexivity|].
  right. exists (row_of env db body). repeat split.
Qed.

(** X4.  A listing never writes: whatever the query and the store, the
    table after the request is the table before it, and the status is
    200, 400 or 500. *)
Theorem listing_never_writes (query : Query.t) (env : Env) (db : Db) :
  snd (run env (listSchools sin cos atan2 query) db) = db
  /\ let s := status (fst (run env (listSchools sin cos atan2 query) db)) in
     s = 200%Z \/ s = 400%Z \/ s = 500%Z.
Proof.
  rewrite StoreFacts.run_listSchools. cbv zeta.
  destruct (validPoint _ _); cbn [negb]; [|auto].
  destruct (fault env); cbn; auto.
Qed.

(** X5.  A listing for a valid point, on a store that answers, returns
    every row of the table exactly once and nothing else: the schools of
    the response are a permutation of the rows, [count] is the number of
    rows, and each school carries the rounded distance from the query
    point to its own coordinates. *)
Theorem listing_lists_every_school_once (query : Query.t) (env : Env)
    (db : Db) :
  let lat := parseFloat (Query.latitude query) in
  let lon := parseFloat (Query.longitude query) in
  validPoint lat lon = true ->
  fault env = false ->
  exists ranked,
    run env (listSchools sin cos atan2 query) db
    = ({| status := 200;
          body := Listing (List.length (rows db)) ranked |}, db)
    /\ Permutation (map school ranked) (rows db)
    /\ Forall (fun r => r = withDistance sin cos atan2 lat lon (school r))
              ranked.
Proof.
  intros lat lon Hv Hf.
  set (listed := map (withDistance sin cos atan2 lat lon) (rows db)).
  exists (sort byDistance listed).
  assert (P : Permutation (sort byDistance listed) listed)
    by apply sort_perm.
  split; [|split].
  - rewrite StoreFacts.run_listSchools. cbv zeta. fold lat lon.
    rewrite Hv, Hf. cbn [negb]. fold listed.
    rewrite (Permutation_length P). unfold listed. now rewrite length_map.
  - rewrite <- (StoreFacts.school_withDistance sin cos atan2 lat lon (rows db)).
    now apply Permutation_map.
  - apply Forall_forall. intros r Hr.
    apply (Permutation_in _ P), in_map_iff in Hr.
    destruct Hr as [x [<- _]]. reflexivity.
Qed.

(** X6.  A school that was registered is listed: after a registration
    answered 201 with an id, every listing for a valid point has one more
    school than the table had, among them one with that id, the name of
    the request and the coordinates that were stored. *)
Theorem registered_school_is_listed (body : Data.t) (query : Query.t)
    (env : Env) (db : Db) :
  validateSchoolData (schoolData body) = [] ->
  validPoint (parseFloat (Query.latitude query))
             (parseFloat (Query.longitude query)) = true ->
  fault env = false ->
  let db' := snd (run env (addSchool body) db) in
  exists id ranked r,
    fst (run env (addSchool body) db)
    = {| status := 201;
         body := Created "School added successfully" id |}
    /\ run env (listSchools sin cos atan2 query) db'
       = ({| status := 200;
             body := Listing (S (List.length (rows db))) ranked |}, db')
    /\ In r ranked
    /\ School.id (school r) = id
    /\ JStr (School.name (school r)) = Data.name body
    /\ JStr (School.address (school r)) = Data.address body
    /\ School.latitude (school r)
       = FLOAT env (parseFloat (Data.latitude body))
    /\ School.longitude (school r)
       = FLOAT env (parseFloat (Data.longitude body)).
Proof.
  intros Hb Hq Hf db'.
  destruct (StoreFacts.validated_texts body Hb) as [n [a [En [Ea _]]]].
  assert (E : run env (addSchool body) db
              = ({| status := 201;
                    body := Created "School added successfully"
                                    (auto_increment db) |},
                 {| rows := rows db ++ [row_of env db body];
                    auto_increment := (auto_increment db + 1)%Z |}))
    by now rewrite StoreFacts.run_addSchool, Hb, Hf.
  subst db'. rewrite E. cbn [fst snd].
  set (db' := {| rows := _ |}).
  set (lat := parseFloat (Query.latitude query)) in *.
  set (lon := parseFloat (Query.longitude query)) in *.
  set (listed := map (withDistance sin cos atan2 lat lon) (rows db')).
  assert (P : Permutation (sort byDistance listed) listed)
    by apply sort_perm.
  exists (auto_increment db), (sort byDistance listed),
    (withDistance sin cos atan2 lat lon (row_of env db body)).
  split; [reflexivity|]. split; [|split].
  - rewrite StoreFacts.run_listSchools. cbv zeta. fold lat lon.
    rewrite Hq, Hf. cbn [negb]. fold listed.
    rewrite (Permutation_length P). unfold listed.
    rewrite length_map. unfold db'. cbn [rows].
    rewrite length_app. cbn [List.length].
    now rewrite Nat.add_1_r.
  - apply (Permutation_in _ (Permutation_sym P)). unfold listed.
    apply in_map. unfold db'. cbn [rows]. apply in_or_app. right.
    now left.
  - unfold withDistance, row_of. cbn. rewrite En, Ea. repeat split.
Qed.

(** X7.  A field the request does not carry is reported: a registration
    without a name, an address, a latitude or a longitude has that
    field's "required" message among its errors and is answered 400, and
    a listing without a latitude or a longitude is answered 400; neither
    touches the table. *)
Theorem missing_fields_are_reported (body : Data.t) (query : Query.t)
    (env : Env) (db : Db) :
  let errors := validateSchoolData (schoolData body) in
  (Data.name body = JUndefined ->
   In "Name is required and must be a non-empty string" errors)
  /\ (Data.address body = JUndefined ->
      In "Address is required and must be a non-empty string" errors)
  /\ (Data.latitude body = JUndefined ->
      In "Latitude is required and must be a valid number" errors)
  /\ (Data.longitude body = JUndefined ->
      In "Longitude is required and must be a valid number" errors)
  /\ (Data.name body = JUndefined \/ Data.address body = JUndefined
      \/ Data.latitude body = JUndefined
      \/ Data.longitude body = JUndefined ->
      run env (addSchool body) db
      = ({| status := 400; body := ValidationFailure errors |}, db))
  /\ (Query.latitude query = JUndefined
      \/ Query.longitude query = JUndefined ->
      run env (listSchools sin cos atan2 query) db
      = ({| status := 400; body := Failure invalid_coordinates_message |},
         db)).
Proof.
  intros errors.
  assert (E : errors =
    (if blank (Data.name body)
     then ["Name is required and must be a non-empty string"] else [])
    ++ (if blank (Data.address body)
        then ["Address is required and must be a non-empty string"] else [])
    ++ coordinate_errors (parseFloat (Data.latitude body))
                         (parseFloat (Data.longitude body)))
    by apply HandlerFacts.validate_schoolData.
  assert (N : Data.name body = JUndefined ->
              In "Name is required and must be a non-empty string" errors).
  { intros H. rewrite E, H. now left. }
  assert (A : Data.address body = JUndefined ->
              In "Address is required and must be a non-empty string" errors).
  { intros H. rewrite E, H. apply in_or_app. right. now left. }
  assert (La : Data.latitude body = JUndefined ->
               In "Latitude is required and must be a valid number" errors).
  { intros H. rewrite E, H. apply in_or_app. right. apply in_or_app. right.
    unfold coordinate_errors. now left. }
  assert (Lo : Data.longitude body = JUndefined ->
               In "Longitude is required and must be a valid number" errors).
  { intros H. rewrite E, H. apply in_or_app. right. apply in_or_app. right.
    unfold coordinate_errors. apply in_or_app. right. now left. }
  split; [exact N|]. split; [exact A|]. split; [exact La|].
  split; [exact Lo|]. split.
  - intros H. rewrite StoreFacts.run_addSchool. fold errors.
    destruct errors as [|e errors']; [|reflexivity].
    destruct H as [H|[H|[H|H]]]; [destruct (N H)|destruct (A H)
                                  |destruct (La H)|destruct (Lo H)].
  - intros H. rewrite StoreFacts.run_listSchools. cbv zeta.
    assert (V : validPoint (parseFloat (Query.latitude query))
                           (parseFloat (Query.longitude query)) = false).
    { unfold validPoint. destruct H as [H|H]; rewrite H.
      - reflexivity.
      - change (isNaN (parseFloat JUndefined)) with true.
        cbn [negb]. now rewrite andb_false_r. }
    now rewrite V.
Qed.
End StoreTheorems.

Section StoreWitnesses.
Import JS Rules Aux Store.
Local Open Scope string_scope.
Local Open Scope list_scope.
Local Open Scope float_scope.

Lemma registration_stores_the_school_witness :
  fst (run Sample.env (addSchool (Sample.body (JStr "45.5")))
           Sample.seeded)
  = {| status := 201; body := Created "School added successfully" 3 |}.
Proof.
  assert (V : validateSchoolData (schoolData (Sample.body (JStr "45.5")))
              = []) by (vm_compute; reflexivity).
  destruct (registration_stores_the_school (Sample.body (JStr "45.5"))
              Sample.env Sample.seeded V eq_refl) as [n [a [_ [_ E]]]].
  rewrite E. reflexivity.
Defined.

Lemma store_failure_answers_500_witness :
  let env := {| fault := true; now := 0; FLOAT := fun x => x |} in
  run env (addSchool (Sample.body (JStr "45.5"))) Sample.seeded
  = ({| status := 500;
        body := Failure "An error occurred while adding the school" |},
     Sample.seeded).
Proof.
  intros env.
  apply (proj1 (store_failure_answers_500 Sample.sin Sample.cos Sample.atan2
                  (Sample.body (JStr "45.5")) (Sample.query "47.6" "-122.3")
                  env Sample.seeded eq_refl)).
  vm_compute. reflexivity.
Defined.

Lemma listing_lists_every_school_once_witness :
  exists ranked,
    run Sample.env
        (listSchools Sample.sin Sample.cos Sample.atan2
           (Sample.query "47.6" "-122.3")) Sample.seeded
    = ({| status := 200; body := Listing 2 ranked |}, Sample.seeded)
    /\ Permutation (map school ranked) [Sample.seattle; Sample.portland].
Proof.
  assert (V : validPoint (parseFloat (JStr "47.6")) (parseFloat (JStr "-122.3"))
              = true) by (vm_compute; reflexivity).
  destruct (listing_lists_every_school_once Sample.sin Sample.cos
              Sample.atan2 (Sample.query "47.6" "-122.3") Sample.env
              Sample.seeded V eq_refl) as [ranked [E [P _]]].
  exists ranked. split; [exact E|exact P].
Defined.

Lemma registered_school_is_listed_witness :
  let db' := snd (run Sample.env (addSchool (Sample.body (JStr "45.5")))
                      Sample.seeded) in
  exists ranked r,
    run Sample.env
        (listSchools Sample.sin Sample.cos Sample.atan2
           (Sample.query "47.6" "-122.3")) db'
    = ({| status := 200; body := Listing 3 ranked |}, db')
    /\ In r ranked
    /\ School.id (school r) = 3%Z
    /\ School.name (school r) = "Test School".
Proof.
  intros db'.
  assert (B : validateSchoolData (schoolData (Sample.body (JStr "45.5")))
              = []) by (vm_compute; reflexivity).
  assert (V : validPoint (parseFloat (JStr "47.6")) (parseFloat (JStr "-122.3"))
              = true) by (vm_compute; reflexivity).
  destruct (registered_school_is_listed Sample.sin Sample.cos Sample.atan2
              (Sample.body (JStr "45.5")) (Sample.query "47.6" "-122.3")
              Sample.env Sample.seeded B V eq_refl)
    as [id [ranked [r [E1 [E2 [I [Hid [Hn _]]]]]]]].
  exists ranked, r. split; [exact E2|]. split; [exact I|]. split.
  - rewrite Hid. rewrite StoreFacts.run_addSchool, B in E1.
    cbn in E1. now injection E1 as <-.
  - now injection Hn.
Defined.

Lemma missing_fields_are_reported_witness :
  In "Latitude is required and must be a valid number"
     (validateSchoolData (schoolData (Sample.body JUndefined))).
Proof.
  exact (proj1 (proj2 (proj2 (missing_fields_are_reported
                                Sample.sin Sample.cos Sample.atan2
                                (Sample.body JUndefined)
                                (Sample.query "1" "2") Sample.env
                                Sample.seeded))) eq_refl).
Defined.
End StoreWitnesses.

(* ===================================================================== *)
(** * Blank names *)
(* ===================================================================== *)

Module TextFacts.
Import JS Text.
Local Open Scope string_scope.

Lemma visible_ws1 c : visible c = true -> ws1 c = false.
Proof.
  unfold visible. destruct (ws1 c); [|reflexivity].
  rewrite andb_false_r. discriminate.
Qed.

Lemma visible_ws2 c c2 : visible c = true -> ws2 c c2 = false.
Proof.
  unfold visible, ws2. intros H. apply andb_prop in H. destruct H as [H _].
  apply N.ltb_lt in H.
  destruct (byte c =? 194)%N eqn:A; [apply N.eqb_eq in A; lia|reflexivity].
Qed.

Lemma visible_ws3 c c2 c3 : visible c = true -> ws3 c c2 c3 = false.
Proof.
  unfold visible, ws3. intros H. apply andb_prop in H. destruct H as [H _].
  apply N.ltb_lt in H.
  destruct (byte c =? 225)%N eqn:A1; [apply N.eqb_eq in A1; lia|].
  destruct (byte c =? 226)%N eqn:A2; [apply N.eqb_eq in A2; lia|].
  destruct (byte c =? 227)%N eqn:A3; [apply N.eqb_eq in A3; lia|].
  destruct (byte c =? 239)%N eqn:A4; [apply N.eqb_eq in A4; lia|].
  reflexivity.
Qed.

(** Nothing is trimmed before a visible character. *)
Lemma trimStart_visible c r :
  visible c = true -> trimStart (String c r) = String c r.
Proof.
  intros H. cbn [trimStart]. rewrite (visible_ws1 c H).
  destruct r as [|c2 r]; [reflexivity|]. rewrite (visible_ws2 c c2 H).
  destruct r as [|c3 r]; [reflexivity|]. now rewrite (visible_ws3 c c2 c3 H).
Qed.

Lemma ws2_not_visible c1 c2 : ws2 c1 c2 = true -> visible c2 = false.
Proof.
  unfold ws2, visible. intros H. apply andb_prop in H. destruct H as [_ H].
  apply N.eqb_eq in H. rewrite H. reflexivity.
Qed.

Lemma ws3_not_visible c1 c2 c3 :
  ws3 c1 c2 c3 = true -> visible c2 = false /\ visible c3 = false.
Proof.
  unfold ws3, visible. cbv zeta beta iota.
  intros H.
  assert (B : (128 <= byte c2 /\ 128 <= byte c3)%N).
  { repeat (apply orb_prop in H; destruct H as [H|H]);
      repeat (apply andb_prop in H; let H' := fresh in destruct H as [H H']);
      repeat match goal with
             | X : (_ =? _)%N = true |- _ => apply N.eqb_eq in X
             | X : (_ <=? _)%N = true |- _ => apply N.leb_le in X
             | X : (_ || _) = true |- _ =>
                 apply orb_prop in X; destruct X as [X|X]
             | X : (_ && _) = true |- _ =>
                 apply andb_prop in X; let X' := fresh in destruct X as [X X']
             end; lia. }
  destruct B as [B2 B3].
  split; [destruct (byte c2 <? 128)%N eqn:E|destruct (byte c3 <? 128)%N eqn:E];
    try reflexivity; apply N.ltb_lt in E; lia.
Qed.

Lemma ws_head_not_visible c : ws1 c = true -> visible c = false.
Proof. unfold visible. intros ->. apply andb_false_r. Qed.

Lemma ws2_head_not_visible c1 c2 : ws2 c1 c2 = true -> visible c1 = false.
Proof.
  unfold ws2, visible. intros H. apply andb_prop in H. destruct H as [H _].
  apply N.eqb_eq in H. rewrite H. reflexivity.
Qed.

Lemma ws3_head_not_visible c1 c2 c3 :
  ws3 c1 c2 c3 = true -> visible c1 = false.
Proof.
  intros H. destruct (visible c1) eqn:V; [|reflexivity].
  rewrite (visible_ws3 c1 c2 c3 V) in H. discriminate.
Qed.

(** Trimming reaches the end of the string only if the string has no
    visible character. *)
Lemma trimStart_has_visible n : forall s,
  (String.length s <= n)%nat -> has_visible s = true -> trimStart s <> "".
Proof.
  induction n as [|n IH]; intros s Hl Hv.
  - destruct s; [discriminate|simpl in Hl; lia].
  - destruct s as [|c1 r1]; [discriminate|].
    cbn [trimStart].
    destruct (ws1 c1) eqn:W1.
    { apply IH; [simpl in Hl; lia|]. cbn [has_visible] in Hv.
      now rewrite (ws_head_not_visible c1 W1) in Hv. }
    destruct r1 as [|c2 r2]; [discriminate|].
    destruct (ws2 c1 c2) eqn:W2.
    { apply IH; [simpl in Hl; lia|]. cbn [has_visible] in Hv.
      now rewrite (ws2_head_not_visible c1 c2 W2),
        (ws2_not_visible c1 c2 W2) in Hv. }
    destruct r2 as [|c3 r3]; [discriminate|].
    destruct (ws3 c1 c2 c3) eqn:W3; [|discriminate].
    apply IH; [simpl in Hl; lia|]. cbn [has_visible] in Hv.
    destruct (ws3_not_visible c1 c2 c3 W3) as [V2 V3].
    now rewrite (ws3_head_not_visible c1 c2 c3 W3), V2, V3 in Hv.
Qed.

(** Trimming twice is trimming once. *)
Lemma trimStart_idempotent n : forall s,
  (String.length s <= n)%nat -> trimStart (trimStart s) = trimStart s.
Proof.
  induction n as [|n IH]; intros s Hl.
  - destruct s; [reflexivity|simpl in Hl; lia].
  - destruct s as [|c1 r1]; [reflexivity|].
    cbn [trimStart].
    destruct (ws1 c1) eqn:W1; [apply IH; simpl in Hl; lia|].
    destruct r1 as [|c2 r2].
    { cbn [trimStart]. now rewrite W1. }
    destruct (ws2 c1 c2) eqn:W2; [apply IH; simpl in Hl; lia|].
    destruct r2 as [|c3 r3].
    { cbn [trimStart]. now rewrite W1, W2. }
    destruct (ws3 c1 c2 c3) eqn:W3; [apply IH; simpl in Hl; lia|].
    cbn [trimStart]. now rewrite W1, W2, W3.
Qed.

Lemma trimStart_spaces w s : spaces w = true -> trimStart (w ++ s) = trimStart s.
Proof.
  induction w as [|c w IH]; [reflexivity|]. cbn [spaces]. intros H.
  apply andb_prop in H. destruct H as [H1 H2].
  change (String c w ++ s) with (String c (w ++ s)).
  cbn [trimStart]. rewrite H1. now apply IH.
Qed.

Lemma trim_empty s : trim s = "" <-> trimStart s = "".
Proof.
  unfold trim. split.
  - destruct (trimStart s) as [|c r] eqn:E; [reflexivity|].
    cbn [trimEnd]. rewrite <- E.
    rewrite (trimStart_idempotent (String.length s) s (le_n _)), E.
    discriminate.
  - now intros ->.
Qed.

Lemma blank_string s :
  blank (JStr s) = String.eqb (trimStart s) "".
Proof.
  unfold blank. cbn [ToBoolean typeof negb].
  destruct (String.eqb s "") eqn:E.
  - apply String.eqb_eq in E. now subst.
  - cbn. destruct (String.eqb (trim s) "") eqn:T.
    + apply String.eqb_eq, trim_empty in T. now rewrite T.
    + destruct (String.eqb (trimStart s) "") eqn:T'; [|reflexivity].
      apply String.eqb_eq, trim_empty in T'. rewrite T' in T. discriminate.
Qed.
End TextFacts.

Section TextTheorems.
Import JS Rules Text.
Local Open Scope string_scope.
Local Open Scope list_scope.

(** X8.  A name (or an address) made of blanks only, the empty string
    included, is reported as missing; one with a visible ASCII character
    anywhere in it is not, whatever surrounds that character. *)
Theorem blank_names_are_rejected (s : string) (data : Data.t) :
  Data.name data = JStr s ->
  let reported :=
    In "Name is required and must be a non-empty string"
       (validateSchoolData data) in
  (spaces s = true -> reported)
  /\ (has_visible s = true -> ~ reported).
Proof.
  intros Hn reported. subst reported.
  rewrite ValidatorFacts.validate_blocks, Hn, TextFacts.blank_string.
  split.
  - intros Hs.
    pose proof (TextFacts.trimStart_spaces s "" Hs) as E.
    rewrite (FixedFacts.append_empty s) in E. rewrite E. now left.
  - intros Hv.
    pose proof (TextFacts.trimStart_has_visible _ s (le_n _) Hv) as E.
    apply String.eqb_neq in E. rewrite E.
    rewrite !in_app_iff. intros [[]|[H|[H|H]]].
    + destruct (blank (Data.address data)); [|destruct H].
      destruct H as [H|[]]. discriminate.
    + destruct (not_a_number (Data.latitude data)).
      * destruct H as [H|[]]. discriminate.
      * destruct ((_ <? _)%float || _)%bool; [|destruct H].
        destruct H as [H|[]]. discriminate.
    + destruct (not_a_number (Data.longitude data)).
      * destruct H as [H|[]]. discriminate.
      * destruct ((_ <? _)%float || _)%bool; [|destruct H].
        destruct H as [H|[]]. discriminate.
Qed.

Lemma blank_names_are_rejected_witness :
  In "Name is required and must be a non-empty string"
     (validateSchoolData
        {| Data.name := JStr "  "; Data.address := JStr "1 Test St";
           Data.latitude := JNum 45; Data.longitude := JNum 10 |}).
Proof.
  exact (proj1 (blank_names_are_rejected "  "
                  {| Data.name := JStr "  "; Data.address := JStr "1 Test St";
                     Data.latitude := JNum 45; Data.longitude := JNum 10 |}
                  eq_refl) eq_refl).
Defined.
End TextTheorems.

(* ===================================================================== *)
(** * More on [parseFloat] and [toFixed] *)
(* ===================================================================== *)

Module ReadFacts.
Import JS Text.
Local Open Scope string_scope.

Lemma parseFloatStr_spaces w s :
  spaces w = true -> parseFloatStr (w ++ s) = parseFloatStr s.
Proof.
  intros H. unfold parseFloatStr. now rewrite TextFacts.trimStart_spaces.
Qed.

Lemma wordy_no_prefix c r :
  Ascii.eqb c "I" = false -> String.prefix "Infinity" (String c r) = false.
Proof.
  intros H.
  change (String.prefix "Infinity" (String c r))
    with (if ascii_dec "I" c then String.prefix "nfinity" r else false).
  destruct (ascii_dec "I" c) as [<-|]; [discriminate|reflexivity].
Qed.

(** Where no literal can start, nothing is read. *)
Lemma read_unsigned_wordy neg t :
  wordy t = true -> read_unsigned neg t = PrimFloat.nan.
Proof.
  destruct t as [|c r]; [reflexivity|]. cbn [wordy]. intros H.
  apply andb_prop in H. destruct H as [H H3].
  apply andb_prop in H. destruct H as [_ H2].
  apply negb_true_iff in H3.
  apply orb_false_elim in H3. destruct H3 as [H3 _].
  apply orb_false_elim in H3. destruct H3 as [H3 _].
  apply orb_false_elim in H3. destruct H3 as [Hp Hi].
  unfold read_unsigned. rewrite (wordy_no_prefix c r Hi).
  cbn [read_digits]. destruct (digit c); [discriminate|].
  rewrite Hp. reflexivity.
Qed.

Lemma wordy_trimStart t : wordy t = true -> trimStart t = t.
Proof.
  destruct t as [|c r]; [reflexivity|]. cbn [wordy]. intros H.
  apply andb_prop in H. destruct H as [H _].
  apply andb_prop in H. destruct H as [H _].
  now apply TextFacts.trimStart_visible.
Qed.

Lemma wordy_read_sign t : wordy t = true -> read_sign t = (false, t).
Proof.
  destruct t as [|c r]; [reflexivity|]. cbn [wordy read_sign]. intros H.
  apply andb_prop in H. destruct H as [_ H].
  apply negb_true_iff in H.
  apply orb_false_elim in H. destruct H as [H Hm].
  apply orb_false_elim in H. destruct H as [_ Hp].
  now rewrite Hm, Hp.
Qed.

Lemma sign_trimStart c r :
  Ascii.eqb c "-" = true \/ Ascii.eqb c "+" = true ->
  trimStart (String c r) = String c r.
Proof.
  intros H. apply TextFacts.trimStart_visible.
  destruct H as [H|H]; apply Ascii.eqb_eq in H; subst; reflexivity.
Qed.

(** ** The sign *)

Lemma SF2Prim_opp x : SF2Prim (SFopp x) = (- SF2Prim x)%float.
Proof.
  destruct x as [[]|[]| |[] m e]; try reflexivity.
  cbn [SFopp negb SF2Prim]. now rewrite Sign.opp_involutive.
Qed.

Lemma dec2float_opp m e10 :
  dec2float true m e10 = (- dec2float false m e10)%float.
Proof.
  unfold dec2float. destruct (m <=? 0)%Z; [reflexivity|].
  destruct (0 <=? e10)%Z.
  - rewrite <- SF2Prim_opp. f_equal. apply (Sign.round_opp false).
  - destruct (SFdiv_core_binary _ _ _ _ _ _) as [[q e] l].
    rewrite <- SF2Prim_opp. f_equal. apply (Sign.round_aux_opp false).
Qed.

Lemma read_unsigned_opp t :
  read_unsigned true t = (- read_unsigned false t)%float.
Proof.
  unfold read_unsigned. destruct (String.prefix "Infinity" t); [reflexivity|].
  destruct (read_digits t 0 0) as [[ival icnt] t2].
  destruct (match t2 with
            | String c r =>
                if Ascii.eqb c "." then read_digits r ival 0
                else (ival, 0%Z, t2)
            | EmptyString => (ival, 0%Z, t2)
            end) as [[m fcnt] t3].
  destruct ((icnt =? 0)%Z && (fcnt =? 0)%Z); [reflexivity|].
  apply dec2float_opp.
Qed.

Lemma digit_head s :
  starts_with_digit s = true ->
  exists c v r, s = String c r /\ digit c = Some v.
Proof.
  destruct s as [|c r]; [discriminate|]. cbn [starts_with_digit].
  destruct (digit c) as [v|] eqn:E; [|discriminate]. eauto.
Qed.

Lemma parseFloatStr_unsigned s :
  starts_with_digit s = true -> parseFloatStr s = read_unsigned false s.
Proof.
  intros H. destruct (digit_head s H) as [c [v [r [-> Hv]]]].
  unfold parseFloatStr. rewrite (ParseFacts.trimStart_digit c v r Hv).
  cbn [read_sign].
  now rewrite (ParseFacts.digit_not c v "-" Hv),
    (ParseFacts.digit_not c v "+" Hv) by (vm_compute; left; reflexivity).
Qed.

(** ** Integers *)

Local Open Scope Z_scope.

Lemma digits_unique q k :
  2 ^ (k - 1) <= Z.pos q < 2 ^ k -> 0 < k -> Z.pos (digits2_pos q) = k.
Proof.
  intros [L U] Hk.
  pose proof (Magnitude.digits_gt q) as G.
  pose proof (Magnitude.digits_le q) as E.
  set (d := Z.pos (digits2_pos q)) in *.
  assert (Hd : 0 < d) by (unfold d; lia).
  destruct (Z.lt_trichotomy d k) as [H|[H|H]]; [|exact H|]; exfalso.
  - assert (2 ^ d <= 2 ^ (k - 1)) by (apply Z.pow_le_mono_r; lia). lia.
  - assert (2 ^ (k + 1) <= 2 ^ d) by (apply Z.pow_le_mono_r; lia).
    rewrite Z.pow_add_r in H0 by lia. lia.
Qed.

(** A mantissa of exactly 53 digits with an exponent in range is rounded
    to itself. *)
Lemma round_aux_exact s m e :
  Z.pos (digits2_pos m) = 53 -> -1074 <= e <= 971 ->
  binary_round_aux prec emax s (Z.pos m) e loc_Exact = S754_finite s m e.
Proof.
  intros Hd He. unfold binary_round_aux, shr_fexp.
  cbn [Zdigits2]. rewrite Hd.
  replace (fexp prec emax (53 + e) - e) with 0
    by (change (fexp prec emax (53 + e)) with (Z.max (53 + e - 53) (-1074));
        lia).
  cbn [shr shr_record_of_loc shr_m loc_of_shr_record round_nearest_even
       Zdigits2].
  rewrite Hd.
  replace (fexp prec emax (53 + e) - e) with 0
    by (change (fexp prec emax (53 + e)) with (Z.max (53 + e - 53) (-1074));
        lia).
  cbn [shr shr_m].
  replace (e <=? emax - prec) with true; [reflexivity|].
  symmetry. apply Z.leb_le. change (emax - prec) with 971. lia.
Qed.

(** An integer below [2^53] is rounded to itself. *)
Lemma round_integer p :
  Z.pos p < 2 ^ 53 ->
  exists m e, binary_round prec emax false p 0 = S754_finite false m e
              /\ Z.pos m * 2 ^ (e + 1074) = Z.pos p * 2 ^ 1074
              /\ valid_binary (S754_finite false m e) = true.
Proof.
  intros Hp. unfold binary_round.
  pose proof (Magnitude.digits_gt p) as G.
  pose proof (Magnitude.digits_le p) as L.
  set (d := Z.pos (digits2_pos p)) in *.
  assert (Hd : 0 < d <= 53).
  { split; [unfold d; lia|].
    destruct (Z_le_gt_dec d 53) as [|X]; [assumption|exfalso].
    assert (2 ^ 54 <= 2 ^ d) by (apply Z.pow_le_mono_r; lia).
    change (2 ^ 54) with (2 * 2 ^ 53) in H. lia. }
  change (fexp prec emax (d + 0)) with (Z.max (d + 0 - 53) (-1074)).
  replace (Z.max (d + 0 - 53) (-1074)) with (d - 53) by lia.
  pose proof (Nonzero.shl_align_value p 0 (d - 53) ltac:(lia)) as V.
  assert (X : snd (shl_align p 0 (d - 53)) = d - 53).
  { unfold shl_align. destruct (d - 53 - 0) as [|q|q] eqn:E; cbn [snd]; lia. }
  destruct (shl_align p 0 (d - 53)) as [mz ez]. cbn [fst snd] in V, X.
  subst ez. replace (0 - (d - 53)) with (53 - d) in V by lia.
  assert (D : Z.pos (digits2_pos mz) = 53).
  { apply digits_unique; [|lia]. rewrite V. split.
    - replace (53 - 1) with ((d - 1) + (53 - d)) by lia.
      rewrite Z.pow_add_r by lia.
      apply Z.mul_le_mono_nonneg_r; [apply Z.pow_nonneg; lia|].
      replace d with (d - 1 + 1) in L by lia.
      rewrite Z.pow_add_r in L by lia. lia.
    - replace 53 with (d + (53 - d)) at 2 by lia.
      rewrite Z.pow_add_r by lia.
      apply Z.mul_lt_mono_pos_r; [apply Z.pow_pos_nonneg; lia|exact G]. }
  exists mz, (d - 53). split; [apply round_aux_exact; [exact D|lia]|]. split.
  - rewrite V, <- Z.mul_assoc, <- Z.pow_add_r by lia. f_equal. f_equal. lia.
  - unfold valid_binary, bounded, canonical_mantissa. rewrite D.
    change (fexp prec emax (53 + (d - 53)))
      with (Z.max (53 + (d - 53) - 53) (-1074)).
    apply andb_true_intro. split.
    + apply Z.eqb_eq. lia.
    + apply Z.leb_le. change (emax - prec) with 971. lia.
Qed.

Lemma dec2float_integer n :
  0 <= n < 2 ^ 53 ->
  Aux.finite (dec2float false n 0) = true
  /\ Aux.ord (dec2float false n 0) = n * 2 ^ 1074.
Proof.
  intros [H0 H]. unfold dec2float, Aux.finite, Aux.ord.
  destruct (n <=? 0) eqn:E.
  - apply Z.leb_le in E. replace n with 0 by lia. split; reflexivity.
  - apply Z.leb_gt in E. change (0 <=? 0) with true. cbv iota.
    rewrite Z.pow_0_r, Z.mul_1_r.
    destruct n as [|p|p]; try lia. cbn [Z.to_pos].
    destruct (round_integer p H) as [m [e [-> [V B]]]].
    rewrite (Prim2SF_SF2Prim _ B). split; [reflexivity|exact V].
Qed.
End ReadFacts.

Section ReadTheorems.
Import JS Rules Aux Text Shape.
Local Open Scope string_scope.
Local Open Scope list_scope.
Local Open Scope float_scope.
Variables (sin cos : float -> float) (atan2 : float -> float -> float).

(** X9.  Blanks before a coordinate are skipped: a latitude sent with
    leading tabs, line breaks or spaces is read, registered and looked up
    as the same latitude without them. *)
Theorem leading_blanks_are_skipped (w s : string)
    (name address longitude : JSValue) :
  spaces w = true ->
  let body lat := {| Data.name := name; Data.address := address;
                     Data.latitude := lat; Data.longitude := longitude |} in
  let query lat := {| Query.latitude := lat;
                      Query.longitude := longitude |} in
  parseFloat (JStr (w ++ s)) = parseFloat (JStr s)
  /\ addSchool (body (JStr (w ++ s))) = addSchool (body (JStr s))
  /\ listSchools sin cos atan2 (query (JStr (w ++ s)))
     = listSchools sin cos atan2 (query (JStr s)).
Proof.
  intros Hw body query.
  assert (E : parseFloat (JStr (w ++ s)) = parseFloat (JStr s))
    by now apply ReadFacts.parseFloatStr_spaces.
  split; [exact E|]. split.
  - unfold addSchool, schoolData, body.
    cbn [Data.name Data.address Data.latitude Data.longitude].
    now rewrite E.
  - unfold listSchools, query. cbn [Query.latitude Query.longitude].
    now rewrite E.
Qed.

(** X10.  A minus sign before a number negates it and a plus sign
    changes nothing: [parseFloat("-" + s)] is [-parseFloat(s)] for every
    string [s] that starts with a digit, whatever [s] goes on with. *)
Theorem a_sign_is_read (s : string) :
  starts_with_digit s = true ->
  parseFloat (JStr ("-" ++ s)) = - parseFloat (JStr s)
  /\ parseFloat (JStr ("+" ++ s)) = parseFloat (JStr s).
Proof.
  intros H. unfold parseFloat. cbn [ToString parseFloatString append].
  rewrite (ReadFacts.parseFloatStr_unsigned s H).
  unfold parseFloatStr.
  rewrite !ReadFacts.sign_trimStart by (auto using Ascii.eqb_refl).
  split; [apply ReadFacts.read_unsigned_opp|reflexivity].
Qed.

(** X11.  Text that does not start with a number is not a coordinate:
    after any blanks and an optional sign, an empty rest or a rest that
    starts with a letter or another visible character that cannot start a
    number reads as [NaN]; as a latitude it makes the registration fail
    with the "required" message and the listing fail with status 400,
    and the table is not touched. *)
Theorem text_is_not_a_coordinate (w sign rest : string) (body : Data.t)
    (query : Query.t) (env : Env) (db : Db) :
  spaces w = true ->
  sign = "" \/ sign = "+" \/ sign = "-" ->
  wordy rest = true ->
  let v := JStr (w ++ sign ++ rest) in
  isNaN (parseFloat v) = true
  /\ (Data.latitude body = v ->
      In "Latitude is required and must be a valid number"
         (validateSchoolData (schoolData body))
      /\ run env (addSchool body) db
         = ({| status := 400;
               body := ValidationFailure
                         (validateSchoolData (schoolData body)) |}, db))
  /\ (Query.latitude query = v ->
      run env (listSchools sin cos atan2 query) db
      = ({| status := 400; body := Failure invalid_coordinates_message |},
         db)).
Proof.
  intros Hw Hs Hr v.
  assert (E : parseFloat v = nan).
  { unfold v, parseFloat. cbn [ToString parseFloatString].
    rewrite (ReadFacts.parseFloatStr_spaces w _ Hw). unfold parseFloatStr.
    destruct Hs as [Hs | [Hs | Hs]]; subst sign; cbn [append].
    - rewrite (ReadFacts.wordy_trimStart rest Hr),
        (ReadFacts.wordy_read_sign rest Hr).
      now apply ReadFacts.read_unsigned_wordy.
    - rewrite ReadFacts.sign_trimStart by (right; reflexivity).
      cbn [read_sign]. now apply ReadFacts.read_unsigned_wordy.
    - rewrite ReadFacts.sign_trimStart by (left; reflexivity).
      cbn [read_sign]. now apply ReadFacts.read_unsigned_wordy. }
  split; [now rewrite E|]. split.
  - intros Hl.
    assert (I : In "Latitude is required and must be a valid number"
                   (validateSchoolData (schoolData body))).
    { rewrite HandlerFacts.validate_schoolData, Hl, E.
      apply in_or_app. right. apply in_or_app. right.
      unfold coordinate_errors. now left. }
    split; [exact I|]. rewrite StoreFacts.run_addSchool.
    destruct (validateSchoolData (schoolData body)); [destruct I|reflexivity].
  - intros Hl. rewrite StoreFacts.run_listSchools. cbv zeta.
    rewrite Hl, E. reflexivity.
Qed.

(** X12.  An integer coordinate is read exactly: for a string of decimal
    digits whose value [n] is below [2^53], [parseFloat] returns the
    finite Number that is equal to [n] (its image under the order
    embedding, which sends [m * 2^e] to [m * 2^(e + 1074)], is
    [n * 2^1074]), with or without trailing text. *)
Theorem integer_coordinates_are_exact (digits rest : string) :
  all_digits digits = true -> digits <> "" -> junk rest = true ->
  (value digits < 2 ^ 53)%Z ->
  finite (parseFloat (JStr (digits ++ rest))) = true
  /\ ord (parseFloat (JStr (digits ++ rest))) = (value digits * 2 ^ 1074)%Z.
Proof.
  intros Hd Hne Hj Hv. unfold parseFloat. cbn [ToString parseFloatString].
  rewrite (ParseFacts.parseFloatStr_digits digits rest Hd Hne Hj).
  apply ReadFacts.dec2float_integer. split; [|exact Hv].
  clear -Hd. unfold value.
  assert (G : forall s acc cnt, (0 <= acc)%Z -> all_digits s = true ->
              (0 <= fst (fst (read_digits s acc cnt)))%Z).
  { induction s as [|c s IH]; intros acc cnt Ha Hs; [exact Ha|].
    cbn [all_digits read_digits] in *.
    destruct (digit c) as [x|] eqn:Ec; [|discriminate].
    apply IH; [|exact Hs]. apply ParseFacts.digit_range in Ec. lia. }
  apply G; [lia|exact Hd].
Qed.

(** X13.  Rounding to two decimals keeps numbers numbers: the listed
    distance [parseFloat(d.toFixed(2))] is [NaN] exactly when the raw
    distance [d] is, and a raw distance of [10^21] or more, which
    [toFixed] prints as [ToString] does, comes back unchanged. *)
Theorem rounding_keeps_numbers (d : float) :
  isNaN (parseFloatString (Fixed.toFixed d 2)) = isNaN d
  /\ ((1e21 <=? d) = true -> parseFloatString (Fixed.toFixed d 2) = d).
Proof.
  split.
  - unfold isNaN. rewrite (F64.is_nan_spec d). unfold Fixed.toFixed.
    destruct (Prim2SF d) as [s|s| |s m e] eqn:E; cbn [SFnan].
    + reflexivity.
    + now destruct s.
    + reflexivity.
    + destruct (Fixed.huge (Z.pos m) e).
      * cbn [parseFloatString]. rewrite F64.reread_is_nan, F64.is_nan_spec.
        now rewrite E.
      * cbn [parseFloatString].
        assert (N : (0 <= Fixed.scaled (Z.pos m) e 2)%Z).
        { unfold Fixed.scaled. destruct (0 <=? e)%Z eqn:Ee.
          - apply Z.leb_le in Ee.
            repeat apply Z.mul_nonneg_nonneg; try lia;
              apply Z.pow_nonneg; lia.
          - apply Z.leb_gt in Ee. apply Z.div_pos.
            + assert (0 < 2 ^ (- e))%Z by (apply Z.pow_pos_nonneg; lia).
              change (10 ^ Z.of_nat 2)%Z with 100%Z. lia.
            + apply Z.pow_pos_nonneg; lia. }
        destruct s.
        -- rewrite (FixedFacts.parseFloatStr_minus_point _ N).
           apply (Rounding.signed_not_nan true),
             Rounding.dec2float_signed.
        -- cbn [append].
           rewrite (FixedFacts.parseFloatStr_point _ N).
           apply (Rounding.signed_not_nan false),
             Rounding.dec2float_signed.
  - intros H.
    assert (N : PrimFloat.is_nan d = false).
    { rewrite F64.is_nan_spec. rewrite leb_spec in H.
      destruct (Prim2SF d); try reflexivity.
      destruct (Prim2SF 1e21); discriminate. }
    rewrite (Order.leb_ord 1e21 d eq_refl N), Rounding.ord_1e21 in H.
    apply Z.leb_le in H. unfold ord in H. unfold Fixed.toFixed.
    pose proof (Prim2SF_valid d) as V.
    assert (P : (0 < 10 ^ 21 * 2 ^ 1074)%Z) by (vm_compute; reflexivity).
    destruct (Prim2SF d) as [s|s| |s m e] eqn:E.
    + cbn [SFord] in H. lia.
    + destruct s.
      * cbn [SFord cond_Zopp] in H.
        assert (0 < 2 ^ 2100)%Z by (apply Z.pow_pos_nonneg; lia). lia.
      * cbn [parseFloatString]. apply Prim2SF_inj. now rewrite E.
    + cbn [SFord] in H. lia.
    + destruct s.
      { cbn [SFord cond_Zopp] in H.
        assert (0 < 2 ^ (e + 1074))%Z.
        { destruct (Order.valid_finite _ _ _ V) as [Ee _].
          apply Z.pow_pos_nonneg; lia. }
        lia. }
      assert (Hh : Fixed.huge (Z.pos m) e = true).
      { destruct (Order.valid_finite _ _ _ V) as [Ee _].
        cbn [SFord cond_Zopp] in H. unfold Fixed.huge.
        destruct (0 <=? e)%Z eqn:E0.
        - apply Z.leb_le in E0. apply Z.leb_le.
          rewrite Z.pow_add_r in H by lia. rewrite Z.mul_assoc in H.
          apply Z.mul_le_mono_pos_r in H; [exact H|].
          apply Z.pow_pos_nonneg; lia.
        - apply Z.leb_gt in E0. apply Z.leb_le.
          replace 1074%Z with (- e + (e + 1074))%Z in H at 1 by lia.
          rewrite (Z.pow_add_r 2 (- e) (e + 1074)) in H by lia.
          rewrite Z.mul_assoc in H.
          apply Z.mul_le_mono_pos_r in H; [exact H|].
          apply Z.pow_pos_nonneg; lia. }
      rewrite Hh. cbn [parseFloatString]. unfold reread.
      destruct (PrimFloat.is_zero d) eqn:Z; [|reflexivity].
      apply F64.is_zero_spec in Z. destruct Z as [s Z]. congruence.
Qed.
End ReadTheorems.

Section ReadWitnesses.
Import JS Rules Aux Text Shape.
Local Open Scope string_scope.
Local Open Scope list_scope.
Local Open Scope float_scope.

Lemma leading_blanks_are_skipped_witness :
  parseFloat (JStr (("  " ++ "45.5")%string)) = parseFloat (JStr "45.5").
Proof.
  exact (proj1 (leading_blanks_are_skipped Sample.sin Sample.cos
                  Sample.atan2 "  " "45.5" (JStr "n") (JStr "a") (JNum 10)
                  eq_refl)).
Defined.

Lemma a_sign_is_read_witness :
  parseFloat (JStr (("-" ++ "45.5 N")%string))
  = - parseFloat (JStr "45.5 N").
Proof. exact (proj1 (a_sign_is_read "45.5 N" eq_refl)). Defined.

Lemma text_is_not_a_coordinate_witness :
  isNaN (parseFloat (JStr ((" " ++ "-" ++ "north")%string))) = true.
Proof.
  exact (proj1 (text_is_not_a_coordinate Sample.sin Sample.cos Sample.atan2
                  " " "-" "north" (Sample.body JUndefined)
                  (Sample.query "1" "2") Sample.env Sample.seeded
                  eq_refl (or_intror (or_intror eq_refl)) eq_refl)).
Defined.

Lemma integer_coordinates_are_exact_witness :
  ord (parseFloat (JStr (("90" ++ " N")%string))) = (value "90" * 2 ^ 1074)%Z.
Proof.
  apply (integer_coordinates_are_exact "90" " N").
  - reflexivity.
  - discriminate.
  - reflexivity.
  - vm_compute. reflexivity.
Defined.
End ReadWitnesses.

(* ===================================================================== *)
(** * Lists that are already in order *)
(* ===================================================================== *)

Section OrderFacts.
Context {A : Type} (comparefn : A -> A -> float) (R : A -> A -> Prop).

(** A list in which no element is to come after its successor is left as
    it is. *)
Lemma sort_fixed l :
  (forall x y, In x l -> In y l -> R x y -> after comparefn x y = false) ->
  Sorted R l -> sort comparefn l = l.
Proof.
  induction l as [|x l IH]; intros Hr Hs; [reflexivity|].
  inversion Hs as [|? ? Hs' Hh]; subst.
  rewrite sort_cons, IH; [|intros; apply Hr; simpl; auto|assumption].
  destruct l as [|y l]; [reflexivity|].
  inversion Hh; subst. cbn [insert].
  rewrite Hr; simpl; auto.
Qed.
End OrderFacts.

Section OrderTheorems.
Import JS Rules Aux.
Local Open Scope float_scope.

Lemma byDistance_nan a b :
  isNaN (distance a) = true -> after byDistance a b = false.
Proof.
  unfold isNaN, after, SortCompare, byDistance. intros H.
  assert (N : PrimFloat.is_nan (distance a - distance b) = true).
  { rewrite F64.is_nan_spec in *. rewrite sub_spec.
    destruct (Prim2SF (distance a)); try discriminate. reflexivity. }
  rewrite N. reflexivity.
Qed.

(** X14.  Sorting by distance leaves an ordered list alone: schools whose
    distances are numbers in non-decreasing order stay as they are, so
    sorting twice is sorting once; and when none of the distances is a
    number the comparator never says "after" and the list, too, stays as
    it is. *)
Theorem sorting_keeps_an_ordered_list (l : list RankedSchool) :
  (Forall (fun r => isNaN (distance r) = false) l ->
   Sorted (fun a b => (distance a <=? distance b) = true) l ->
   sort byDistance l = l)
  /\ (Forall (fun r => isNaN (distance r) = false) l ->
      sort byDistance (sort byDistance l) = sort byDistance l)
  /\ (Forall (fun r => isNaN (distance r) = true) l ->
      sort byDistance l = l).
Proof.
  assert (F : forall l : list RankedSchool,
            Forall (fun r => isNaN (distance r) = false) l ->
            Sorted (fun a b => (distance a <=? distance b) = true) l ->
            sort byDistance l = l).
  { intros k Hn Hs. apply sort_fixed with (2 := Hs).
    rewrite Forall_forall in Hn. intros x y Hx Hy H.
    rewrite (byDistance_after x y (Hn x Hx) (Hn y Hy)).
    rewrite (Order.leb_ord _ _ (Hn x Hx) (Hn y Hy)) in H.
    apply Z.leb_le in H. apply Z.ltb_ge. exact H. }
  split; [apply F|]. split.
  - intros Hn. apply F.
    + apply Forall_forall. intros r Hr. rewrite Forall_forall in Hn.
      apply Hn. apply (Permutation_in _ (sort_perm byDistance l)), Hr.
    + now apply ranked_sorted.
  - intros Hn.
    apply sort_fixed with (R := fun _ _ => True).
    + rewrite Forall_forall in Hn. intros x y Hx _ _.
      apply byDistance_nan. now apply Hn.
    + clear. induction l as [|x l IH]; constructor; [exact IH|].
      destruct l; constructor. exact I.
Qed.

Lemma sorting_keeps_an_ordered_list_witness :
  let near := {| school := Sample.portland; distance := 1.5 |} in
  let far := {| school := Sample.seattle; distance := 2.25 |} in
  sort byDistance [near; far] = [near; far].
Proof.
  intros near far.
  apply (proj1 (sorting_keeps_an_ordered_list [near; far])).
  - repeat constructor.
  - repeat constructor.
Defined.
End OrderTheorems.

(* ===================================================================== *)
(** * Invariants of the table *)
(* ===================================================================== *)

Section InvariantTheorems.
Import JS Rules Aux Store.
Local Open Scope string_scope.
Local Open Scope list_scope.

(** X15.  Registration keeps the table valid: if every stored school has
    a name and an address that are not blank and a valid point, and the
    [FLOAT] columns keep a valid point valid, the same holds after any
    registration request, accepted or not. *)
Theorem stored_schools_stay_valid (body : Data.t) (env : Env) (db : Db) :
  (forall x y, validPoint x y = true ->
               validPoint (FLOAT env x) (FLOAT env y) = true) ->
  Forall (fun s => valid_school s = true) (rows db) ->
  Forall (fun s => valid_school s = true)
         (rows (snd (run env (addSchool body) db))).
Proof.
  intros HF Hdb. rewrite StoreFacts.run_addSchool.
  destruct (validateSchoolData (schoolData body)) as [|e l] eqn:V;
    [|exact Hdb].
  cbn [List.length Nat.ltb Nat.leb].
  destruct (fault env); [exact Hdb|]. cbn [snd rows].
  apply Forall_app. split; [exact Hdb|]. constructor; [|constructor].
  pose proof V as V'.
  rewrite HandlerFacts.validate_schoolData in V'.
  rewrite !ValidatorFacts.blank_text_ok in V'.
  destruct (text_ok (Data.name body)) eqn:N; [|discriminate].
  destruct (text_ok (Data.address body)) eqn:A; [|discriminate].
  destruct (StoreFacts.validated_texts body V) as [n [a [En [Ea P]]]].
  unfold valid_school, row_of.
  cbn [School.name School.address School.latitude School.longitude].
  rewrite En, Ea in *. cbn [column_text ToString].
  now rewrite N, A, (HF _ _ P).
Qed.

Lemma stored_schools_stay_valid_witness :
  Forall (fun s => valid_school s = true)
         (rows (snd (run Sample.env (addSchool (Sample.body (JStr "45.5")))
                         Sample.seeded))).
Proof.
  apply (stored_schools_stay_valid (Sample.body (JStr "45.5")) Sample.env
           Sample.seeded).
  - intros x y H. exact H.
  - repeat constructor.
Defined.

End InvariantTheorems.

(* ===================================================================== *)
(** * Start-up *)
(* ===================================================================== *)

Module BootFacts.
Local Open Scope string_scope.
Local Open Scope list_scope.

Lemma insert_rows_names host values : forall db,
  map School.name (rows (insert_rows host values db))
  = map School.name (rows db) ++ map v_name values.
Proof.
  induction values as [|v values IH]; intros db; cbn [insert_rows map].
  - now rewrite app_nil_r.
  - rewrite IH. cbn [rows]. rewrite map_app, <- app_assoc. reflexivity.
Qed.

Lemma insert_rows_prefix host values : forall db,
  exists added, rows (insert_rows host values db) = rows db ++ added
                /\ List.length added = List.length values.
Proof.
  induction values as [|v values IH]; intros db; cbn [insert_rows].
  - exists []. now rewrite app_nil_r.
  - destruct (IH {| rows := rows db ++
                     [{| School.id := auto_increment db;
                         School.name := v_name v;
                         School.address := v_address v;
                         School.latitude := column host (v_latitude v);
                         School.longitude := column host (v_longitude v);
                         School.created_at := clock host |}];
                    auto_increment := (auto_increment db + 1)%Z |})
      as [added [E L]].
    cbn [rows] in E. rewrite <- app_assoc in E.
    eexists. split; [exact E|]. cbn [List.length app]. now rewrite L.
Qed.

Lemma initialized_rows host t : rows (Store.initialized host t) <> [].
Proof.
  unfold Store.initialized.
  destruct (rows match t with
                 | Some db => db
                 | None => {| rows := []; auto_increment := 1 |}
                 end) as [|r l] eqn:E.
  - destruct (insert_rows_prefix host samples
                match t with
                | Some db => db
                | None => {| rows := []; auto_increment := 1 |}
                end) as [added [-> L]].
    rewrite E. destruct added; [discriminate L|discriminate].
  - rewrite E. discriminate.
Qed.

(** The table after a start-up on a store that answers. *)
Lemma boot_table host w :
  (forall i, refuses host i = false) ->
  boot host (startServer (env_PORT host)) w
  = (Running,
     {| table := Some (Store.initialized host (table w));
        issued := (match rows (match table w with
                               | Some db => db
                               | None => {| rows := []; auto_increment := 1 |}
                               end) with
                   | [] => 5 | _ :: _ => 4 end + issued w)%nat;
        held := held w;
        stdout := stdout w
                  ++ [[Spelled "Database connection successful"]]
                  ++ [[Spelled "Database initialized successfully"]]
                  ++ [[Spelled "Server running on port ";
                       JS.ToString (PORT (env_PORT host))]];
        stderr := stderr w;
        listening := Some (PORT (env_PORT host)) |}).
Proof.
  intros H. unfold startServer, testDBConnection, initializeDatabase.
  cbn [boot tick with_held with_table issued held table stdout stderr
       listening]. rewrite !H. unfold Store.initialized.
  destruct (table w) as [db|]; cbn [create_table rows List.length].
  - destruct (rows db) as [|r l] eqn:E; cbn [List.length Z.of_nat Z.eqb].
    + cbn [boot tick with_held with_table issued held table stdout stderr
           listening]. rewrite H.
      cbn [boot tick with_held with_table issued held table stdout stderr
           listening Nat.pred Nat.add].
      rewrite <- !app_assoc. reflexivity.
    + cbn [boot tick with_held with_table issued held table stdout stderr
           listening Nat.pred Nat.add].
      rewrite <- !app_assoc. reflexivity.
  - cbn [Z.of_nat Z.eqb boot tick with_held with_table issued held table
         stdout stderr listening]. rewrite H.
    cbn [boot tick with_held with_table issued held table stdout stderr
         listening Nat.pred Nat.add].
    rewrite <- !app_assoc. reflexivity.
Qed.
End BootFacts.


Section BootTheorems.
Local Open Scope string_scope.
Local Open Scope list_scope.


(** X18.  The sample rows are inserted once: a start-up on a store that
    answers leaves a table that has rows as it found it, and gives a
    missing or empty table the five sample schools; starting again
    after that changes nothing. *)
Theorem seeding_happens_once (host host' : Host) (w : World) :
  (forall i, refuses host i = false) ->
  (forall i, refuses host' i = false) ->
  let w1 := snd (boot host (startServer (env_PORT host)) w) in
  let w2 := snd (boot host' (startServer (env_PORT host')) w1) in
  table w2 = table w1
  /\ (forall db, table w = Some db -> rows db <> [] -> table w1 = Some db)
  /\ (table w = None \/ (exists db, table w = Some db /\ rows db = []) ->
      exists db1,
        table w1 = Some db1
        /\ map School.name (rows db1)
           = ["Washington High School"; "Lincoln Elementary";
              "Jefferson Middle School"; "Roosevelt Academy";
              "Kennedy High"]).
Proof.
  intros H H' w1 w2. subst w2 w1.
  rewrite (BootFacts.boot_table host w H). cbn [snd].
  rewrite (BootFacts.boot_table host' _ H'). cbn [snd table].
  split; [|split].
  - f_equal. unfold Store.initialized at 1.
    pose proof (BootFacts.initialized_rows host (table w)) as N.
    destruct (rows (Store.initialized host (table w))); [congruence|].
    reflexivity.
  - intros db E N. rewrite E. unfold Store.initialized.
    destruct (rows db); [congruence|reflexivity].
  - intros [E|[db [E N]]]; rewrite E; unfold Store.initialized;
      cbn [rows]; rewrite ?N; eexists; (split; [reflexivity|]);
      rewrite BootFacts.insert_rows_names; cbn [rows map]; rewrite ?N;
      reflexivity.
Qed.

Lemma seeding_happens_once_witness :
  let host := {| refuses := fun _ => false; clock := 0;
                 column := fun x => x; env_PORT := JUndefined |} in
  let w1 := snd (boot host (startServer (env_PORT host)) (fresh None)) in
  table (snd (boot host (startServer (env_PORT host)) w1)) = table w1.
Proof.
  intros host w1.
  exact (proj1 (seeding_happens_once host host (fresh None)
                  (fun _ => eq_refl) (fun _ => eq_refl))).
Defined.
End BootTheorems.
(* ===================================================================== *)
(** * Correct rounding of the listed distance *)
(* ===================================================================== *)

(** [parseFloat] of the string [toFixed(2)] prints reads an integer [n] of
    hundredths and rounds [n / 100] to the nearest Number.  The modules
    below follow the division and the shift of that rounding bit by bit
    and show that the Number read is nearest to [n / 100] among all
    Numbers. *)

Module Nearest.
Import Aux Shifted.
Local Open Scope Z_scope.

Lemma shr_1_r mrs :
  0 <= shr_m mrs -> shr_r (shr_1 mrs) = Z.odd (shr_m mrs).
Proof.
  destruct mrs as [m r s]. cbn [shr_m]. intros H.
  destruct m as [|[p|p|]|p]; try reflexivity; lia.
Qed.

Lemma shr_1_s mrs : shr_s (shr_1 mrs) = shr_r mrs || shr_s mrs.
Proof. destruct mrs as [[|[p|p|]|[p|p|]] r s]; reflexivity. Qed.

(** One shift halves the quotient. *)
Lemma tracks_shr_1 A B mrs :
  0 < B -> 0 <= A -> tracks A B mrs -> tracks A (B * 2) (shr_1 mrs).
Proof.
  intros HB HA [Em [Er Es]].
  assert (Hm : 0 <= shr_m mrs) by (rewrite Em; apply Z.div_pos; lia).
  pose proof (Z.mod_pos_bound A B HB) as Hrho.
  assert (Emod : A mod (B * 2)
                 = A mod B + B * (if Z.odd (A / B) then 1 else 0))
    by (rewrite <- Zmod_odd; apply Z.rem_mul_r; lia).
  set (rho := A mod B) in *.
  unfold tracks. rewrite Magnitude.shr_1_m, shr_1_r, shr_1_s by exact Hm.
  rewrite Er, Es, Em, Emod. split; [|split].
  - apply Z.div_div; lia.
  - destruct (Z.odd (A / B)); symmetry;
      [apply Z.leb_le|apply Z.leb_gt]; lia.
  - assert (E2 : (2 * (rho + B * (if Z.odd (A / B) then 1 else 0)))
                 mod (B * 2) = 2 * rho).
    { replace (2 * (rho + B * (if Z.odd (A / B) then 1 else 0)))
        with (2 * rho + (if Z.odd (A / B) then 1 else 0) * (B * 2)) by ring.
      rewrite Z.mod_add by lia. apply Z.mod_small. lia. }
    rewrite E2.
    destruct (Z.eq_dec rho 0) as [Z0|NZ].
    + rewrite Z0. rewrite Z.mod_0_l by lia.
      replace (B <=? 2 * 0) with false by (symmetry; apply Z.leb_gt; lia).
      reflexivity.
    + replace (2 * rho =? 0) with false by (symmetry; apply Z.eqb_neq; lia).
      destruct (B <=? 2 * rho) eqn:L; [reflexivity|].
      apply Z.leb_gt in L. rewrite Z.mod_small by lia.
      replace (2 * rho =? 0) with false by (symmetry; apply Z.eqb_neq; lia).
      reflexivity.
Qed.

Lemma tracks_iter p : forall A B mrs,
  0 < B -> 0 <= A -> tracks A B mrs ->
  tracks A (B * 2 ^ Z.pos p) (iter_pos shr_1 p mrs).
Proof.
  induction p as [p IH|p IH|]; intros A B mrs HB HA T; cbn [iter_pos].
  - assert (P : 0 < 2 ^ Z.pos p) by (apply Z.pow_pos_nonneg; lia).
    replace (B * 2 ^ Z.pos p~1) with (B * 2 * 2 ^ Z.pos p * 2 ^ Z.pos p).
    + apply IH; [nia|lia|]. apply IH; [lia|lia|].
      now apply tracks_shr_1.
    + replace (Z.pos p~1) with (Z.pos p + Z.pos p + 1) by lia.
      rewrite !Z.pow_add_r by lia. rewrite Z.pow_1_r. ring.
  - assert (P : 0 < 2 ^ Z.pos p) by (apply Z.pow_pos_nonneg; lia).
    replace (B * 2 ^ Z.pos p~0) with (B * 2 ^ Z.pos p * 2 ^ Z.pos p).
    + apply IH; [nia|lia|]. now apply IH.
    + replace (Z.pos p~0) with (Z.pos p + Z.pos p) by lia.
      rewrite !Z.pow_add_r by lia. ring.
  - rewrite Z.pow_1_r. now apply tracks_shr_1.
Qed.

(** [shr] by [k >= 0] places divides by [2^k]. *)
Lemma tracks_shr A B mrs e k :
  0 < B -> 0 <= A -> 0 <= k -> tracks A B mrs ->
  tracks A (B * 2 ^ k) (fst (shr mrs e k)) /\ snd (shr mrs e k) = e + k.
Proof.
  intros HB HA Hk T. destruct k as [|p|p]; [| |lia]; cbn [shr fst snd].
  - rewrite Z.mul_1_r. split; [exact T|lia].
  - split; [now apply tracks_iter|reflexivity].
Qed.

(** The record a division starts from. *)
Lemma tracks_division A :
  0 <= A ->
  tracks A 100
    (shr_record_of_loc (fst (Z.div_eucl A 100))
                       (new_location 100 (snd (Z.div_eucl A 100)))).
Proof.
  intros HA.
  pose proof (Z_div_mod A 100 ltac:(lia)) as DM.
  assert (Eq : fst (Z.div_eucl A 100) = A / 100) by reflexivity.
  assert (Er : snd (Z.div_eucl A 100) = A mod 100) by reflexivity.
  rewrite Eq, Er.
  pose proof (Z.mod_pos_bound A 100 ltac:(lia)) as Hr.
  change (new_location 100) with (new_location_even 100).
  unfold new_location_even, tracks.
  set (r := A mod 100) in *.
  destruct (r =? 0) eqn:R0.
  - apply Z.eqb_eq in R0. rewrite R0. cbn. repeat split.
  - apply Z.eqb_neq in R0.
    destruct (2 * r ?= 100) eqn:C.
    + apply Z.compare_eq in C. cbn [shr_record_of_loc shr_m shr_r shr_s].
      rewrite C. repeat split.
    + change (2 * r < 100) in C. cbn [shr_record_of_loc shr_m shr_r shr_s].
      repeat split.
      * symmetry. apply Z.leb_gt. lia.
      * rewrite Z.mod_small by lia.
        symmetry. apply negb_true_iff. apply Z.eqb_neq. lia.
    + apply Z.compare_gt_iff in C.
      cbn [shr_record_of_loc shr_m shr_r shr_s]. repeat split.
      * symmetry. apply Z.leb_le. lia.
      * replace (2 * r) with (2 * r - 100 + 1 * 100) by ring.
        rewrite Z.mod_add by lia. rewrite Z.mod_small by lia.
        symmetry. apply negb_true_iff. apply Z.eqb_neq. lia.
Qed.

(** Rounding to nearest even picks an integer nearest to the quotient. *)
Lemma round_nearest A B mrs :
  0 < B -> 0 <= A -> tracks A B mrs ->
  let M := round_nearest_even (shr_m mrs) (loc_of_shr_record mrs) in
  A / B <= M <= A / B + 1
  /\ forall j, Z.abs (M * B - A) <= Z.abs (j * B - A).
Proof.
  intros HB HA [Em [Er Es]] M.
  pose proof (Z_div_mod_eq_full A B) as DM.
  pose proof (Z.mod_pos_bound A B HB) as Hr.
  set (m := A / B) in *. set (rho := A mod B) in *.
  assert (J : forall j, j <= m \/ m + 1 <= j) by (intros; lia).
  assert (K : forall j, j <= m -> j * B <= m * B)
    by (intros; apply Z.mul_le_mono_nonneg_r; lia).
  assert (L : forall j, m + 1 <= j -> (m + 1) * B <= j * B)
    by (intros; apply Z.mul_le_mono_nonneg_r; lia).
  subst M. destruct mrs as [m' r s]. cbn [shr_m shr_r shr_s] in *. subst m'.
  destruct r, s; cbn [loc_of_shr_record round_nearest_even].
  - (* above the half *)
    symmetry in Er. apply Z.leb_le in Er.
    symmetry in Es. apply negb_true_iff, Z.eqb_neq in Es.
    assert (B < 2 * rho).
    { destruct (Z.eq_dec (2 * rho) B) as [E|]; [|lia].
      rewrite E, Z.mod_same in Es by lia. congruence. }
    split; [lia|]. intros j.
    destruct (J j) as [Hj|Hj]; [pose proof (K j Hj)|pose proof (L j Hj)];
      lia.
  - (* the half *)
    symmetry in Er. apply Z.leb_le in Er.
    symmetry in Es. apply negb_false_iff, Z.eqb_eq in Es.
    assert (2 * rho = B).
    { destruct (Z.eq_dec (2 * rho) B) as [E|N]; [exact E|exfalso].
      replace (2 * rho) with (2 * rho - B + 1 * B) in Es by ring.
      rewrite Z.mod_add, Z.mod_small in Es by lia. lia. }
    destruct (Z.even m); (split; [lia|]); intros j;
      (destruct (J j) as [Hj|Hj];
       [pose proof (K j Hj)|pose proof (L j Hj)]); lia.
  - (* below the half *)
    symmetry in Er. apply Z.leb_gt in Er.
    split; [lia|]. intros j.
    destruct (J j) as [Hj|Hj]; [pose proof (K j Hj)|pose proof (L j Hj)];
      lia.
  - (* exact *)
    symmetry in Er. apply Z.leb_gt in Er.
    symmetry in Es. apply negb_false_iff, Z.eqb_eq in Es.
    rewrite Z.mod_small in Es by lia.
    split; [lia|]. intros j.
    destruct (J j) as [Hj|Hj]; [pose proof (K j Hj)|pose proof (L j Hj)];
      lia.
Qed.
End Nearest.

Module Hundredths.
Import Aux Shifted.
Local Open Scope Z_scope.

Lemma fexp_eq x : fexp prec emax x = Z.max (x - 53) (-1074).
Proof. reflexivity. Qed.

(** The digits of a positive number, by its bounds. *)
Lemma Zdigits2_unique q k :
  0 < k -> 2 ^ (k - 1) <= q < 2 ^ k -> Zdigits2 q = k.
Proof.
  intros Hk [L U].
  assert (0 < q) by (pose proof (Z.pow_pos_nonneg 2 (k - 1)); lia).
  destruct q as [|p|p]; try lia. cbn [Zdigits2].
  apply ReadFacts.digits_unique; [split; assumption|exact Hk].
Qed.

Lemma Zdigits2_bounds q :
  0 < q -> 0 < Zdigits2 q /\ 2 ^ (Zdigits2 q - 1) <= q < 2 ^ Zdigits2 q.
Proof.
  destruct q as [|p|p]; try lia. intros _. cbn [Zdigits2].
  pose proof (Magnitude.digits_gt p) as G.
  pose proof (Magnitude.digits_le p) as L.
  set (d := Z.pos (digits2_pos p)) in *.
  assert (Hd : 0 < d) by (unfold d; lia).
  split; [exact Hd|]. split; [|exact G].
  replace d with (d - 1 + 1) in L by lia.
  rewrite Z.pow_add_r in L by lia. lia.
Qed.

(** The division [n / 100] as [dec2float] sets it up: the dividend is
    shifted left by [s] so that the quotient has 53 digits or more. *)
Lemma division_of_hundredths n :
  1 <= n < 2 ^ 77 ->
  exists s,
    0 <= s <= 59
    /\ 2 ^ 59 <= n * 2 ^ s < 2 ^ 77
    /\ SFdiv_core_binary prec emax n 0 100 0
       = (fst (Z.div_eucl (n * 2 ^ s) 100), - s,
          new_location 100 (snd (Z.div_eucl (n * 2 ^ s) 100))).
Proof.
  intros [H1 H2].
  destruct (Zdigits2_bounds n ltac:(lia)) as [Hd [L U]].
  assert (D77 : Zdigits2 n <= 77).
  { destruct (Z_le_gt_dec (Zdigits2 n) 77) as [|G]; [assumption|exfalso].
    assert (2 ^ 77 <= 2 ^ (Zdigits2 n - 1)) by (apply Z.pow_le_mono_r; lia).
    lia. }
  unfold SFdiv_core_binary. change (Zdigits2 100) with 7.
  rewrite fexp_eq. set (d := Zdigits2 n) in *.
  destruct (Z_le_gt_dec d 60) as [Le|Gt].
  - exists (60 - d).
    replace (Z.min (Z.max (d + 0 - (7 + 0) - 53) (-1074)) (0 - 0))
      with (- (60 - d)) by lia.
    replace (0 - 0 - - (60 - d)) with (60 - d) by lia.
    assert (P : 2 ^ 59 <= n * 2 ^ (60 - d) < 2 ^ 60).
    { assert (Pa : 2 ^ (d - 1) * 2 ^ (60 - d) = 2 ^ 59)
        by (rewrite <- Z.pow_add_r by lia; f_equal; lia).
      assert (Pb : 2 ^ d * 2 ^ (60 - d) = 2 ^ 60)
        by (rewrite <- Z.pow_add_r by lia; f_equal; lia).
      assert (0 < 2 ^ (60 - d)) by (apply Z.pow_pos_nonneg; lia).
      rewrite <- Pa, <- Pb.
      split; [apply Z.mul_le_mono_nonneg_r|apply Z.mul_lt_mono_pos_r]; lia. }
    split; [lia|]. split; [split; [lia|]|].
    + apply Z.lt_trans with (2 ^ 60); [lia|]. reflexivity.
    + assert (E : match 60 - d with
                  | Z.pos _ => Z.shiftl n (60 - d)
                  | 0 => n
                  | Z.neg _ => 0
                  end = n * 2 ^ (60 - d)).
      { destruct (60 - d) as [|p|p] eqn:E; [simpl; lia| |lia].
        apply Z.shiftl_mul_pow2. lia. }
      rewrite E.
      destruct (Z.div_eucl (n * 2 ^ (60 - d)) 100) as [q r]. reflexivity.
  - exists 0.
    replace (Z.min (Z.max (d + 0 - (7 + 0) - 53) (-1074)) (0 - 0))
      with 0 by lia.
    change (0 - 0 - 0) with 0. cbv iota. rewrite Z.pow_0_r, Z.mul_1_r.
    split; [lia|]. split.
    + split; [|lia].
      apply Z.le_trans with (2 ^ (d - 1)); [|lia].
      apply Z.pow_le_mono_r; lia.
    + destruct (Z.div_eucl n 100) as [q r]. reflexivity.
Qed.

(** The second [shr_fexp] of [binary_round_aux] on a mantissa of 53
    digits, or on [2^53]. *)
Lemma renormalize M e :
  2 ^ 52 <= M <= 2 ^ 53 -> -1074 <= e <= 970 ->
  exists m' e',
    shr_fexp prec emax M e loc_Exact
    = ({| shr_m := Z.pos m'; shr_r := false; shr_s := false |}, e')
    /\ Z.pos m' * 2 ^ (e' + 1074) = M * 2 ^ (e + 1074)
    /\ e' <= 971
    /\ valid_binary (S754_finite false m' e') = true.
Proof.
  intros [L U] He.
  destruct (Z.eq_dec M (2 ^ 53)) as [->|N].
  - exists (Z.to_pos (2 ^ 52)), (e + 1). unfold shr_fexp.
    change (Zdigits2 (2 ^ 53)) with 54. rewrite fexp_eq.
    replace (Z.max (54 + e - 53) (-1074) - e) with 1 by lia.
    split; [reflexivity|]. split; [|split].
    + change (Z.pos (Z.to_pos (2 ^ 52))) with (2 ^ 52).
      replace (e + 1 + 1074) with (1 + (e + 1074)) by lia.
      rewrite (Z.pow_add_r 2 1 (e + 1074)) by lia.
      change (2 ^ 53) with (2 ^ 52 * 2 ^ 1). ring.
    + lia.
    + unfold valid_binary, bounded, canonical_mantissa.
      change (Z.pos (digits2_pos (Z.to_pos (2 ^ 52)))) with 53.
      rewrite fexp_eq. apply andb_true_intro. split.
      * apply Z.eqb_eq. lia.
      * apply Z.leb_le. change (emax - prec) with 971. lia.
  - assert (D : Zdigits2 M = 53)
      by (apply Zdigits2_unique; [lia|]; change (53 - 1) with 52; lia).
    assert (0 < M) by (change (2 ^ 52) with 4503599627370496 in L; lia).
    destruct M as [|p|p]; try lia.
    exists p, e. unfold shr_fexp. rewrite D, fexp_eq.
    replace (Z.max (53 + e - 53) (-1074) - e) with 0 by lia.
    split; [reflexivity|]. split; [reflexivity|]. split; [lia|].
    unfold valid_binary, bounded, canonical_mantissa.
    cbn [Zdigits2] in D. rewrite D, fexp_eq.
    apply andb_true_intro. split.
    + apply Z.eqb_eq. lia.
    + apply Z.leb_le. change (emax - prec) with 971. lia.
Qed.
End Hundredths.

Module Correct.
Import Aux Shifted.
Local Open Scope Z_scope.

(** [dec2float] on hundredths is correctly rounded: the Number of
    [n / 100] is [M * 2^E] for a mantissa [M] of 53 digits (or [2^53]), the
    exponent [E] is the one of the binade of [n / 100], and no multiple of
    [2^E] is nearer to [n / 100].  Everything is scaled by
    [100 * 2^1074]. *)
Lemma dec2float_nearest n :
  1 <= n < 2 ^ 77 ->
  exists M E,
    finite (JS.dec2float false n (-2)) = true
    /\ ord (JS.dec2float false n (-2)) = M * 2 ^ (E + 1074)
    /\ -1074 <= E <= 970
    /\ 2 ^ 52 <= M <= 2 ^ 53
    /\ 100 * 2 ^ (E + 1126) <= n * 2 ^ 1074 < 100 * 2 ^ (E + 1127)
    /\ forall j, Z.abs (100 * (M * 2 ^ (E + 1074)) - n * 2 ^ 1074)
                 <= Z.abs (100 * (j * 2 ^ (E + 1074)) - n * 2 ^ 1074).
Proof.
  intros Hn.
  destruct (Hundredths.division_of_hundredths n Hn) as [s [Hs [HA Ediv]]].
  unfold JS.dec2float.
  replace (n <=? 0) with false by (symmetry; apply Z.leb_gt; lia).
  change (0 <=? -2) with false. cbv iota.
  change (10 ^ (- -2)) with 100. rewrite Ediv. clear Ediv.
  set (A := n * 2 ^ s) in *.
  pose proof (Nearest.tracks_division A ltac:(lia)) as T0.
  assert (Eq : fst (Z.div_eucl A 100) = A / 100) by reflexivity.
  set (q := fst (Z.div_eucl A 100)) in *.
  set (l := new_location 100 (snd (Z.div_eucl A 100))) in *.
  (* the quotient *)
  assert (Hq : 2 ^ 52 <= q < 2 ^ 71).
  { rewrite Eq. split.
    - apply Z.div_le_lower_bound; [lia|].
      apply Z.le_trans with (2 ^ 59); [vm_compute; discriminate|lia].
    - apply Z.div_lt_upper_bound; [lia|].
      apply Z.lt_le_trans with (2 ^ 77); [lia|vm_compute; discriminate]. }
  assert (Q0 : 0 < q) by (change (2 ^ 52) with 4503599627370496 in Hq; lia).
  destruct (Hundredths.Zdigits2_bounds q Q0) as [Hd [Lq Uq]].
  set (dq := Zdigits2 q) in *.
  assert (D : 53 <= dq <= 71).
  { split.
    - destruct (Z_le_gt_dec 53 dq) as [|G]; [assumption|exfalso].
      assert (2 ^ dq <= 2 ^ 52) by (apply Z.pow_le_mono_r; lia). lia.
    - destruct (Z_le_gt_dec dq 71) as [|G]; [assumption|exfalso].
      assert (2 ^ 71 <= 2 ^ (dq - 1)) by (apply Z.pow_le_mono_r; lia). lia. }
  set (k := dq - 53).
  assert (PQ : 0 < 2 ^ k) by (apply Z.pow_pos_nonneg; unfold k; lia).
  set (Q := 2 ^ k) in *.
  assert (Em : A / (100 * Q) = q / Q)
    by (rewrite Eq; symmetry; apply Z.div_div; lia).
  assert (Hm : 2 ^ 52 <= q / Q < 2 ^ 53).
  { assert (Xa : 2 ^ 52 * Q = 2 ^ (dq - 1))
      by (unfold Q, k; rewrite <- Z.pow_add_r by lia; f_equal; lia).
    assert (Xb : 2 ^ 53 * Q = 2 ^ dq)
      by (unfold Q, k; rewrite <- Z.pow_add_r by lia; f_equal; lia).
    split.
    - apply Z.div_le_lower_bound; [lia|]. rewrite Z.mul_comm. lia.
    - apply Z.div_lt_upper_bound; [lia|]. rewrite Z.mul_comm. lia. }
  (* the two shifts and the rounding between them *)
  assert (X : exists M m' e',
            binary_round_aux prec emax false q (- s) l
            = S754_finite false m' e'
            /\ valid_binary (S754_finite false m' e') = true
            /\ Z.pos m' * 2 ^ (e' + 1074) = M * 2 ^ (- s + k + 1074)
            /\ 2 ^ 52 <= M <= 2 ^ 53
            /\ forall j, Z.abs (M * (100 * Q) - A)
                         <= Z.abs (j * (100 * Q) - A)).
  { unfold binary_round_aux. unfold shr_fexp at 1. fold dq.
    rewrite Hundredths.fexp_eq.
    replace (Z.max (dq + - s - 53) (-1074) - - s) with k by (unfold k; lia).
    destruct (Nearest.tracks_shr A 100 (shr_record_of_loc q l) (- s) k
                ltac:(lia) ltac:(lia) ltac:(unfold k; lia) T0) as [T1 E1].
    destruct (shr (shr_record_of_loc q l) (- s) k) as [mrs1 e1].
    cbn [fst snd] in T1, E1. subst e1. fold Q in T1.
    destruct (Nearest.round_nearest A (100 * Q) mrs1 ltac:(lia) ltac:(lia)
                T1) as [[Ml Mu] Near].
    set (M := round_nearest_even (shr_m mrs1) (loc_of_shr_record mrs1)) in *.
    rewrite Em in Ml, Mu.
    assert (HM : 2 ^ 52 <= M <= 2 ^ 53) by lia.
    destruct (Hundredths.renormalize M (- s + k) HM ltac:(unfold k; lia))
      as [m' [e' [-> [V [He' B]]]]].
    cbn [shr_m].
    replace (e' <=? emax - prec) with true
      by (symmetry; apply Z.leb_le; change (emax - prec) with 971; lia).
    exists M, m', e'. repeat split; try assumption; lia. }
  destruct X as [M [m' [e' [-> [B [V [HM Near]]]]]]].
  exists M, (- s + k).
  unfold finite, ord. rewrite (Prim2SF_SF2Prim _ B). cbn [SFord cond_Zopp].
  split; [reflexivity|]. split; [exact V|].
  split; [unfold k; lia|]. split; [exact HM|].
  (* scaling *)
  assert (PP : 0 < 2 ^ (1074 - s)) by (apply Z.pow_pos_nonneg; lia).
  set (P := 2 ^ (1074 - s)) in *.
  assert (S1 : 2 ^ (- s + k + 1074) = Q * P)
    by (unfold Q, P; rewrite <- Z.pow_add_r by (unfold k; lia);
        f_equal; lia).
  assert (S2 : 2 ^ 1074 = 2 ^ s * P)
    by (unfold P; rewrite <- Z.pow_add_r by lia; f_equal; lia).
  assert (S3 : 2 ^ (- s + k + 1126) = 2 ^ 52 * (Q * P)).
  { rewrite <- S1, <- Z.pow_add_r by (unfold k; lia). f_equal. lia. }
  assert (S4 : 2 ^ (- s + k + 1127) = 2 ^ 53 * (Q * P)).
  { rewrite <- S1, <- Z.pow_add_r by (unfold k; lia). f_equal. lia. }
  rewrite S1, S3, S4, S2.
  assert (TA : n * (2 ^ s * P) = A * P) by (unfold A; ring).
  rewrite TA. split.
  - (* the binade *)
    pose proof (Z.mul_div_le A (100 * Q) ltac:(lia)) as F1.
    pose proof (Z.mul_succ_div_gt A (100 * Q) ltac:(lia)) as F2.
    rewrite Em in F1, F2.
    assert (G1 : 100 * Q * 2 ^ 52 <= A).
    { apply Z.le_trans with (100 * Q * (q / Q)); [|exact F1].
      apply Z.mul_le_mono_nonneg_l; lia. }
    assert (G2 : A < 100 * Q * 2 ^ 53).
    { apply Z.lt_le_trans with (100 * Q * Z.succ (q / Q)); [exact F2|].
      apply Z.mul_le_mono_nonneg_l; lia. }
    split.
    + replace (100 * (2 ^ 52 * (Q * P))) with (100 * Q * 2 ^ 52 * P) by ring.
      apply Z.mul_le_mono_nonneg_r; lia.
    + replace (100 * (2 ^ 53 * (Q * P))) with (100 * Q * 2 ^ 53 * P) by ring.
      apply Z.mul_lt_mono_pos_r; lia.
  - intros j. specialize (Near j).
    replace (100 * (M * (Q * P)) - A * P) with ((M * (100 * Q) - A) * P)
      by ring.
    replace (100 * (j * (Q * P)) - A * P) with ((j * (100 * Q) - A) * P)
      by ring.
    rewrite !Z.abs_mul, (Z.abs_eq P) by lia.
    apply Z.mul_le_mono_nonneg_r; lia.
Qed.
End Correct.

Module Listed.
Import JS Aux Shifted.
Local Open Scope Z_scope.

(** ** The printed integer, by the number's place in the order *)

Lemma scaled_ord m e :
  0 < m -> -1074 <= e ->
  Fixed.scaled m e 2 = (200 * (m * 2 ^ (e + 1074)) + 2 ^ 1074) / 2 ^ 1075.
Proof.
  intros Hm He. unfold Fixed.scaled. change (10 ^ Z.of_nat 2) with 100.
  assert (W : 0 < 2 ^ 1074) by (apply Z.pow_pos_nonneg; lia).
  assert (W2 : 2 ^ 1075 = 2 * 2 ^ 1074)
    by (change 1075 with (1 + 1074); rewrite Z.pow_add_r by lia; reflexivity).
  destruct (0 <=? e) eqn:E.
  - apply Z.leb_le in E. rewrite Z.pow_add_r by lia.
    assert (0 <= 2 ^ e) by (apply Z.pow_nonneg; lia).
    set (w := 2 ^ 1074) in *. set (p := 2 ^ e) in *.
    apply Z.div_unique with w; [lia|]. rewrite W2. ring.
  - apply Z.leb_gt in E.
    assert (P : 0 < 2 ^ (e + 1074)) by (apply Z.pow_pos_nonneg; lia).
    assert (N : 2 ^ (- e) * 2 ^ (e + 1074) = 2 ^ 1074)
      by (rewrite <- Z.pow_add_r by lia; f_equal; lia).
    assert (D : 2 ^ (- e + 1) * 2 ^ (e + 1074) = 2 ^ 1075)
      by (rewrite <- Z.pow_add_r by lia; f_equal; lia).
    rewrite <- D, <- N.
    replace (200 * (m * 2 ^ (e + 1074)) + 2 ^ (- e) * 2 ^ (e + 1074))
      with ((2 * m * 100 + 2 ^ (- e)) * 2 ^ (e + 1074)) by ring.
    rewrite Z.div_mul_cancel_r; [reflexivity| |lia].
    apply Z.pow_nonzero; lia.
Qed.

(** A number that is not negative and not infinite: its place in the
    order, and the integer [toFixed(2)] prints for it. *)
Lemma nonneg_finite x :
  (0 <=? x)%float = true -> finite x = true ->
  0 <= ord x
  /\ hundredths x = (200 * ord x + 2 ^ 1074) / 2 ^ 1075
  /\ (Prim2SF x = S754_zero false \/ Prim2SF x = S754_zero true
      \/ exists m e, Prim2SF x = S754_finite false m e
                     /\ -1074 <= e /\ Z.pos m < 2 ^ 53).
Proof.
  rewrite leb_spec. unfold finite, ord, hundredths.
  pose proof (Prim2SF_valid x) as V.
  destruct (Prim2SF x) as [s|s| |s m e]; try discriminate.
  - intros _ _. cbn [SFord]. split; [lia|]. split; [reflexivity|].
    destruct s; auto.
  - destruct s; [discriminate|]. intros _ _.
    destruct (Order.valid_finite _ _ _ V) as [He [Hm _]].
    cbn [SFord cond_Zopp]. split; [|split].
    + apply Z.mul_nonneg_nonneg; [lia|]. apply Z.pow_nonneg. lia.
    + apply scaled_ord; lia.
    + right. right. exists m, e. repeat split; lia.
Qed.

Lemma hundredths_mono x y :
  (0 <=? x)%float = true -> finite x = true -> finite y = true ->
  (x <=? y)%float = true -> 0 <= hundredths x <= hundredths y.
Proof.
  intros X0 Fx Fy L.
  assert (Nx : PrimFloat.is_nan x = false).
  { rewrite F64.is_nan_spec. unfold finite in Fx.
    destruct (Prim2SF x); try reflexivity. discriminate. }
  assert (Ny : PrimFloat.is_nan y = false).
  { rewrite F64.is_nan_spec. unfold finite in Fy.
    destruct (Prim2SF y); try reflexivity. discriminate. }
  assert (Y0 : (0 <=? y)%float = true).
  { rewrite (Order.leb_ord 0%float y eq_refl Ny).
    rewrite (Order.leb_ord 0%float x eq_refl Nx) in X0.
    rewrite (Order.leb_ord _ _ Nx Ny) in L.
    apply Z.leb_le in X0, L. apply Z.leb_le. lia. }
  destruct (nonneg_finite x X0 Fx) as [Ox [-> _]].
  destruct (nonneg_finite y Y0 Fy) as [Oy [-> _]].
  rewrite (Order.leb_ord _ _ Nx Ny) in L. apply Z.leb_le in L.
  assert (W : 0 < 2 ^ 1074) by (apply Z.pow_pos_nonneg; lia).
  assert (W2 : 0 < 2 ^ 1075) by (apply Z.pow_pos_nonneg; lia).
  split.
  - apply Z.div_pos; lia.
  - apply Z.div_le_mono; lia.
Qed.

(** ** Correct rounding, against every number *)

Lemma dec2float_nonneg n :
  0 <= ord (dec2float false n (-2))
  /\ PrimFloat.is_nan (dec2float false n (-2)) = false
  /\ (0 <=? dec2float false n (-2))%float = true.
Proof.
  pose proof (Rounding.dec2float_signed false n (-2)) as S.
  assert (N : PrimFloat.is_nan (dec2float false n (-2)) = false)
    by (apply (Rounding.signed_not_nan false); exact S).
  assert (L : (0 <=? dec2float false n (-2))%float = true)
    by (apply Rounding.signed_nonneg; exact S).
  split; [|split; assumption].
  rewrite (Order.leb_ord 0%float _ eq_refl N) in L. apply Z.leb_le in L.
  exact L.
Qed.

Lemma dec2float_zero : ord (dec2float false 0 (-2)) = 0.
Proof. reflexivity. Qed.

(** No number is nearer to [n / 100] than [dec2float] of it. *)
Lemma rounded_nearest n x :
  1 <= n < 2 ^ 77 ->
  (0 <=? x)%float = true -> finite x = true ->
  Z.abs (100 * ord (dec2float false n (-2)) - n * 2 ^ 1074)
  <= Z.abs (100 * ord x - n * 2 ^ 1074).
Proof.
  intros Hn X0 Fx.
  destruct (Correct.dec2float_nearest n Hn)
    as [M [E [_ [-> [HE [HM [[B1 B2] Near]]]]]]].
  destruct (nonneg_finite x X0 Fx) as [_ [_ S]].
  unfold ord.
  destruct S as [->|[->|[m [e [-> [He Hm]]]]]]; cbn [SFord cond_Zopp].
  - specialize (Near 0). now rewrite Z.mul_0_l in Near.
  - specialize (Near 0). now rewrite Z.mul_0_l in Near.
  - destruct (Z_le_gt_dec E e) as [L|G].
    + specialize (Near (Z.pos m * 2 ^ (e - E))).
      replace (Z.pos m * 2 ^ (e - E) * 2 ^ (E + 1074))
        with (Z.pos m * 2 ^ (e + 1074)) in Near; [exact Near|].
      rewrite <- Z.mul_assoc, <- Z.pow_add_r by lia. do 2 f_equal. lia.
    + specialize (Near (2 ^ 52)).
      assert (G1 : 2 ^ 52 * 2 ^ (E + 1074) = 2 ^ (E + 1126))
        by (rewrite <- Z.pow_add_r by lia; f_equal; lia).
      rewrite G1 in Near.
      assert (G2 : Z.pos m * 2 ^ (e + 1074) < 2 ^ (E + 1126)).
      { apply Z.lt_le_trans with (2 ^ 53 * 2 ^ (e + 1074)).
        - apply Z.mul_lt_mono_pos_r; [apply Z.pow_pos_nonneg; lia|lia].
        - rewrite <- Z.pow_add_r by lia. apply Z.pow_le_mono_r; lia. }
      set (T := n * 2 ^ 1074) in *. set (g := 2 ^ (E + 1126)) in *.
      set (v := M * 2 ^ (E + 1074)) in *.
      set (h := Z.pos m * 2 ^ (e + 1074)) in *. lia.
Qed.

(** [dec2float] on hundredths does not decrease. *)
Lemma dec2float_mono n1 n2 :
  0 <= n1 <= n2 -> n2 < 2 ^ 77 ->
  ord (dec2float false n1 (-2)) <= ord (dec2float false n2 (-2)).
Proof.
  intros [H0 H12] H2.
  destruct (Z.eq_dec n1 0) as [->|N1].
  { rewrite dec2float_zero. apply dec2float_nonneg. }
  destruct (Z.eq_dec n1 n2) as [->|N12]; [lia|].
  destruct (Correct.dec2float_nearest n1 ltac:(lia))
    as [M1 [E1 [_ [-> [HE1 [HM1 [[B1 B1'] Near1]]]]]]].
  destruct (Correct.dec2float_nearest n2 ltac:(lia))
    as [M2 [E2 [_ [-> [HE2 [HM2 [[B2 B2'] Near2]]]]]]].
  assert (W : 0 < 2 ^ 1074) by (apply Z.pow_pos_nonneg; lia).
  assert (T : n1 * 2 ^ 1074 < n2 * 2 ^ 1074)
    by (apply Z.mul_lt_mono_pos_r; lia).
  destruct (Z.lt_trichotomy E1 E2) as [L|[->|G]].
  - apply Z.le_trans with (2 ^ 53 * 2 ^ (E1 + 1074)).
    + apply Z.mul_le_mono_nonneg_r; [apply Z.pow_nonneg; lia|lia].
    + apply Z.le_trans with (2 ^ 52 * 2 ^ (E2 + 1074)).
      * rewrite <- !Z.pow_add_r by lia. apply Z.pow_le_mono_r; lia.
      * apply Z.mul_le_mono_nonneg_r; [apply Z.pow_nonneg; lia|lia].
  - specialize (Near1 M2). specialize (Near2 M1).
    set (p := 2 ^ (E2 + 1074)) in *.
    set (a := M1 * p) in *. set (b := M2 * p) in *.
    set (t1 := n1 * 2 ^ 1074) in *. set (t2 := n2 * 2 ^ 1074) in *. lia.
  - exfalso.
    assert (2 ^ (E2 + 1127) <= 2 ^ (E1 + 1126))
      by (apply Z.pow_le_mono_r; lia).
    lia.
Qed.

Lemma dec2float_1e23 :
  dec2float false (10 ^ 23) (-2) = 1e21%float.
Proof. vm_compute. reflexivity. Qed.
End Listed.

Module ListedFacts.
Import JS Aux Shifted.
Local Open Scope float_scope.

(** A number from [10^21] on goes through [toFixed] and [parseFloat]
    unchanged. *)
Lemma rounded_huge d : (1e21 <=? d) = true -> rounded d = d.
Proof.
  intros H. unfold rounded.
  assert (N : PrimFloat.is_nan d = false).
  { rewrite F64.is_nan_spec. rewrite leb_spec in H.
    destruct (Prim2SF d); try reflexivity.
    destruct (Prim2SF 1e21); discriminate. }
  rewrite (Order.leb_ord 1e21 d eq_refl N), Rounding.ord_1e21 in H.
  apply Z.leb_le in H. unfold ord in H. unfold Fixed.toFixed.
  pose proof (Prim2SF_valid d) as V.
  assert (P : (0 < 10 ^ 21 * 2 ^ 1074)%Z) by (vm_compute; reflexivity).
  destruct (Prim2SF d) as [s|s| |s m e] eqn:E.
  - cbn [SFord] in H. lia.
  - destruct s.
    + cbn [SFord cond_Zopp] in H.
      assert (0 < 2 ^ 2100)%Z by (apply Z.pow_pos_nonneg; lia). lia.
    + cbn [parseFloatString]. apply Prim2SF_inj. now rewrite E.
  - cbn [SFord] in H. lia.
  - destruct s.
    { cbn [SFord cond_Zopp] in H.
      assert (0 < 2 ^ (e + 1074))%Z.
      { destruct (Order.valid_finite _ _ _ V) as [Ee _].
        apply Z.pow_pos_nonneg; lia. }
      lia. }
    assert (Hh : Fixed.huge (Z.pos m) e = true).
    { destruct (Order.valid_finite _ _ _ V) as [Ee _].
      cbn [SFord cond_Zopp] in H. unfold Fixed.huge.
      destruct (0 <=? e)%Z eqn:E0.
      - apply Z.leb_le in E0. apply Z.leb_le.
        rewrite Z.pow_add_r in H by lia. rewrite Z.mul_assoc in H.
        apply Z.mul_le_mono_pos_r in H; [exact H|].
        apply Z.pow_pos_nonneg; lia.
      - apply Z.leb_gt in E0. apply Z.leb_le.
        replace 1074%Z with (- e + (e + 1074))%Z in H at 1 by lia.
        rewrite (Z.pow_add_r 2 (- e) (e + 1074)) in H by lia.
        rewrite Z.mul_assoc in H.
        apply Z.mul_le_mono_pos_r in H; [exact H|].
        apply Z.pow_pos_nonneg; lia. }
    rewrite Hh. cbn [parseFloatString]. unfold reread.
    destruct (PrimFloat.is_zero d) eqn:Z; [|reflexivity].
    apply F64.is_zero_spec in Z. destruct Z as [s Z]. congruence.
Qed.

(** A number in [0, 10^21) is printed as its nearest hundredth and read
    back as the Number nearest to that. *)
Lemma rounded_small d :
  (0 <=? d) = true -> (d <? 1e21) = true ->
  let n := hundredths d in
  finite d = true
  /\ (0 <= n < 10 ^ 23)%Z
  /\ (ord d < 10 ^ 21 * 2 ^ 1074)%Z
  /\ Fixed.toFixed d 2 = Spelled (Fixed.point n 2)
  /\ rounded d = dec2float false n (-2).
Proof.
  intros H0 H1 n.
  destruct (rounded_distance d H0 H1) as [Hn [Ht Hp]]. fold n in Hn, Ht, Hp.
  assert (F : finite d = true).
  { unfold finite.
    destruct (Rounding.below_huge d H0 H1) as [[s ->]|[m [e [-> _]]]];
      reflexivity. }
  assert (N : PrimFloat.is_nan d = false).
  { rewrite F64.is_nan_spec. unfold finite in F.
    destruct (Prim2SF d); try reflexivity. discriminate. }
  assert (O : (ord d < 10 ^ 21 * 2 ^ 1074)%Z).
  { rewrite (Order.ltb_ord d 1e21 N eq_refl), Rounding.ord_1e21 in H1.
    now apply Z.ltb_lt in H1. }
  split; [exact F|]. split; [|split; [exact O|split; assumption]].
  split; [exact Hn|].
  (* the printed integer is below 10^23 *)
  destruct (Listed.nonneg_finite d H0 F) as [O0 [En S]]. unfold n. rewrite En.
  assert (W : (0 < 2 ^ 1074)%Z) by (apply Z.pow_pos_nonneg; lia).
  assert (W2 : (2 ^ 1075 = 2 * 2 ^ 1074)%Z)
    by (change 1075%Z with (1 + 1074)%Z; rewrite Z.pow_add_r by lia;
        reflexivity).
  apply Z.div_lt_upper_bound; [lia|]. rewrite W2.
  unfold ord in O, O0 |- *.
  destruct S as [E|[E|[m [e [E [He Hm]]]]]]; rewrite E in *;
    cbn [SFord cond_Zopp] in *; try lia.
  destruct (Z_le_gt_dec 0 e) as [P|Q].
  - (* an integer below 10^21 *)
    rewrite Z.pow_add_r in * by lia.
    assert (0 <= 2 ^ e)%Z by (apply Z.pow_nonneg; lia).
    set (w := (2 ^ 1074)%Z) in *.
    assert (K : (Z.pos m * 2 ^ e < 10 ^ 21)%Z).
    { apply Z.mul_lt_mono_pos_r with w; [exact W|]. lia. }
    set (k := (Z.pos m * 2 ^ e)%Z) in *.
    replace (Z.pos m * (2 ^ e * w))%Z with (k * w)%Z by (unfold k; ring).
    nia.
  - (* below 2^53 *)
    assert (Z.pos m * 2 ^ (e + 1074) < 2 ^ 53 * 2 ^ 1074)%Z.
    { apply Z.lt_le_trans with (2 ^ 53 * 2 ^ (e + 1074))%Z.
      - apply Z.mul_lt_mono_pos_r; [apply Z.pow_pos_nonneg; lia|lia].
      - apply Z.mul_le_mono_nonneg_l; [lia|].
        apply Z.pow_le_mono_r; lia. }
    set (w := (2 ^ 1074)%Z) in *.
    set (v := (Z.pos m * 2 ^ (e + 1074))%Z) in *. lia.
Qed.

(** Below [10^21] or not. *)
Lemma small_or_huge d :
  (0 <=? d) = true -> (d <? 1e21) = true \/ (1e21 <=? d) = true.
Proof.
  intros H.
  assert (N : PrimFloat.is_nan d = false).
  { rewrite F64.is_nan_spec. rewrite leb_spec in H.
    destruct (Prim2SF d); try reflexivity. discriminate. }
  rewrite (F64.ltb_leb d 1e21 N eq_refl).
  destruct (1e21 <=? d); auto.
Qed.

(** The printed integer stays within half a unit of [100 d]. *)
Lemma hundredths_near d :
  (0 <=? d) = true -> finite d = true ->
  (- 2 ^ 1073 <= 100 * ord d - hundredths d * 2 ^ 1074 < 2 ^ 1073)%Z.
Proof.
  intros H0 F. destruct (Listed.nonneg_finite d H0 F) as [O [-> _]].
  assert (W : (0 < 2 ^ 1073)%Z) by (apply Z.pow_pos_nonneg; lia).
  assert (W1 : (2 ^ 1074 = 2 * 2 ^ 1073)%Z)
    by (change 1074%Z with (1 + 1073)%Z; rewrite Z.pow_add_r by lia;
        reflexivity).
  assert (W2 : (2 ^ 1075 = 4 * 2 ^ 1073)%Z)
    by (change 1075%Z with (2 + 1073)%Z; rewrite Z.pow_add_r by lia;
        reflexivity).
  rewrite W1, W2. set (h := (2 ^ 1073)%Z) in *.
  pose proof (Z.mul_div_le (200 * ord d + 2 * h) (4 * h) ltac:(lia)) as A.
  pose proof (Z.mul_succ_div_gt (200 * ord d + 2 * h) (4 * h) ltac:(lia))
    as B.
  set (n := ((200 * ord d + 2 * h) / (4 * h))%Z) in *. lia.
Qed.
End ListedFacts.

Section ListedTheorems.
Import JS Aux Shifted.
Local Open Scope float_scope.
Variables (sin cos : float -> float) (atan2 : float -> float -> float).

Lemma rounded_of_small d :
  (0 <=? d) = true -> (d <? 1e21) = true ->
  PrimFloat.is_nan (rounded d) = false
  /\ (0 <= ord (rounded d))%Z
  /\ (100 * Z.abs (ord (rounded d) - ord d) <= 2 ^ 1074)%Z
  /\ (hundredths d = 0%Z \/
      (Z.abs (100 * ord (rounded d) - hundredths d * 2 ^ 1074)
       <= Z.abs (100 * ord d - hundredths d * 2 ^ 1074))%Z).
Proof.
  intros H0 H1.
  destruct (ListedFacts.rounded_small d H0 H1) as [F [[N0 N1] [O [_ ->]]]].
  destruct (Listed.dec2float_nonneg (hundredths d)) as [R0 [RN _]].
  pose proof (ListedFacts.hundredths_near d H0 F) as Near.
  assert (W1 : (2 ^ 1074 = 2 * 2 ^ 1073)%Z)
    by (change 1074%Z with (1 + 1073)%Z; rewrite Z.pow_add_r by lia;
        reflexivity).
  assert (W : (0 < 2 ^ 1073)%Z) by (apply Z.pow_pos_nonneg; lia).
  split; [exact RN|]. split; [exact R0|].
  destruct (Z.eq_dec (hundredths d) 0) as [E|E].
  - rewrite E in *. rewrite Listed.dec2float_zero.
    destruct (Listed.nonneg_finite d H0 F) as [Od _].
    split; [|now left].
    set (h := (2 ^ 1073)%Z) in *. lia.
  - assert (B : (1 <= hundredths d < 2 ^ 77)%Z).
    { split; [lia|]. apply Z.lt_trans with (10 ^ 23)%Z; [lia|].
      vm_compute. reflexivity. }
    pose proof (Listed.rounded_nearest (hundredths d) d B H0 F) as Nr.
    split; [|now right].
    set (h := (2 ^ 1073)%Z) in *.
    set (t := (hundredths d * 2 ^ 1074)%Z) in *. lia.
Qed.

(** X23.  Rounding keeps the order of the distances: of two raw distances
    that are not negative, the larger one is listed with a distance that
    is not smaller; so a school listed with a strictly smaller distance
    than another is strictly nearer by the raw distances too.  The
    listed distance of a school is this rounding of the distance
    [calculateDistance] computes for it. *)
Theorem rounding_keeps_the_order (d1 d2 : float) :
  (0 <=? d1) = true -> (0 <=? d2) = true ->
  ((d1 <=? d2) = true -> (rounded d1 <=? rounded d2) = true)
  /\ ((rounded d1 <? rounded d2) = true -> (d1 <? d2) = true)
  /\ forall lat lon school,
       distance (withDistance sin cos atan2 lat lon school)
       = rounded (@calculateDistance _ (float_arith sin cos atan2) lat lon
                    (School.latitude school) (School.longitude school)).
Proof.
  intros P1 P2.
  assert (N : forall d, (0 <=? d) = true -> PrimFloat.is_nan d = false).
  { intros d H. rewrite F64.is_nan_spec. rewrite leb_spec in H.
    destruct (Prim2SF d); try reflexivity. discriminate. }
  assert (RN : forall d, (0 <=? d) = true ->
                         PrimFloat.is_nan (rounded d) = false).
  { intros d H. destruct (ListedFacts.small_or_huge d H) as [S|G].
    - apply (rounded_of_small d H S).
    - rewrite (ListedFacts.rounded_huge d G). now apply N. }
  assert (M : forall a b, (0 <=? a) = true -> (0 <=? b) = true ->
                          (a <=? b) = true ->
                          (rounded a <=? rounded b) = true).
  { intros a b A0 B0 L.
    rewrite (Order.leb_ord _ _ (RN a A0) (RN b B0)). apply Z.leb_le.
    rewrite (Order.leb_ord _ _ (N a A0) (N b B0)) in L. apply Z.leb_le in L.
    destruct (ListedFacts.small_or_huge a A0) as [Sa|Ga];
      destruct (ListedFacts.small_or_huge b B0) as [Sb|Gb].
    - destruct (ListedFacts.rounded_small a A0 Sa) as [Fa [_ [_ [_ ->]]]].
      destruct (ListedFacts.rounded_small b B0 Sb)
        as [Fb [[_ Nb] [_ [_ ->]]]].
      assert (Lf : (a <=? b) = true)
        by (rewrite (Order.leb_ord _ _ (N a A0) (N b B0));
            now apply Z.leb_le).
      pose proof (Listed.hundredths_mono a b A0 Fa Fb Lf) as Hm.
      apply Listed.dec2float_mono; [exact Hm|].
      apply Z.lt_trans with (10 ^ 23)%Z; [lia|vm_compute; reflexivity].
    - destruct (ListedFacts.rounded_small a A0 Sa)
        as [Fa [[Na0 Na1] [_ [_ ->]]]].
      rewrite (ListedFacts.rounded_huge b Gb).
      rewrite (Order.leb_ord 1e21 b eq_refl (N b B0)) in Gb.
      apply Z.leb_le in Gb.
      apply Z.le_trans with (ord 1e21); [|exact Gb].
      rewrite <- Listed.dec2float_1e23.
      apply Listed.dec2float_mono; [lia|vm_compute; reflexivity].
    - exfalso.
      rewrite (Order.leb_ord 1e21 a eq_refl (N a A0)) in Ga.
      rewrite (Order.ltb_ord b 1e21 (N b B0) eq_refl) in Sb.
      apply Z.leb_le in Ga. apply Z.ltb_lt in Sb. lia.
    - now rewrite (ListedFacts.rounded_huge a Ga),
        (ListedFacts.rounded_huge b Gb). }
  split; [now apply M|]. split; [|reflexivity].
  intros L.
  rewrite (F64.ltb_leb d1 d2 (N d1 P1) (N d2 P2)).
  destruct (d2 <=? d1) eqn:G; [|reflexivity].
  pose proof (M d2 d1 P2 P1 G) as G'.
  rewrite (F64.ltb_leb _ _ (RN d1 P1) (RN d2 P2)), G' in L. discriminate.
Qed.

(** X24.  The listed distance is within a hundredth of the raw one: for
    a raw distance [d] that is not negative,
    [|parseFloat(d.toFixed(2)) - d| <= 1/100].  (The order embedding
    sends a number [x] to [x * 2^1074], so the bound reads
    [100 * |ord r - ord d| <= 2^1074].) *)
Theorem rounding_moves_at_most_a_hundredth (d : float) :
  (0 <=? d) = true ->
  (100 * Z.abs (ord (rounded d) - ord d) <= 2 ^ 1074)%Z.
Proof.
  intros H. destruct (ListedFacts.small_or_huge d H) as [S|G].
  - apply (rounded_of_small d H S).
  - rewrite (ListedFacts.rounded_huge d G), Z.sub_diag. cbn [Z.abs].
    rewrite Z.mul_0_r. apply Z.pow_nonneg. lia.
Qed.

(** X25.  The listed distance prints as it was rounded: for a raw
    distance [d] that is not negative, [toFixed(2)] of the listed
    distance [parseFloat(d.toFixed(2))] is the string [d.toFixed(2)], so
    rounding a listed distance again changes nothing. *)
Theorem listed_distance_prints_as_rounded (d : float) :
  (0 <=? d) = true ->
  Fixed.toFixed (rounded d) 2 = Fixed.toFixed d 2
  /\ rounded (rounded d) = rounded d.
Proof.
  intros H.
  assert (E : Fixed.toFixed (rounded d) 2 = Fixed.toFixed d 2).
  { destruct (ListedFacts.small_or_huge d H) as [S|G];
      [|now rewrite (ListedFacts.rounded_huge d G)].
    destruct (rounded_of_small d H S) as [RN [R0 [Err Near]]].
    destruct (ListedFacts.rounded_small d H S)
      as [F [[N0 N1] [O [Ht Er]]]].
    pose proof (ListedFacts.hundredths_near d H F) as Nd.
    destruct (Listed.dec2float_nonneg (hundredths d)) as [_ [_ P]].
    rewrite <- Er in P.
    assert (W1 : (2 ^ 1074 = 2 * 2 ^ 1073)%Z)
      by (change 1074%Z with (1 + 1073)%Z; rewrite Z.pow_add_r by lia;
          reflexivity).
    assert (W : (0 < 2 ^ 1073)%Z) by (apply Z.pow_pos_nonneg; lia).
    (* the listed distance is below 10^21 *)
    assert (S' : (rounded d <? 1e21) = true).
    { rewrite (Order.ltb_ord (rounded d) 1e21 RN eq_refl), Rounding.ord_1e21.
      apply Z.ltb_lt.
      destruct Near as [Z0|Near].
      - rewrite Er, Z0, Listed.dec2float_zero. vm_compute. reflexivity.
      - set (h := (2 ^ 1073)%Z) in *.
        set (t := (hundredths d * 2 ^ 1074)%Z) in *.
        assert (T : (t <= (10 ^ 23 - 1) * (2 * h))%Z).
        { unfold t. rewrite W1. apply Z.mul_le_mono_nonneg_r; lia. }
        rewrite W1. lia. }
    destruct (ListedFacts.rounded_small (rounded d) P S')
      as [F' [_ [_ [Ht' _]]]].
    rewrite Ht', Ht. do 2 f_equal.
    (* and prints the same integer *)
    pose proof (ListedFacts.hundredths_near (rounded d) P F') as Nr.
    destruct Near as [Z0|Near].
    - rewrite Er, Z0. reflexivity.
    - assert (D : ~ (100 * (ord (rounded d) - ord d) = 2 ^ 1074)%Z).
      { intros X.
        assert (Y : ((2 ^ 1074) mod 100 = 0)%Z).
        { rewrite <- X, Z.mul_comm. apply Z.mod_mul. lia. }
        vm_compute in Y. discriminate. }
      rewrite W1 in Near, Nr, Nd, D.
      set (h := (2 ^ 1073)%Z) in *.
      set (b := hundredths (rounded d)) in *.
      set (n := hundredths d) in *.
      set (r := ord (rounded d)) in *. set (o := ord d) in *.
      assert (Pb : (b * (2 * h) - n * (2 * h) = (b - n) * (2 * h))%Z) by ring.
      destruct (Z.lt_trichotomy b n) as [L|[L|L]]; [exfalso|exact L|exfalso].
      * assert ((1 * (2 * h) <= (n - b) * (2 * h))%Z)
          by (apply Z.mul_le_mono_nonneg_r; lia).
        assert ((n - b) * (2 * h) = n * (2 * h) - b * (2 * h))%Z by ring.
        lia.
      * assert ((1 * (2 * h) <= (b - n) * (2 * h))%Z)
          by (apply Z.mul_le_mono_nonneg_r; lia).
        lia. }
  split; [exact E|]. unfold rounded at 1. now rewrite E.
Qed.

End ListedTheorems.

Lemma rounding_keeps_the_order_witness :
  (Shifted.rounded 1.005 <=? Shifted.rounded 1.015)%float = true.
Proof.
  apply (proj1 (rounding_keeps_the_order Sample.sin Sample.cos Sample.atan2
                  1.005 1.015 eq_refl eq_refl)).
  reflexivity.
Defined.

Lemma rounding_moves_at_most_a_hundredth_witness :
  (100 * Z.abs (Aux.ord (Shifted.rounded 1.005) - Aux.ord 1.005)
   <= 2 ^ 1074)%Z.
Proof.
  apply (rounding_moves_at_most_a_hundredth 1.005). reflexivity.
Defined.

Lemma listed_distance_prints_as_rounded_witness :
  Fixed.toFixed (Shifted.rounded 1.005) 2 = Fixed.toFixed 1.005 2.
Proof.
  apply (proj1 (listed_distance_prints_as_rounded 1.005 eq_refl)).
Defined.

(* ===================================================================== *)
(** * The distances of a listing that are numbers *)
(* ===================================================================== *)

Section ListedNumbers.
Import JS Rules Aux.
Local Open Scope string_scope.
Local Open Scope float_scope.
Variables (sin cos : float -> float) (atan2 : float -> float -> float).

(** What ECMA-262 says of [Math.atan2] here: it is [NaN] on a [NaN], and
    on two non-negative numbers it approximates an angle of the first
    quadrant, a number between 0 and 4. *)
Hypothesis atan2_nan :
  forall y x, PrimFloat.is_nan y = true \/ PrimFloat.is_nan x = true ->
              PrimFloat.is_nan (atan2 y x) = true.
Hypothesis atan2_range :
  forall y x, (0 <=? y) = true -> (0 <=? x) = true ->
              PrimFloat.is_nan (atan2 y x) = true
              \/ ((0 <=? atan2 y x) = true /\ (atan2 y x <=? 4) = true).

(** X26.  Every school of a listing response whose [distance] is a number
    carries a non-negative number rounded to two decimal places: the raw
    distance [d] is not negative, [d.toFixed(2)] prints an integer part, a
    point and two digits, namely the digits of the integer [n] nearest to
    [100 d] (the larger of two equally near, which for these non-negative
    numbers is rounding half away from zero), and [distance] is not
    negative and is a Number nearest to [n / 100]: no Number that is not
    negative and not infinite is nearer.  (The order embedding sends a
    number [x] to [x * 2^1074], so [100 * ord x - n * 2^1074] is
    [100 x - n] on that scale.) *)
Theorem listed_numbers_are_rounded (query : Query.t) (env : Env)
    (db db' : Db) (count : nat) (ranked : list RankedSchool)
    (r : RankedSchool) :
  run env (listSchools sin cos atan2 query) db
  = ({| status := 200; body := Listing count ranked |}, db') ->
  In r ranked ->
  isNaN (distance r) = false ->
  exists school,
    In school (rows db)
    /\ r = withDistance sin cos atan2 (parseFloat (Query.latitude query))
                       (parseFloat (Query.longitude query)) school
    /\ let d := @calculateDistance _ (float_arith sin cos atan2)
                  (parseFloat (Query.latitude query))
                  (parseFloat (Query.longitude query))
                  (School.latitude school) (School.longitude school) in
       let n := hundredths d in
       (0 <=? d) = true
       /\ (exists whole,
             whole <> ""
             /\ Fixed.toFixed d 2
                = Spelled (whole ++ "." ++ Fixed.fixed_digits 2 n))
       /\ (- 2 ^ 1073 <= 100 * ord d - n * 2 ^ 1074 < 2 ^ 1073)%Z
       /\ (0 <=? distance r) = true
       /\ (forall x, (0 <=? x) = true -> finite x = true ->
             (Z.abs (100 * ord (distance r) - n * 2 ^ 1074)
              <= Z.abs (100 * ord x - n * 2 ^ 1074))%Z).
Proof.
  intros Hrun Hin Hnan.
  apply listing_response in Hrun. subst ranked.
  apply (Permutation_in _ (sort_perm byDistance _)) in Hin.
  apply in_map_iff in Hin. destruct Hin as [school [Hr Hs]].
  exists school. split; [exact Hs|]. split; [now symmetry|].
  cbv zeta. subst r. unfold withDistance in *. cbn [distance] in *.
  set (d := @calculateDistance _ _ _ _ _ _) in *.
  destruct (raw_distance_range sin cos atan2 atan2_nan atan2_range
              _ _ _ _ (rounded_nan d Hnan)) as [D0 D1].
  fold d in D0, D1.
  destruct (ListedFacts.rounded_small d D0 D1) as [F [[N0 N1] [_ [Hf Hp]]]].
  unfold Shifted.rounded in Hp.
  split; [exact D0|]. split; [|split; [|split]].
  - destruct (FixedFacts.point_two _ N0) as [w [W [_ E]]].
    exists (Fixed.fixed_digits w (hundredths d / 100)). split.
    + destruct w; [lia|]. discriminate.
    + now rewrite Hf, E.
  - exact (ListedFacts.hundredths_near d D0 F).
  - rewrite Hp. apply Rounding.signed_nonneg, Rounding.dec2float_signed.
  - intros x X0 Fx. rewrite Hp.
    destruct (Z.eq_dec (hundredths d) 0) as [E|E].
    + rewrite E, Listed.dec2float_zero, Z.mul_0_r, Z.mul_0_l.
      change (Z.abs (0 - 0)) with 0%Z. apply Z.abs_nonneg.
    + apply Listed.rounded_nearest; [|exact X0|exact Fx].
      split; [lia|]. apply Z.lt_trans with (10 ^ 23)%Z; [lia|].
      vm_compute. reflexivity.
Qed.
End ListedNumbers.

Lemma sample_atan2_nan (y x : float) :
  PrimFloat.is_nan y = true \/ PrimFloat.is_nan x = true ->
  PrimFloat.is_nan (Sample.atan2 y x) = true.
Proof.
  intros H. unfold Sample.atan2. cbv zeta.
  assert (E : PrimFloat.is_nan (y / x) = true).
  { rewrite !F64.is_nan_spec in *. rewrite div_spec.
    destruct H as [H|H].
    - destruct (Prim2SF y); try discriminate. reflexivity.
    - destruct (Prim2SF x); try discriminate. now destruct (Prim2SF y). }
  now rewrite E.
Qed.

Lemma sample_atan2_range (y x : float) :
  (0 <=? y)%float = true -> (0 <=? x)%float = true ->
  PrimFloat.is_nan (Sample.atan2 y x) = true
  \/ ((0 <=? Sample.atan2 y x)%float = true
      /\ (Sample.atan2 y x <=? 4)%float = true).
Proof.
  intros _ _. unfold Sample.atan2. cbv zeta.
  destruct (PrimFloat.is_nan (y / x)) eqn:N; [now left|right].
  destruct (0 <=? y / x)%float eqn:A, (y / x <=? 4)%float eqn:B; simpl;
    auto.
Qed.

Lemma listed_numbers_are_rounded_witness :
  let near :=
    withDistance Sample.sin Sample.cos Sample.atan2 45 (-122)
      Sample.portland in
  let far :=
    withDistance Sample.sin Sample.cos Sample.atan2 45 (-122)
      Sample.seattle in
  run Sample.env
      (listSchools Sample.sin Sample.cos Sample.atan2
         (Sample.query "45" "-122")) Sample.seeded
  = ({| status := 200; body := Listing 2 [near; far] |}, Sample.seeded)
  /\ exists school,
       In school (rows Sample.seeded) /\ (0 <=? distance near)%float = true.
Proof.
  intros near far.
  assert (Hrun :
    run Sample.env
        (listSchools Sample.sin Sample.cos Sample.atan2
           (Sample.query "45" "-122")) Sample.seeded
    = ({| status := 200; body := Listing 2 [near; far] |}, Sample.seeded))
    by (vm_compute; reflexivity).
  split; [exact Hrun|].
  destruct (listed_numbers_are_rounded
              Sample.sin Sample.cos Sample.atan2
              sample_atan2_nan sample_atan2_range
              (Sample.query "45" "-122") Sample.env
              Sample.seeded Sample.seeded 2 [near; far] near Hrun
              (or_introl eq_refl) eq_refl)
    as [school [Hin [_ [_ [_ [_ [Hd _]]]]]]].
  exists school. split; assumption.
Defined.

(* ===================================================================== *)
(** * Reading a decimal literal *)
(* ===================================================================== *)

Module LiteralFacts.
Import JS Shape Text Literal.
Local Open Scope string_scope.



Lemma length_append a b :
  String.length (a ++ b) = (String.length a + String.length b)%nat.
Proof. induction a as [|x a IH]; simpl; congruence. Qed.

(** ** White space *)



(** ** Runs of digits *)






(** ** The head of a literal *)




Lemma all_digits_no_digit d t :
  all_digits d = true -> d <> "" -> no_digit (d ++ t) = false.
Proof.
  destruct d as [|c d]; [congruence|]. cbn [all_digits]. intros H _.
  change (String c d ++ t) with (String c (d ++ t)). cbn [no_digit].
  destruct (digit c); [reflexivity|discriminate].
Qed.














(** ** From a string to the literal at its head *)






Lemma length_zero s : (0 + Z.of_nat (String.length s) =? 0)%Z = true -> s = "".
Proof.
  destruct s; [reflexivity|]. intros H. apply Z.eqb_eq in H.
  cbn [String.length] in H. lia.
Qed.

Lemma nonempty_not s : s <> "" -> nonempty s = true.
Proof. destruct s; [congruence|reflexivity]. Qed.

End LiteralFacts.

Section LiteralTheorems.
Import JS Shape Literal.
Local Open Scope string_scope.

End LiteralTheorems.


(* ===================================================================== *)
(** * The distance and the reference definition, in binary64 *)
(* ===================================================================== *)

Module Grouping.
Local Open Scope float_scope.

End Grouping.

Section HaversineTheorems.
Import JS Rules.
Local Open Scope float_scope.


End HaversineTheorems.


(* ===================================================================== *)
(** * A listing from the far side of the globe *)
(* ===================================================================== *)

Section OppositePoint.
Import JS Rules.
Local Open Scope string_scope.
Local Open Scope float_scope.

(** C2.  The listing for the valid point (8, 38), on a table that two
    accepted registrations filled with a school at (-8, -142) and a
    school at (8, 38), is not sorted: the distance of the first school is
    [NaN], because the rounded [a] of the formula is 1.0000000000000002
    and [1 - a] is negative, and in no order are the two schools
    non-decreasing by distance, so the answer is unsorted whatever order
    the sort leaves them in. *)
Theorem listing_out_of_order_at_the_opposite_point :
  let listing :=
    run Sample.env
        (listSchools Libm.sin Libm.cos Libm.atan2 (Sample.query "8" "38"))
        Libm.table in
  let after_first :=
    run Sample.env (addSchool Libm.register_opposite) Sample.empty in
  let after_second :=
    run Sample.env (addSchool Libm.register_here) (snd after_first) in
  status (fst after_first) = 201%Z
  /\ status (fst after_second) = 201%Z
  /\ snd after_second = Libm.table
  /\ validPoint (parseFloat (JStr "8")) (parseFloat (JStr "38")) = true
  /\ exists ranked first second,
       listing
       = ({| status := 200; body := Listing 2 ranked |}, Libm.table)
       /\ Permutation ranked [first; second]
       /\ school first = Libm.opposite
       /\ school second = Libm.here
       /\ isNaN (distance first) = true
       /\ distance second = 0
       /\ forall l,
            Permutation l ranked ->
            ~ Sorted (fun a b => (distance a <=? distance b) = true) l.
Proof.
  cbv zeta. repeat split; try (vm_compute; reflexivity).
  eexists. eexists. eexists. split; [vm_compute; reflexivity|].
  split; [apply Permutation_refl|].
  repeat split; try (vm_compute; reflexivity).
  intros l P S.
  apply Permutation_sym, Permutation_length_2_inv in P.
  destruct P as [P|P]; subst l;
    apply Sorted_inv in S; destruct S as [_ S];
    apply HdRel_inv in S; vm_compute in S; discriminate.
Qed.

(** C8.  In that listing the school at (-8, -142) is given the distance
    [NaN], which is not a non-negative number rounded to two decimals:
    both the query point and the stored school are valid, the raw
    distance is [NaN], [toFixed(2)] prints it as ["NaN"], and [parseFloat]
    reads that back as [NaN]. *)
Theorem listing_shows_nan_at_the_opposite_point :
  let raw :=
    @calculateDistance _ (float_arith Libm.sin Libm.cos Libm.atan2)
      8 38 (-8) (-142) in
  validPoint 8 38 = true
  /\ Forall (fun s => Store.valid_school s = true) (rows Libm.table)
  /\ isNaN raw = true
  /\ Fixed.toFixed raw 2 = Spelled "NaN"
  /\ exists count ranked r,
       run Sample.env
           (listSchools Libm.sin Libm.cos Libm.atan2 (Sample.query "8" "38"))
           Libm.table
       = ({| status := 200; body := Listing count ranked |}, Libm.table)
       /\ In r ranked
       /\ school r = Libm.opposite
       /\ isNaN (distance r) = true
       /\ (0 <=? distance r) = false.
Proof.
  cbv zeta. repeat split; try (vm_compute; reflexivity).
  - repeat constructor.
  - eexists. eexists. eexists. split; [vm_compute; reflexivity|].
    split; [left; reflexivity|]. repeat split; vm_compute; reflexivity.
Qed.
End OppositePoint.
